(** * Scoring.pipeline — the chunked scoring orchestrator

    A shallow embedding of [src/Scoring/pipeline.py] (class [Pipeline]) and
    the properties of it that the specification states.

    Layout of the development:
    - results and exceptions; insertion-ordered Python dicts as association
      lists ([Section Dicts]);
    - IEEE-754 binary formats over [SpecFloat] ([Section IEEE]): Python's
      [float] is binary64, numpy's [float32] is binary32;
    - [Class Scalar], the arithmetic the orchestrator performs on scores,
      on Python floats, on Python floats mixed with numpy scalars, and on
      exact rationals;
    - byte buffers, numpy arrays, [np.frombuffer], [np.isfinite],
      [np.nan_to_num] ([Section Buffers]);
    - the class itself, as a state-and-exception monad over the record
      [Pipeline] ([Section Orchestrator]); the collaborators are parameters
      whose methods return or raise, and every call made to them is
      recorded with its arguments and its answer;
    - the composite score in the specification's words, test doubles for
      the collaborators;
    - the properties, general first, then on concrete sessions. *)

From Stdlib Require Import ZArith List String Bool Lia.
From Stdlib.Strings Require Import Byte.
From Stdlib Require Import QArith Qcanon.
From Stdlib Require Import Floats.SpecFloat.
Import ListNotations.

Set Implicit Arguments.
Local Close Scope Qc_scope.
Local Close Scope Q_scope.
Local Open Scope string_scope.
Local Open Scope list_scope.

(* ================================================================== *)
(** ** Python exceptions and results *)

Inductive exn : Type :=
| ZeroDivisionError
| KeyError (key : string)
| ValueError (msg : string)
| RuntimeError (msg : string).

Inductive result (A : Type) : Type :=
| Ok (a : A)
| Raise (e : exn).

Arguments Ok {A} a.
Arguments Raise {A} e.

Definition is_ok {A} (r : result A) : bool :=
  match r with Ok _ => true | Raise _ => false end.

Definition rbind {A B} (r : result A) (k : A -> result B) : result B :=
  match r with
  | Ok a => k a
  | Raise e => Raise e
  end.

(* ================================================================== *)
(** ** Dicts

    A Python [dict] keeps its keys in insertion order, and both the weighted
    sum and the feedback selection iterate in that order, so a dict is an
    association list.  Assigning to an existing key keeps its position. *)

Section Dicts.
Variable V : Type.

Definition dict := list (string * V).

Definition keys (d : dict) : list string := map fst d.

(** [d.get(k)] *)
Fixpoint dict_get (d : dict) (k : string) : option V :=
  match d with
  | [] => None
  | (k', v) :: rest => if String.eqb k k' then Some v else dict_get rest k
  end.

(** [d[k]]: a missing key raises [KeyError]. *)
Definition dict_getitem (d : dict) (k : string) : result V :=
  match dict_get d k with
  | Some v => Ok v
  | None => Raise (KeyError k)
  end.

(** [d[k] = v] for a key that is present: the entry is overwritten where it
    stands.  (For an absent key Python appends; the orchestrator only ever
    assigns after a successful [d[k]].) *)
Fixpoint dict_setitem (d : dict) (k : string) (v : V) : dict :=
  match d with
  | [] => [(k, v)]
  | (k', v') :: rest =>
      if String.eqb k k' then (k', v) :: rest
      else (k', v') :: dict_setitem rest k v
  end.
End Dicts.

Arguments dict_get {V} d k.
Arguments dict_getitem {V} d k.
Arguments dict_setitem {V} d k v.
Arguments keys {V} d.

(* ================================================================== *)
(** ** IEEE-754 binary formats

    [SpecFloat] gives the operations of any binary format, correctly rounded
    to nearest-even, over the inductive [spec_float].  Python's [float] is the
    format [binary64]; the arrays that [astype(np.float32)] produces hold
    [binary32] samples. *)

Record Format : Type := {
  prec : Z;     (* bits of the significand, the implicit one included *)
  emax : Z      (* exponent of the infinities *)
}.

Definition binary64 : Format := {| prec := 53; emax := 1024 |}.
Definition binary32 : Format := {| prec := 24; emax := 128 |}.

Section IEEE.
Variable fmt : Format.

Definition fl_zero : spec_float := S754_zero false.
Definition fl_nan : spec_float := S754_nan.
Definition fl_inf : spec_float := S754_infinity false.
Definition fl_neg_inf : spec_float := S754_infinity true.

(** conversion of a Python [int] (round to nearest even) *)
Definition fl_of_Z (z : Z) : spec_float :=
  binary_normalize (prec fmt) (emax fmt) z 0 false.

Definition fl_add : spec_float -> spec_float -> spec_float :=
  SFadd (prec fmt) (emax fmt).
Definition fl_mul : spec_float -> spec_float -> spec_float :=
  SFmul (prec fmt) (emax fmt).
Definition fl_div : spec_float -> spec_float -> spec_float :=
  SFdiv (prec fmt) (emax fmt).
Definition fl_abs : spec_float -> spec_float := SFabs.

(** [x == y], [x < y], [x <= y]: false as soon as an operand is NaN *)
Definition fl_eqb : spec_float -> spec_float -> bool := SFeqb.
Definition fl_ltb : spec_float -> spec_float -> bool := SFltb.
Definition fl_leb : spec_float -> spec_float -> bool := SFleb.

(** [np.finfo(dtype).max] *)
Definition fl_max_float : spec_float := SFmax_float (prec fmt) (emax fmt).

(** the decimal literal [n/d], e.g. [0.8] is [fl_dec 8 10]: the division of
    two exactly represented integers rounds to the float nearest to the
    quotient, which is the float the literal denotes *)
Definition fl_dec (n d : Z) : spec_float := fl_div (fl_of_Z n) (fl_of_Z d).

(** the next float below *)
Definition fl_pred : spec_float -> spec_float := SFpred (prec fmt) (emax fmt).

(** [np.isfinite] on one sample *)
Definition fl_isfinite (x : spec_float) : bool :=
  match x with
  | S754_nan | S754_infinity _ => false
  | S754_zero _ | S754_finite _ _ _ => true
  end.

(** [np.nan_to_num] on one sample, with numpy's defaults [nan=0.0],
    [posinf=None], [neginf=None]: NaN becomes zero, the infinities become
    the largest and the most negative finite value of the dtype. *)
Definition fl_nan_to_num (x : spec_float) : spec_float :=
  match x with
  | S754_nan => fl_zero
  | S754_infinity false => fl_max_float
  | S754_infinity true => SFopp fl_max_float
  | _ => x
  end.

(** The bit pattern of a sample: sign, biased exponent, fraction.
    [spec_float] has a single NaN, which is given the pattern of [np.nan]
    (quiet, positive, empty payload).  A float array whose memory holds a
    NaN with another sign or payload computes like the array modelled here
    but has other bytes; where only its memory is read, the [bytes] object
    with that memory stands for it. *)
Definition fl_bits (x : spec_float) : Z :=
  let mw := (prec fmt - 1)%Z in
  let sign (s : bool) :=
    if s then Z.shiftl 1 (mw + Z.log2 (2 * emax fmt)) else 0%Z in
  let emask := Z.shiftl (2 * emax fmt - 1) mw in
  match x with
  | S754_zero s => sign s
  | S754_infinity s => Z.lor (sign s) emask
  | S754_nan => Z.lor emask (Z.shiftl 1 (mw - 1))
  | S754_finite s m e =>
      if (Z.pos (digits2_pos m) =? prec fmt)%Z
      then Z.lor (sign s)
             (Z.lor (Z.shiftl (e + mw + emax fmt - 1) mw)
                    (Z.pos m - Z.shiftl 1 mw))
      else Z.lor (sign s) (Z.pos m)
  end.
End IEEE.

(** Python's [float] *)
Module B64.
Definition zero := fl_zero.
Definition nan := fl_nan.
Definition inf := fl_inf.
Definition neg_inf := fl_neg_inf.
Definition of_Z := fl_of_Z binary64.
Definition add := fl_add binary64.
Definition mul := fl_mul binary64.
Definition div := fl_div binary64.
Definition eqb := fl_eqb.
Definition leb := fl_leb.
Definition max_float := fl_max_float binary64.
Definition dec := fl_dec binary64.
Definition pred := fl_pred binary64.
Definition isfinite := fl_isfinite.
Definition nan_to_num := fl_nan_to_num binary64.
Definition bits := fl_bits binary64.
End B64.

(** numpy's [float32] *)
Module B32.
Definition of_Z := fl_of_Z binary32.
Definition div := fl_div binary32.
Definition abs := fl_abs.
Definition ltb := fl_ltb.
Definition max_float := fl_max_float binary32.
Definition isfinite := fl_isfinite.
Definition nan_to_num := fl_nan_to_num binary32.
Definition bits := fl_bits binary32.
End B32.

(* ================================================================== *)
(** ** The arithmetic on scores

    [_calculate_weighted_score], the accumulation and the averages use [+],
    [*], [/] by the chunk counter and the comparison [>= 0.8].  The class
    keeps the orchestrator independent of the number representation:
    [Scalar_float] is what Python computes on its own floats; [Scalar_number]
    is what it computes when numpy scalars are among the numbers;
    [Scalar_Qc] computes the same expressions without rounding.

    A division by the counter 0 depends on the class of the dividend: a
    Python [int] or [float] raises ZeroDivisionError, a numpy scalar such as
    [np.float64] gives the IEEE quotient (an infinity or NaN) and a warning.
    [sc_numpy] tells the two apart. *)

Class Scalar (F : Type) : Type := {
  sc_zero : F;                     (* the literals [0] and [0.0] *)
  sc_add : F -> F -> F;
  sc_mul : F -> F -> F;
  sc_div_count : F -> nat -> F;    (* [x / n], where the division returns *)
  sc_ge_0_8 : F -> bool;           (* [x >= 0.8] *)
  sc_numpy : F -> bool             (* [isinstance(x, np.floating)] *)
}.

(** How the class of a result follows from the classes of the operands: the
    literal zeros are Python numbers, and [+] and [*] give a numpy scalar as
    soon as one operand is one. *)
Class ScalarTyping (F : Type) {SF : Scalar F} : Prop := {
  numpy_zero : sc_numpy sc_zero = false;
  numpy_add : forall x y : F, sc_numpy (sc_add x y) = sc_numpy x || sc_numpy y;
  numpy_mul : forall x y : F, sc_numpy (sc_mul x y) = sc_numpy x || sc_numpy y
}.

Arguments ScalarTyping F {SF}.

(** Python floats.  The [int] 0 that [_reset_scores] stores behaves as [0.0]
    in [0 + v], [0 * w], [0 / n] and [0 >= 0.8].  The counter is converted as
    Python converts an [int] operand (nearest float). *)
#[export] Instance Scalar_float : Scalar spec_float := {
  sc_zero := B64.zero;
  sc_add := B64.add;
  sc_mul := B64.mul;
  sc_div_count := fun x n => B64.div x (B64.of_Z (Z.of_nat n));
  sc_ge_0_8 := fun x => B64.leb (B64.dec 8 10) x;
  sc_numpy := fun _ => false
}.

(** Python floats and numpy scalars side by side.  A ScoreVector computed
    with numpy holds [np.float64] values; [np.float64] is a subclass of
    [float], and an operation with a numpy operand gives a numpy scalar. *)
Inductive number : Type :=
| PyFloat (x : spec_float)
| NpFloat64 (x : spec_float).

Definition number_value (a : number) : spec_float :=
  match a with PyFloat x | NpFloat64 x => x end.

Definition is_numpy (a : number) : bool :=
  match a with PyFloat _ => false | NpFloat64 _ => true end.

(** the class of the result of a binary operation *)
Definition number_of (a b : number) (x : spec_float) : number :=
  if is_numpy a || is_numpy b then NpFloat64 x else PyFloat x.

#[export] Instance Scalar_number : Scalar number := {
  sc_zero := PyFloat B64.zero;
  sc_add := fun a b => number_of a b (B64.add (number_value a) (number_value b));
  sc_mul := fun a b => number_of a b (B64.mul (number_value a) (number_value b));
  sc_div_count := fun a n =>
    number_of a a (B64.div (number_value a) (B64.of_Z (Z.of_nat n)));
  sc_ge_0_8 := fun a => B64.leb (B64.dec 8 10) (number_value a);
  sc_numpy := is_numpy
}.


(** Exact rational arithmetic. *)
Definition Qc_of_nat (n : nat) : Qc := Q2Qc (inject_Z (Z.of_nat n)).

#[export] Instance Scalar_Qc : Scalar Qc := {
  sc_zero := Q2Qc 0;
  sc_add := Qcplus;
  sc_mul := Qcmult;
  sc_div_count := fun x n => Qcdiv x (Qc_of_nat n);
  sc_ge_0_8 := fun x => match Qccompare (Q2Qc (8 # 10)) x with Gt => false | _ => true end;
  sc_numpy := fun _ => false
}.

(* ================================================================== *)
(** ** Byte buffers and numpy arrays

    An audio buffer reaches the orchestrator either as a Python [bytes] object
    or as a one-dimensional [np.ndarray]; [np.frombuffer] reads the memory of
    either (little-endian, contiguous).  The arrays are those of the dtypes
    audio comes in: [uint8] (raw bytes, one byte per element; an [int8]
    array has the same memory and length), [int16] (PCM samples), [float32]
    and [float64] (waveforms). *)

Inductive ndarray : Type :=
| Uint8Array (data : list byte)
| Int16Array (data : list Z)
| Float32Array (data : list spec_float)
| Float64Array (data : list spec_float).

Inductive Buffer : Type :=
| PyBytes (data : list byte)
| NdArray (a : ndarray).

Section Buffers.

(** [len(a)] *)
Definition ndarray_len (a : ndarray) : nat :=
  match a with
  | Uint8Array d => List.length d
  | Int16Array d => List.length d
  | Float32Array d | Float64Array d => List.length d
  end.

Definition byte_of_Z (z : Z) : byte :=
  match Byte.of_N (Z.to_N (z mod 256)) with
  | Some b => b
  | None => x00
  end.

(** the [width] low bytes of [z], least significant first *)
Fixpoint le_bytes (width : nat) (z : Z) : list byte :=
  match width with
  | O => []
  | S w => byte_of_Z z :: le_bytes w (Z.shiftr z 8)
  end.

(** the memory an array exposes through the buffer protocol *)
Definition ndarray_bytes (a : ndarray) : list byte :=
  match a with
  | Uint8Array d => d
  | Int16Array d => flat_map (fun z => le_bytes 2 (z mod 65536)) d
  | Float32Array d => flat_map (fun x => le_bytes 4 (B32.bits x)) d
  | Float64Array d => flat_map (fun x => le_bytes 8 (B64.bits x)) d
  end.

Definition buffer_bytes (b : Buffer) : list byte :=
  match b with
  | PyBytes d => d
  | NdArray a => ndarray_bytes a
  end.

(** one little-endian two's-complement 16-bit sample *)
Definition int16_of_bytes (lo hi : byte) : Z :=
  let u := (Z.of_N (Byte.to_N lo) + 256 * Z.of_N (Byte.to_N hi))%Z in
  if (u <? 32768)%Z then u else (u - 65536)%Z.

(** [np.frombuffer(b, dtype=np.int16)]; a buffer of odd size is refused. *)
Fixpoint frombuffer_int16 (b : list byte) : result (list Z) :=
  match b with
  | [] => Ok []
  | [_] => Raise (ValueError "buffer size must be a multiple of element size")
  | lo :: hi :: rest =>
      rbind (frombuffer_int16 rest) (fun tl => Ok (int16_of_bytes lo hi :: tl))
  end.

(** [np.maximum] on float32 samples (NaN wins) *)
Definition np_maximum (a b : spec_float) : spec_float :=
  match a, b with
  | S754_nan, _ => a
  | _, S754_nan => b
  | _, _ => if B32.ltb a b then b else a
  end.

(** [np.max(a)]: the reduction has no identity, an empty array is refused. *)
Definition np_max (a : list spec_float) : result spec_float :=
  match a with
  | [] => Raise (ValueError "zero-size array to reduction operation maximum which has no identity")
  | x :: rest => Ok (fold_left np_maximum rest x)
  end.

(** [np.all(np.isfinite(a))]; integers are always finite *)
Definition all_isfinite (a : ndarray) : bool :=
  match a with
  | Uint8Array _ | Int16Array _ => true
  | Float32Array d => forallb B32.isfinite d
  | Float64Array d => forallb B64.isfinite d
  end.

(** [np.nan_to_num(a)] *)
Definition nan_to_num (a : ndarray) : ndarray :=
  match a with
  | Uint8Array d => Uint8Array d
  | Int16Array d => Int16Array d
  | Float32Array d => Float32Array (map B32.nan_to_num d)
  | Float64Array d => Float64Array (map B64.nan_to_num d)
  end.

(** [np.iinfo(np.int16).max] *)
Definition int16_max : Z := 32767.

(** [Pipeline._convert_to_numpy_array] (lines 62-75) *)
Definition _convert_to_numpy_array (audio_chunk : Buffer) (to_float : bool)
  : result ndarray :=
  rbind (frombuffer_int16 (buffer_bytes audio_chunk)) (fun audio_array =>
  if to_float then
    let audio_array := map B32.of_Z audio_array in
    rbind (np_max (map B32.abs audio_array)) (fun m =>
    if B32.ltb (B32.of_Z 1) m
    then Ok (Float32Array (map (fun x => B32.div x (B32.of_Z int16_max)) audio_array))
    else Ok (Float32Array audio_array))
  else Ok (Int16Array audio_array)).

End Buffers.

(* ================================================================== *)
(** ** Configuration *)

(** one entry of [pipelines]: a dict from the audio role, ["chunk"] or
    ["original"], to the step names of that role *)
Definition PipelineSpec : Type := dict (list string).

(** one entry of [config.FEEDBACK_MESSAGES]:
    [feedback_messages["high"]] and [feedback_messages["low"]] *)
Record FeedbackMessages : Type := {
  high : string;
  low : string
}.

Record Config : Type := {
  FEEDBACK_MESSAGES : dict FeedbackMessages
}.

(** the keys [_reset_scores] creates, in the order it creates them *)
Definition score_names : list string :=
  [ "linguistic_accuracy_score";
    "linguistic_similarity_score";
    "amplitude_score";
    "pitch_score";
    "rhythm_score" ].

(* ================================================================== *)
(** ** The orchestrator *)

Section Orchestrator.
Context {F : Type} {SF : Scalar F}.

(** The collaborators ([KaraokeData], [AudioPreprocessor], [AudioScorer])
    are not part of the orchestrator.  Their hidden state is a value of type
    [World]; each of their methods is a function of its arguments and that
    state, and gives back either what the method returns or the exception
    it raises, with the state as the method left it. *)
Variables World Processed Lyrics : Type.

Record Collaborators : Type := {
  (* karaoke_data.align_audio(audio_chunk, method="start") *)
  align_audio : Buffer -> World -> result unit * World;
  (* karaoke_data.get_next_segment(length) *)
  get_next_segment : nat -> World -> result (Buffer * Buffer) * World;
  (* karaoke_data.get_lyrics() *)
  get_lyrics : World -> result Lyrics * World;
  (* ap.preprocess_audio(audio, steps, sr=sr, reference_audio=reference_audio) *)
  preprocess_audio :
    ndarray -> list string -> Z -> ndarray -> World -> result Processed * World;
  (* audio_scorer.process_audio_chunk(chunk_data, original_data, lyrics, sr) *)
  process_audio_chunk :
    dict Processed -> dict Processed -> Lyrics -> Z -> World
    -> result (dict F) * World
}.

Variable collab : Collaborators.

(** A collaborator call as the orchestrator writes it: the method and the
    arguments it is given. *)
Inductive Request : Type :=
| AlignAudio (audio_chunk : Buffer)
| GetNextSegment (length : nat)
| GetLyrics
| PreprocessAudio (audio : ndarray) (steps : list string) (sr : Z)
    (reference_audio : ndarray)
| ProcessAudioChunk (chunk_data original_data : dict Processed)
    (lyrics : Lyrics) (sr : Z).

(** what the method of a request returns *)
Definition Response (q : Request) : Type :=
  match q with
  | AlignAudio _ => unit
  | GetNextSegment _ => (Buffer * Buffer)%type
  | GetLyrics => Lyrics
  | PreprocessAudio _ _ _ _ => Processed
  | ProcessAudioChunk _ _ _ _ => dict F
  end.

(** the method of a request, applied to its arguments *)
Definition perform (q : Request) : World -> result (Response q) * World :=
  match q with
  | AlignAudio audio_chunk => align_audio collab audio_chunk
  | GetNextSegment length => get_next_segment collab length
  | GetLyrics => get_lyrics collab
  | PreprocessAudio audio steps sr reference_audio =>
      preprocess_audio collab audio steps sr reference_audio
  | ProcessAudioChunk chunk_data original_data lyrics sr =>
      process_audio_chunk collab chunk_data original_data lyrics sr
  end.

(** What the orchestrator does to the outside, in the order it does it:
    the collaborator calls, each with its arguments and with what came back,
    and the log records. *)
Inductive Event : Type :=
| EvCall (q : Request) (answer : result (Response q))
| EvLogError (msg : string)
| EvLogInfo (scores : dict F).

(** The attributes of [self].  [world] stands for the three collaborator
    objects; [events] is the history of [Event]s, kept for the statements
    about what was called and with what. *)
Record Pipeline : Type := {
  sr : Z;
  config : Config;
  pipelines : dict PipelineSpec;
  score_weights : dict F;
  world : World;
  cumulative_scores : dict F;
  chunk_count : nat;
  initialized : bool;
  events : list Event
}.

Definition set_world (w : World) (self : Pipeline) : Pipeline :=
  {| sr := sr self; config := config self; pipelines := pipelines self;
     score_weights := score_weights self; world := w;
     cumulative_scores := cumulative_scores self;
     chunk_count := chunk_count self; initialized := initialized self;
     events := events self |}.

Definition set_cumulative_scores (c : dict F) (self : Pipeline) : Pipeline :=
  {| sr := sr self; config := config self; pipelines := pipelines self;
     score_weights := score_weights self; world := world self;
     cumulative_scores := c;
     chunk_count := chunk_count self; initialized := initialized self;
     events := events self |}.

Definition set_chunk_count (n : nat) (self : Pipeline) : Pipeline :=
  {| sr := sr self; config := config self; pipelines := pipelines self;
     score_weights := score_weights self; world := world self;
     cumulative_scores := cumulative_scores self;
     chunk_count := n; initialized := initialized self;
     events := events self |}.

Definition set_initialized (b : bool) (self : Pipeline) : Pipeline :=
  {| sr := sr self; config := config self; pipelines := pipelines self;
     score_weights := score_weights self; world := world self;
     cumulative_scores := cumulative_scores self;
     chunk_count := chunk_count self; initialized := b;
     events := events self |}.

Definition record_event (ev : Event) (self : Pipeline) : Pipeline :=
  {| sr := sr self; config := config self; pipelines := pipelines self;
     score_weights := score_weights self; world := world self;
     cumulative_scores := cumulative_scores self;
     chunk_count := chunk_count self; initialized := initialized self;
     events := events self ++ [ev] |}.

(** *** Methods run in a state-and-exception monad

    A method takes [self] and gives back a value or an exception together
    with [self] as the method left it: what was assigned before an exception
    stays assigned. *)

Definition M (A : Type) : Type := Pipeline -> result A * Pipeline.

Definition ret {A} (a : A) : M A := fun self => (Ok a, self).

Definition bind {A B} (m : M A) (k : A -> M B) : M B :=
  fun self =>
    match m self with
    | (Ok a, self') => k a self'
    | (Raise e, self') => (Raise e, self')
    end.

Definition lift {A} (r : result A) : M A := fun self => (r, self).

Definition gets {A} (f : Pipeline -> A) : M A := fun self => (Ok (f self), self).

Definition modify (f : Pipeline -> Pipeline) : M unit := fun self => (Ok tt, f self).

(** A collaborator call: the method runs on the collaborators' state, the
    call and its answer are recorded, and an exception of the method is an
    exception of the caller. *)
Definition call (q : Request) : M (Response q) :=
  fun self =>
    let (answer, w) := perform q (world self) in
    (answer, set_world w (record_event (EvCall q answer) self)).

Definition logging (ev : Event) : M unit := modify (record_event ev).

Notation "x <- m ;; k" := (bind m (fun x => k))
  (at level 61, m at next level, right associativity).
Notation "m ;; k" := (bind m (fun _ => k))
  (at level 61, right associativity).

(** [x / self.chunk_count]: by zero, a Python number raises and a numpy
    scalar returns *)
Definition py_div (x : F) (n : nat) : result F :=
  match n with
  | O => if sc_numpy x then Ok (sc_div_count x 0) else Raise ZeroDivisionError
  | S _ => Ok (sc_div_count x n)
  end.

(** [Pipeline._reset_scores] (lines 44-53) *)
Definition _reset_scores : M unit :=
  modify (set_cumulative_scores
            [ ("linguistic_accuracy_score", sc_zero);
              ("linguistic_similarity_score", sc_zero);
              ("amplitude_score", sc_zero);
              ("pitch_score", sc_zero);
              ("rhythm_score", sc_zero) ]) ;;
  modify (set_chunk_count 0).

(** [Pipeline.__init__] (lines 11-36).  The collaborators it constructs from
    the two waveforms, the lyrics and the transcription method arrive as
    their initial state [w]. *)
Definition __init__ (w : World) (sr0 : Z) (score_weights0 : dict F)
    (pipelines0 : dict PipelineSpec) (config0 : Config) : Pipeline :=
  let self :=
    {| sr := sr0; config := config0; pipelines := pipelines0;
       score_weights := score_weights0; world := w;
       cumulative_scores := []; chunk_count := 0; initialized := false;
       events := [] |} in
  let self := snd (_reset_scores self) in
  set_initialized false self.

(** [Pipeline._calculate_weighted_score] (lines 135-148): reads [self],
    assigns nothing, cannot raise. *)
Definition _calculate_weighted_score (self : Pipeline) (scores : dict F) : F :=
  fold_left
    (fun weighted_score (item : string * F) =>
       let (score_type, score_value) := item in
       match dict_get (score_weights self) score_type with
       | None => weighted_score
       | Some weight => sc_add weighted_score (sc_mul score_value weight)
       end)
    scores sc_zero.

(** the loop of [_generate_feedback]; [score_name in scores] followed by
    [scores[score_name]] is one lookup *)
Fixpoint feedback_loop (items : dict FeedbackMessages) (scores : dict F)
  : option string :=
  match items with
  | [] => None
  | (score_name, feedback_messages) :: rest =>
      match dict_get scores score_name with
      | Some score_value =>
          Some (if sc_ge_0_8 score_value
                then high feedback_messages
                else low feedback_messages)
      | None => feedback_loop rest scores
      end
  end.

(** [Pipeline._generate_feedback] (lines 156-162); falling off the end of
    the loop returns [None]. *)
Definition _generate_feedback (self : Pipeline) (scores : dict F) : option string :=
  feedback_loop (FEEDBACK_MESSAGES (config self)) scores.

(** the comprehension of [_preprocess_audio]; [pipeline[audio_type]] raises
    [KeyError] when the sub-pipeline has no steps for the role *)
Fixpoint preprocess_loop (items : dict PipelineSpec) (audio : ndarray)
    (audio_type : string) (reference_audio : ndarray) : M (dict Processed) :=
  match items with
  | [] => ret []
  | (score_name, pipeline) :: rest =>
      steps <- lift (dict_getitem pipeline audio_type) ;;
      rate <- gets sr ;;
      p <- call (PreprocessAudio audio steps rate reference_audio) ;;
      ps <- preprocess_loop rest audio audio_type reference_audio ;;
      ret ((score_name, p : Processed) :: ps)
  end.

(** [Pipeline._preprocess_audio] (lines 55-60) *)
Definition _preprocess_audio (audio : ndarray) (audio_type : string)
    (reference_audio : ndarray) : M (dict Processed) :=
  items <- gets pipelines ;;
  preprocess_loop items audio audio_type reference_audio.

(** [Pipeline._compute_scores] (lines 126-133) *)
Definition _compute_scores (processed_audio_chunk_data processed_original_data
    : dict Processed) : M (dict F) :=
  lyrics <- call GetLyrics ;;
  rate <- gets sr ;;
  call (ProcessAudioChunk processed_audio_chunk_data processed_original_data
          lyrics rate).

(** the accumulation loop (lines 113-114): [self.cumulative_scores[k] += v]
    reads the entry, which raises [KeyError] for a missing key, and then
    assigns it *)
Fixpoint accumulate (items : dict F) : M unit :=
  match items with
  | [] => ret tt
  | (score_name, score_value) :: rest =>
      cum <- gets cumulative_scores ;;
      old <- lift (dict_getitem cum score_name) ;;
      modify (set_cumulative_scores
                (dict_setitem cum score_name (sc_add old score_value))) ;;
      accumulate rest
  end.

(** *** [Pipeline.process_and_score] (lines 77-119)

    The method is one straight sequence; it is written here paragraph by
    paragraph, each under the lines it stands for. *)

(** lines 82-84: the one-time alignment; the flag is set once the
    alignment has returned *)
Definition align_once (audio_chunk : Buffer) : M unit :=
  done <- gets initialized ;;
  if negb done
  then call (AlignAudio audio_chunk) ;;
       modify (set_initialized true)
  else ret tt.

(** lines 86-87: the chunk is converted unless it is already an array;
    [isinstance(audio_chunk, np.ndarray)] is the case analysis on [Buffer] *)
Definition normalize_chunk (audio_chunk : Buffer) : M ndarray :=
  match audio_chunk with
  | NdArray a => ret a
  | PyBytes _ => lift (_convert_to_numpy_array audio_chunk true)
  end.

(** lines 89-92: non-finite samples *)
Definition sanitize_chunk (audio_chunk : ndarray) : M ndarray :=
  if negb (all_isfinite audio_chunk)
  then logging (EvLogError "Audio chunk contains non-finite values!") ;;
       ret (nan_to_num audio_chunk)
  else ret audio_chunk.

(** lines 96-101: the reference segment, both buffers converted *)
Definition fetch_reference (audio_chunk : ndarray) : M (ndarray * ndarray) :=
  segment <- call (GetNextSegment (ndarray_len audio_chunk * 2)) ;;
  original_segment <- lift (_convert_to_numpy_array (fst segment) true) ;;
  reference_audio <- lift (_convert_to_numpy_array (snd segment) true) ;;
  ret (original_segment, reference_audio).

(** lines 104-108: preprocessing of both roles, scoring, the log record *)
Definition score_chunk (audio_chunk original_segment reference_audio : ndarray)
  : M (dict F) :=
  processed_audio_chunk_data <-
    _preprocess_audio audio_chunk "chunk" reference_audio ;;
  processed_original_data <-
    _preprocess_audio original_segment "original" reference_audio ;;
  scores <- _compute_scores processed_audio_chunk_data processed_original_data ;;
  logging (EvLogInfo scores) ;;
  ret scores.

(** lines 82-108: from the chunk to its ScoreVector *)
Definition chunk_scores (audio_chunk : Buffer) : M (dict F) :=
  align_once audio_chunk ;;
  audio_chunk <- normalize_chunk audio_chunk ;;
  audio_chunk <- sanitize_chunk audio_chunk ;;
  refs <- fetch_reference audio_chunk ;;
  score_chunk audio_chunk (fst refs) (snd refs).

(** lines 109-119: composite score, feedback, accumulation, running average *)
Definition aggregate (scores : dict F) : M (F * F * option string) :=
  score <- gets (fun self => _calculate_weighted_score self scores) ;;
  feedback <- gets (fun self => _generate_feedback self scores) ;;
  accumulate scores ;;
  modify (fun self => set_chunk_count (chunk_count self + 1) self) ;;
  total <- gets (fun self => _calculate_weighted_score self (cumulative_scores self)) ;;
  n <- gets chunk_count ;;
  average_score <- lift (py_div total n) ;;
  ret (score, average_score, feedback).

Definition process_and_score (audio_chunk : Buffer) : M (F * F * option string) :=
  scores <- chunk_scores audio_chunk ;;
  aggregate scores.

(** [Pipeline.final_score] (lines 121-124) *)
Definition final_score : M (F * option string) :=
  total <- gets (fun self => _calculate_weighted_score self (cumulative_scores self)) ;;
  n <- gets chunk_count ;;
  average_score <- lift (py_div total n) ;;
  feedback <- gets (fun self => _generate_feedback self (cumulative_scores self)) ;;
  ret (average_score, feedback).

(** the comprehension of [get_average_scores] *)
Fixpoint average_loop (items : dict F) (n : nat) : result (dict F) :=
  match items with
  | [] => Ok []
  | (score_name, score_value) :: rest =>
      rbind (py_div score_value n) (fun a =>
      rbind (average_loop rest n) (fun tl =>
      Ok ((score_name, a) :: tl)))
  end.

(** [Pipeline.get_average_scores] (lines 150-154) *)
Definition get_average_scores : M (dict F) :=
  items <- gets cumulative_scores ;;
  n <- gets chunk_count ;;
  lift (average_loop items n).

(** A session: the caller feeds the chunks in order and goes on after an
    exception.  [session] gives what each call returned and [self] at the
    end. *)
Fixpoint session (chunks : list Buffer) (self : Pipeline)
  : list (result (F * F * option string)) * Pipeline :=
  match chunks with
  | [] => ([], self)
  | c :: rest =>
      let (r, self') := process_and_score c self in
      let (rs, self'') := session rest self' in
      (r :: rs, self'')
  end.

End Orchestrator.

Arguments AlignAudio {Processed Lyrics} audio_chunk.
Arguments GetNextSegment {Processed Lyrics} length.
Arguments GetLyrics {Processed Lyrics}.
Arguments PreprocessAudio {Processed Lyrics} audio steps sr reference_audio.
Arguments ProcessAudioChunk {Processed Lyrics} chunk_data original_data lyrics sr.
Arguments EvCall {F Processed Lyrics} q answer.
Arguments EvLogError {F Processed Lyrics} msg.
Arguments EvLogInfo {F Processed Lyrics} scores.
Arguments __init__ {F SF World} Processed Lyrics w sr0 score_weights0 pipelines0 config0.

Declare Scope pipeline_scope.
Delimit Scope pipeline_scope with M.
Notation "x <- m ;; k" := (bind m (fun x => k))
  (at level 61, m at next level, right associativity) : pipeline_scope.
Notation "m ;; k" := (bind m (fun _ => k))
  (at level 61, right associativity) : pipeline_scope.

(** A chunk sequence in which every chunk yields the ScoreVector [scores]:
    at each call the scoring paragraphs return [scores]. *)
Inductive yields_all {F : Type} {SF : Scalar F} {World Processed Lyrics : Type}
    (collab : @Collaborators F World Processed Lyrics) (scores : dict F)
  : list Buffer -> @Pipeline F World Processed Lyrics -> Prop :=
| yields_nil : forall self, yields_all collab scores [] self
| yields_cons : forall c cs self s1,
    chunk_scores collab c self = (Ok scores, s1) ->
    yields_all collab scores cs (snd (process_and_score collab c self)) ->
    yields_all collab scores (c :: cs) self.

(** the arrays handed to [preprocess_audio], in the order of the calls *)
Definition preprocessed_audio {F Processed Lyrics}
    (evs : list (@Event F Processed Lyrics)) : list ndarray :=
  flat_map (fun ev => match ev with
                      | EvCall (PreprocessAudio audio _ _ _) _ => [audio]
                      | _ => []
                      end) evs.

(** the alignment calls among the events *)
Definition is_align {F Processed Lyrics} (ev : @Event F Processed Lyrics) : bool :=
  match ev with EvCall (AlignAudio _) _ => true | _ => false end.

Definition align_calls {F World Processed Lyrics}
    (self : @Pipeline F World Processed Lyrics) : list (@Event F Processed Lyrics) :=
  filter is_align (events self).

(** the calls of a session that returned *)
Definition count_ok {A} (rs : list (result A)) : nat :=
  List.length (filter is_ok rs).

(** The alignment calls of a session on a new orchestrator, from the chunks
    and the collaborators alone: one call per chunk, with that chunk, up to
    and including the first call that returns.  A call of
    [process_and_score] whose alignment raises does nothing else, so the
    collaborators' state passes from one attempt to the next. *)
Fixpoint alignment_attempts {F World Processed Lyrics : Type}
    (collab : @Collaborators F World Processed Lyrics)
    (chunks : list Buffer) (w : World) : list (@Event F Processed Lyrics) :=
  match chunks with
  | [] => []
  | c :: rest =>
      let (answer, w') := align_audio collab c w in
      EvCall (AlignAudio c) answer ::
      match answer with
      | Ok _ => []
      | Raise _ => alignment_attempts collab rest w'
      end
  end.

(* ================================================================== *)
(** ** The composite score in the specification's words

    "sum over score names present in the ScoreVector of (score_value x
    weight), where weight is looked up in ScoreWeights; score names absent
    from ScoreWeights contribute nothing and are skipped".  The terms are
    listed in the ScoreVector's order and summed from the left, starting
    from zero. *)

Section CompositeSpec.
Context {F : Type} {SF : Scalar F}.

Definition weighted_terms (weights scores : dict F) : list F :=
  flat_map (fun item : string * F =>
              match dict_get weights (fst item) with
              | Some weight => [sc_mul (snd item) weight]
              | None => []
              end) scores.

Definition sum_terms (terms : list F) : F := fold_left sc_add terms sc_zero.

Definition composite_spec (weights scores : dict F) : F :=
  sum_terms (weighted_terms weights scores).

(** what one entry of a ScoreVector adds to the composite *)
Definition weighted_term (weights : dict F) (name : string) (value : F) : F :=
  match dict_get weights name with
  | Some weight => sc_mul value weight
  | None => sc_zero
  end.
End CompositeSpec.

(* ================================================================== *)
(** ** A test double for the collaborators

    [stub segment scores]: the segment provider always hands out [segment]
    and counts its alignment calls in its state; the scorer always answers
    [scores]; preprocessing returns nothing of interest. *)

Definition stub {F : Type} (segment : Buffer * Buffer) (scores : dict F)
  : @Collaborators F nat unit unit :=
  {| align_audio := fun _ n => (Ok tt, S n);
     get_next_segment := fun _ n => (Ok segment, n);
     get_lyrics := fun n => (Ok tt, n);
     preprocess_audio := fun _ _ _ _ n => (Ok tt, n);
     process_audio_chunk := fun _ _ _ _ n => (Ok scores, n) |}.

(** The same test double with an alignment that refuses a chunk without
    samples. *)
Definition strict_stub {F : Type} (segment : Buffer * Buffer) (scores : dict F)
  : @Collaborators F nat unit unit :=
  {| align_audio := fun audio_chunk n =>
       match buffer_bytes audio_chunk with
       | [] => (Raise (ValueError "empty audio chunk"), S n)
       | _ => (Ok tt, S n)
       end;
     get_next_segment := fun _ n => (Ok segment, n);
     get_lyrics := fun n => (Ok tt, n);
     preprocess_audio := fun _ _ _ _ n => (Ok tt, n);
     process_audio_chunk := fun _ _ _ _ n => (Ok scores, n) |}.

(** two bytes of silence followed by one full-scale sample *)
Definition pcm_segment : Buffer := PyBytes [x00; x00; xff; x7f].

Definition one_pipeline : dict PipelineSpec :=
  [("pitch_score", [("chunk", ["normalize"]); ("original", [])])].

Definition pitch_catalog : Config :=
  {| FEEDBACK_MESSAGES :=
       [("pitch_score", {| high := "Great pitch!"; low := "Watch your pitch." |})] |}.

Definition pitch_only {F : Type} (v : F) : dict F := [("pitch_score", v)].

(** a float64 chunk with both infinities and a NaN *)
Definition nonfinite_chunk : ndarray :=
  Float64Array [B64.inf; B64.nan; B64.neg_inf; B64.dec 1 2].


(** a catalog of three names; the first one is a score the test double
    never produces *)
Definition three_catalog : Config :=
  {| FEEDBACK_MESSAGES :=
       [("amplitude_score", {| high := "Good volume."; low := "Sing louder." |});
        ("pitch_score", {| high := "Great pitch!"; low := "Watch your pitch." |});
        ("rhythm_score", {| high := "Right on time."; low := "Mind the beat." |})] |}.

(** a new orchestrator over the test double *)
Definition fresh_with {F : Type} {SF : Scalar F} (cfg : Config) (weights : dict F)
  : @Pipeline F nat unit unit :=
  __init__ unit unit 0 44100%Z weights one_pipeline cfg.

Definition fresh {F : Type} {SF : Scalar F} (weights : dict F)
  : @Pipeline F nat unit unit :=
  fresh_with pitch_catalog weights.

(** ** Relations between states, used by the properties *)

(** The configuration, the statistics and the alignment are as before; only
    collaborator state and events other than alignments may differ. *)
Definition untouched {F World Processed Lyrics : Type}
    (s s' : @Pipeline F World Processed Lyrics) : Prop :=
  sr s' = sr s /\ config s' = config s /\ pipelines s' = pipelines s /\
  score_weights s' = score_weights s /\
  cumulative_scores s' = cumulative_scores s /\
  chunk_count s' = chunk_count s /\
  initialized s' = initialized s /\
  align_calls s' = align_calls s.

(** the step lists the sub-pipelines have for a role, [None] where a
    sub-pipeline has none *)
Definition role_steps (items : dict PipelineSpec) (audio_type : string)
  : list (option (list string)) :=
  map (fun item => dict_get (snd item) audio_type) items.

(** calls of the preprocessor that returned, for one audio: the step lists
    they were given and their answers *)
Definition preprocess_calls {F Processed Lyrics : Type}
    (audio : ndarray) (rate : Z) (reference_audio : ndarray)
    (stepss : list (list string)) (answers : list Processed)
  : list (@Event F Processed Lyrics) :=
  map (fun call : list string * Processed =>
         EvCall (PreprocessAudio audio (fst call) rate reference_audio)
                (Ok (snd call)))
      (combine stepss answers).

(** the history of events has only been added to *)
Definition grows {F World Processed Lyrics : Type}
    (s s' : @Pipeline F World Processed Lyrics) : Prop :=
  exists added, events s' = events s ++ added.

(** every value of the dict is a Python number, none a numpy scalar *)
Definition python_numbers {F : Type} {SF : Scalar F} (d : dict F) : Prop :=
  forall k v, In (k, v) d -> sc_numpy v = false.


(** After [n] chunks that all yielded [S], in exact arithmetic, the weighted
    cumulative sums are [n] times the composite of [S]. *)
Definition constant_so_far {World Processed Lyrics : Type}
    (S : dict Qc) (n : nat) (s : @Pipeline Qc World Processed Lyrics) : Prop :=
  keys (cumulative_scores s) = score_names /\
  chunk_count s = n /\
  composite_spec (score_weights s) (cumulative_scores s)
  = (Qc_of_nat n * composite_spec (score_weights s) S)%Qc.

(** ** The 16-bit sample range *)

(** the values of [np.int16] *)
Definition is_int16 (z : Z) : Prop := (-32768 <= z <= 32767)%Z.

(** a boolean property checked on [count] consecutive integers *)
Fixpoint forall_from (P : Z -> bool) (start : Z) (count : nat) : bool :=
  match count with
  | O => true
  | S c => P start && forall_from P (start + 1) c
  end.

(** a boolean property checked on every 16-bit value *)
Definition forall_int16 (P : Z -> bool) : bool :=
  forall_from P (-32768) (Z.to_nat 65536).

(** line 73 on one sample: [x / np.iinfo(np.int16).max] in float32 *)
Definition scale_sample (z : Z) : spec_float :=
  B32.div (B32.of_Z z) (B32.of_Z int16_max).


(** the least value a scaled sample takes, [-32768 / 32767] in float32 *)
Definition scaled_min : spec_float := scale_sample (-32768).

(** a float that is neither NaN nor negative *)
Definition nonneg_float (x : spec_float) : bool :=
  match x with
  | S754_nan => false
  | S754_zero _ => true
  | S754_infinity s | S754_finite s _ _ => negb s
  end.

(** what is checked on every 16-bit value [z]: the float32 of [z] and the
    scaled sample are finite, the scaled sample lies between [scaled_min]
    and 1.0, and [abs(z) > 1] in float32 is [|z| > 1] *)
Definition int16_sample_check (z : Z) : bool :=
  let x := B32.of_Z z in
  let y := B32.div x (B32.of_Z int16_max) in
  B32.isfinite x && B32.isfinite y &&
  fl_leb scaled_min y && fl_leb y (B32.of_Z 1) &&
  Bool.eqb (B32.ltb (B32.of_Z 1) (B32.abs x)) (1 <? Z.abs z)%Z.

(** ** Sessions with one ScoreVector per chunk *)

(** a chunk sequence, each chunk with the ScoreVector it yields *)
Inductive yields_each {F : Type} {SF : Scalar F} {World Processed Lyrics : Type}
    (collab : @Collaborators F World Processed Lyrics)
  : list (Buffer * dict F) -> @Pipeline F World Processed Lyrics -> Prop :=
| yields_each_nil : forall self, yields_each collab [] self
| yields_each_cons : forall c scores rest self s1,
    chunk_scores collab c self = (Ok scores, s1) ->
    yields_each collab rest (snd (process_and_score collab c self)) ->
    yields_each collab ((c, scores) :: rest) self.

(** the sum of the composite scores of a list of ScoreVectors, exactly *)
Definition sum_of_composites (weights : dict Qc) (vectors : list (dict Qc)) : Qc :=
  fold_right (fun scores acc => Qcplus (composite_spec weights scores) acc)
             (Q2Qc 0) vectors.

(** the running averages a list of results holds are all NaN *)
Definition averages_are_nan
    (results : list (result (spec_float * spec_float * option string))) : Prop :=
  Forall (fun r => match r with
                   | Ok (_, average, _) => average = S754_nan
                   | Raise _ => True
                   end) results.

(** A second test double: the segment provider counts the segments it hands
    out, and the scorer answers [score_of n] for the [n]-th chunk. *)
Definition sequence_stub {F : Type} (segment : Buffer * Buffer)
    (score_of : nat -> dict F) : @Collaborators F nat unit unit :=
  {| align_audio := fun _ n => (Ok tt, n);
     get_next_segment := fun _ n => (Ok segment, S n);
     get_lyrics := fun n => (Ok tt, n);
     preprocess_audio := fun _ _ _ _ n => (Ok tt, n);
     process_audio_chunk := fun _ _ _ _ n => (Ok (score_of n), n) |}.

(** 1/2 on pitch for the first chunk, 1 on pitch for the second, 1/4 on
    rhythm afterwards *)
Definition three_vectors (n : nat) : dict Qc :=
  match n with
  | 1 => [("pitch_score", Q2Qc (1 # 2))]
  | 2 => [("pitch_score", Q2Qc 1)]
  | _ => [("rhythm_score", Q2Qc (1 # 4))]
  end.

(* ================================================================== *)
(** * Properties *)

(** ** The classes of numbers *)

#[export] Instance ScalarTyping_float : ScalarTyping spec_float.
Proof. split; reflexivity. Qed.

#[export] Instance ScalarTyping_number : ScalarTyping number.
Proof.
  split; [reflexivity| |]; intros [x|x] [y|y]; reflexivity.
Qed.

#[export] Instance ScalarTyping_Qc : ScalarTyping Qc.
Proof. split; reflexivity. Qed.

(** ** Dicts *)

Section DictFacts.
Variable V : Type.
Implicit Types (d : dict V) (k : string).

Lemma dict_get_In_keys d k v : dict_get d k = Some v -> In k (keys d).
Proof.
  induction d as [|[k' v'] d IH]; simpl; [discriminate|].
  destruct (String.eqb k k') eqn:E.
  - apply String.eqb_eq in E. auto.
  - auto.
Qed.

Lemma dict_get_In_pair d k v : dict_get d k = Some v -> In (k, v) d.
Proof.
  induction d as [|[k' v'] d IH]; simpl; [discriminate|].
  destruct (String.eqb k k') eqn:E.
  - apply String.eqb_eq in E. intros H. inversion H; subst. auto.
  - auto.
Qed.

Lemma dict_get_None_iff d k : dict_get d k = None <-> ~ In k (keys d).
Proof.
  induction d as [|[k' v'] d IH]; simpl.
  - tauto.
  - destruct (String.eqb k k') eqn:E.
    + apply String.eqb_eq in E. split; [discriminate | intros H; exfalso; auto].
    + apply String.eqb_neq in E. rewrite IH. split; intros H.
      * intros [H1|H1]; [congruence | auto].
      * auto.
Qed.

Lemma dict_get_Some_of_In d k : In k (keys d) -> exists v, dict_get d k = Some v.
Proof.
  intros H. destruct (dict_get d k) as [v|] eqn:E; [eauto|].
  apply dict_get_None_iff in E. contradiction.
Qed.

Lemma keys_dict_setitem d k v :
  In k (keys d) -> keys (dict_setitem d k v) = keys d.
Proof.
  induction d as [|[k' v'] d IH]; simpl; [tauto|].
  intros H. destruct (String.eqb k k') eqn:E; simpl; [reflexivity|].
  f_equal. apply IH. destruct H as [H|H]; [|assumption].
  apply String.eqb_neq in E. congruence.
Qed.
End DictFacts.

(** ** The monad *)

Section MonadFacts.
Context {F : Type} {SF : Scalar F}.
Variables World Processed Lyrics : Type.
Local Abbreviation Pipeline := (@Pipeline F World Processed Lyrics).
Local Abbreviation M := (@M F World Processed Lyrics).

(** A relation between [self] before and after that every step of a method
    respects is respected by the method. *)
Lemma bind_respects (R : Pipeline -> Pipeline -> Prop) {A B}
    (m : M A) (k : A -> M B) :
  (forall x y z, R x y -> R y z -> R x z) ->
  (forall self, R self (snd (m self))) ->
  (forall a self, R self (snd (k a self))) ->
  forall self, R self (snd (bind m k self)).
Proof.
  intros Htrans Hm Hk self. unfold bind.
  specialize (Hm self). destruct (m self) as [[a|e] self']; simpl in *.
  - eapply Htrans; [exact Hm | apply Hk].
  - exact Hm.
Qed.
End MonadFacts.

(** ** C1: the composite score *)

Section CompositeFacts.
Context {F : Type} {SF : Scalar F}.
Variables World Processed Lyrics : Type.
Local Abbreviation Pipeline := (@Pipeline F World Processed Lyrics).

Lemma weighted_loop_terms (weights scores : dict F) (acc : F) :
  fold_left
    (fun weighted_score (item : string * F) =>
       let (score_type, score_value) := item in
       match dict_get weights score_type with
       | None => weighted_score
       | Some weight => sc_add weighted_score (sc_mul score_value weight)
       end) scores acc
  = fold_left sc_add (weighted_terms weights scores) acc.
Proof.
  revert acc. induction scores as [|[k v] scores IH]; intros acc; simpl.
  - reflexivity.
  - rewrite fold_left_app. simpl.
    destruct (dict_get weights k); simpl; apply IH.
Qed.

Lemma weighted_score_composite_spec (self : Pipeline) (scores : dict F) :
  _calculate_weighted_score self scores
  = composite_spec (score_weights self) scores.
Proof. apply weighted_loop_terms. Qed.
End CompositeFacts.

(** C1.  For every ScoreVector the weighted-score computation returns the sum,
    over the score names of the ScoreVector, of value times weight, where a
    name without an entry in ScoreWeights is skipped and contributes nothing;
    and with weights [{"a": 0.5}] the ScoreVector [{"a": 1.0, "b": b}] has
    composite 0.5 whatever [b] is. *)
Theorem composite_score_is_weighted_sum_of_weighted_names :
  (forall (F : Type) (SF : Scalar F) (World Processed Lyrics : Type)
          (self : @Pipeline F World Processed Lyrics) (scores : dict F),
      _calculate_weighted_score self scores
      = composite_spec (score_weights self) scores)
  /\
  (forall (World Processed Lyrics : Type) sr0 config0 pipelines0 (w : World)
          cum n done (evs : list (@Event spec_float Processed Lyrics))
          (b : spec_float),
      _calculate_weighted_score
        {| sr := sr0; config := config0; pipelines := pipelines0;
           score_weights := [("a", B64.dec 1 2)]; world := w;
           cumulative_scores := cum; chunk_count := n; initialized := done;
           events := evs |}
        [("a", B64.of_Z 1); ("b", b)]
      = B64.dec 1 2).
Proof.
  split.
  - intros. apply weighted_score_composite_spec.
  - intros. reflexivity.
Qed.

(** ** C3: feedback selection *)

Section FeedbackFacts.
Context {F : Type} {SF : Scalar F}.

Lemma feedback_loop_skips (pre rest : dict FeedbackMessages) (scores : dict F) :
  (forall k, In k (keys pre) -> dict_get scores k = None) ->
  feedback_loop (pre ++ rest) scores = feedback_loop rest scores.
Proof.
  induction pre as [|[k m] pre IH]; simpl; intros H.
  - reflexivity.
  - rewrite (H k (or_introl eq_refl)). apply IH. intros k' Hk'. apply H. auto.
Qed.

Lemma feedback_loop_first (pre post : dict FeedbackMessages) name msgs
    (scores : dict F) v :
  (forall k, In k (keys pre) -> dict_get scores k = None) ->
  dict_get scores name = Some v ->
  feedback_loop (pre ++ (name, msgs) :: post) scores
  = Some (if sc_ge_0_8 v then high msgs else low msgs).
Proof.
  intros Hpre Hv. rewrite feedback_loop_skips by assumption.
  simpl. rewrite Hv. reflexivity.
Qed.

Lemma feedback_loop_none (catalog : dict FeedbackMessages) (scores : dict F) :
  (forall k, In k (keys catalog) -> dict_get scores k = None) ->
  feedback_loop catalog scores = None.
Proof.
  intros H. rewrite <- (app_nil_r catalog).
  rewrite feedback_loop_skips by assumption. reflexivity.
Qed.
End FeedbackFacts.

(** C3.  Feedback selection walks the FeedbackCatalog in its order.  For the
    first catalog name that the ScoreVector holds (every name before it is
    absent from the ScoreVector) it returns that name's "high" message when
    the value is [>= 0.8] and its "low" message otherwise, whatever follows
    in the catalog; when no catalog name is in the ScoreVector, and so for an
    empty catalog, it returns nothing.  For Python floats 0.8 itself is
    "high" and the float just below 0.8 is "low". *)
Theorem feedback_is_first_catalog_name_present :
  (forall (F : Type) (SF : Scalar F) (World Processed Lyrics : Type)
          (self : @Pipeline F World Processed Lyrics) (scores : dict F)
          pre name msgs post v,
      FEEDBACK_MESSAGES (config self) = pre ++ (name, msgs) :: post ->
      (forall k, In k (keys pre) -> dict_get scores k = None) ->
      dict_get scores name = Some v ->
      _generate_feedback self scores
      = Some (if sc_ge_0_8 v then high msgs else low msgs))
  /\
  (forall (F : Type) (SF : Scalar F) (World Processed Lyrics : Type)
          (self : @Pipeline F World Processed Lyrics) (scores : dict F),
      (forall k, In k (keys (FEEDBACK_MESSAGES (config self))) ->
                 dict_get scores k = None) ->
      _generate_feedback self scores = None)
  /\
  (sc_ge_0_8 (B64.dec 8 10) = true
   /\ sc_ge_0_8 (B64.pred (B64.dec 8 10)) = false).
Proof.
  split; [|split].
  - intros F SF W P L self scores pre name msgs post v Hcat Hpre Hv.
    unfold _generate_feedback. rewrite Hcat.
    now apply feedback_loop_first.
  - intros F SF W P L self scores H.
    unfold _generate_feedback. now apply feedback_loop_none.
  - split; vm_compute; reflexivity.
Qed.

(** ** What the paragraphs of [process_and_score] leave alone *)

Section Frames.
Context {F : Type} {SF : Scalar F}.
Variables World Processed Lyrics : Type.
Variable collab : @Collaborators F World Processed Lyrics.
Local Abbreviation Pipeline := (@Pipeline F World Processed Lyrics).
Local Abbreviation M := (@M F World Processed Lyrics).
Local Abbreviation Request := (@Request Processed Lyrics).
Local Abbreviation Event := (@Event F Processed Lyrics).

Lemma untouched_refl (s : Pipeline) : untouched s s.
Proof. unfold untouched. tauto. Qed.

Lemma untouched_trans (x y z : Pipeline) :
  untouched x y -> untouched y z -> untouched x z.
Proof. unfold untouched. intuition congruence. Qed.

Lemma align_calls_record_event (ev : Event) (s : Pipeline) :
  align_calls (record_event ev s)
  = align_calls s ++ (if is_align ev then [ev] else []).
Proof.
  unfold align_calls. simpl. rewrite filter_app. simpl.
  destruct (is_align ev); reflexivity.
Qed.

(** a call of a method other than the alignment, whether it returns or
    raises *)
Lemma call_untouched (q : Request) :
  (forall answer, is_align (@EvCall F _ _ q answer) = false) ->
  forall s : Pipeline, untouched s (snd (call collab q s)).
Proof.
  intros Hq s. unfold call. destruct (perform collab q (world s)) as [a w].
  simpl. pose proof (align_calls_record_event (EvCall q a) s) as H.
  rewrite Hq, app_nil_r in H.
  unfold untouched, align_calls in *. simpl in *. tauto.
Qed.

Lemma logging_untouched (ev : Event) :
  is_align ev = false -> forall s : Pipeline, untouched s (snd (logging ev s)).
Proof.
  intros Hev s. unfold logging, modify. simpl.
  pose proof (align_calls_record_event ev s) as H.
  rewrite Hev, app_nil_r in H.
  unfold untouched, align_calls in *. simpl in *. tauto.
Qed.

Lemma bind_untouched {A B} (m : M A) (k : A -> M B) :
  (forall s, untouched s (snd (m s))) ->
  (forall a s, untouched s (snd (k a s))) ->
  forall s, untouched s (snd (bind m k s)).
Proof. apply bind_respects. exact untouched_trans. Qed.

Create HintDb untouched.

Ltac untouched_steps :=
  repeat first
    [ intros ?; apply untouched_refl
    | intros ?; solve [auto 2 with untouched nocore]
    | match goal with
      | |- forall s, untouched s (snd (call _ ?q s)) =>
          apply (call_untouched q); intros ?; reflexivity
      end
    | apply logging_untouched; reflexivity
    | apply bind_untouched; [|intros ?] ].

Lemma normalize_chunk_untouched c (s : Pipeline) : untouched s (snd (normalize_chunk c s)).
Proof. destruct c; apply untouched_refl. Qed.

Lemma sanitize_chunk_untouched a (s : Pipeline) : untouched s (snd (sanitize_chunk a s)).
Proof.
  revert s. unfold sanitize_chunk. destruct (negb (all_isfinite a)).
  - untouched_steps.
  - intros s. apply untouched_refl.
Qed.

Lemma fetch_reference_untouched a (s : Pipeline) :
  untouched s (snd (fetch_reference collab a s)).
Proof. revert s. unfold fetch_reference. untouched_steps. Qed.

Lemma preprocess_loop_untouched items audio t reference_audio (s : Pipeline) :
  untouched s (snd (preprocess_loop collab items audio t reference_audio s)).
Proof.
  revert s. induction items as [|[k p] items IH]; simpl.
  - intros s. apply untouched_refl.
  - untouched_steps.
Qed.

#[local] Hint Resolve preprocess_loop_untouched : untouched.

Lemma _preprocess_audio_untouched audio t reference_audio (s : Pipeline) :
  untouched s (snd (_preprocess_audio collab audio t reference_audio s)).
Proof. revert s. unfold _preprocess_audio. untouched_steps. Qed.

Lemma _compute_scores_untouched pc po (s : Pipeline) :
  untouched s (snd (_compute_scores collab pc po s)).
Proof. revert s. unfold _compute_scores. untouched_steps. Qed.

#[local] Hint Resolve _preprocess_audio_untouched _compute_scores_untouched
  : untouched.

Lemma score_chunk_untouched a o r (s : Pipeline) :
  untouched s (snd (score_chunk collab a o r s)).
Proof. revert s. unfold score_chunk. untouched_steps. Qed.

(** everything of [chunk_scores] after the alignment paragraph *)
Lemma after_alignment_untouched c (s : Pipeline) :
  untouched s
    (snd ((a <- normalize_chunk c ;;
           a' <- sanitize_chunk a ;;
           refs <- fetch_reference collab a' ;;
           score_chunk collab a' (fst refs) (snd refs))%M s)).
Proof.
  revert s.
  pose proof normalize_chunk_untouched.
  pose proof sanitize_chunk_untouched.
  pose proof fetch_reference_untouched.
  pose proof score_chunk_untouched.
  untouched_steps.
Qed.

(** *** The alignment paragraph *)

(** [align_once], case by case: nothing when the flag is up; otherwise the
    alignment is called with the chunk, and the flag goes up if and only if
    the call returns. *)
Lemma align_once_eq c (s : Pipeline) :
  align_once collab c s
  = if initialized s then (Ok tt, s)
    else
      let answer := fst (align_audio collab c (world s)) in
      let s1 := set_world (snd (align_audio collab c (world s)))
                  (record_event (EvCall (AlignAudio c) answer) s) in
      match answer with
      | Ok _ => (Ok tt, set_initialized true s1)
      | Raise e => (Raise e, s1)
      end.
Proof.
  unfold align_once, bind, gets, call, modify, ret. simpl.
  destruct (initialized s); simpl; [reflexivity|].
  destruct (align_audio collab c (world s)) as [[[]|e] w]; reflexivity.
Qed.

Lemma align_once_effect c (s : Pipeline) :
  let s' := snd (align_once collab c s) in
  let r := fst (align_once collab c s) in
  r = (if initialized s then Ok tt else fst (align_audio collab c (world s))) /\
  initialized s' = (initialized s || is_ok r) /\
  align_calls s'
  = align_calls s ++
    (if initialized s then []
     else [EvCall (AlignAudio c) (fst (align_audio collab c (world s)))]) /\
  sr s' = sr s /\ config s' = config s /\ pipelines s' = pipelines s /\
  score_weights s' = score_weights s /\
  cumulative_scores s' = cumulative_scores s /\
  chunk_count s' = chunk_count s.
Proof.
  cbv zeta. rewrite align_once_eq.
  destruct (initialized s) eqn:E; simpl.
  - rewrite app_nil_r, E. tauto.
  - destruct (align_audio collab c (world s)) as [[[]|e] w]; simpl;
      unfold align_calls; simpl; rewrite filter_app; simpl; rewrite ?E; tauto.
Qed.

(** a call whose alignment raises does nothing else *)
Lemma chunk_scores_alignment_raises c (s : Pipeline) e :
  initialized s = false ->
  fst (align_audio collab c (world s)) = Raise e ->
  chunk_scores collab c s
  = (Raise e,
     set_world (snd (align_audio collab c (world s)))
       (record_event (EvCall (AlignAudio c) (Raise e)) s)).
Proof.
  intros Hi Ha. unfold chunk_scores. unfold bind at 1.
  rewrite align_once_eq, Hi. cbv zeta. rewrite Ha. reflexivity.
Qed.

Lemma chunk_scores_effect c (s : Pipeline) r s' :
  chunk_scores collab c s = (r, s') ->
  initialized s' = (initialized s || is_ok (fst (align_once collab c s))) /\
  align_calls s'
  = align_calls s ++
    (if initialized s then []
     else [EvCall (AlignAudio c) (fst (align_audio collab c (world s)))]) /\
  sr s' = sr s /\ config s' = config s /\ pipelines s' = pipelines s /\
  score_weights s' = score_weights s /\
  cumulative_scores s' = cumulative_scores s /\
  chunk_count s' = chunk_count s /\
  (is_ok r = true -> initialized s' = true).
Proof.
  pose proof (align_once_effect c s) as H. cbv zeta in H.
  unfold chunk_scores. unfold bind at 1.
  destruct (align_once collab c s) as [[[]|e] s1]; simpl in H;
    destruct H as (Hr & Hi & H).
  - intros Heq. pose proof (after_alignment_untouched c s1) as U.
    rewrite Heq in U. simpl in U. unfold untouched in U.
    assert (Hs' : initialized s' = true).
    { destruct U as (_ & _ & _ & _ & _ & _ & U & _). rewrite U, Hi.
      apply orb_true_r. }
    rewrite Hs'. rewrite orb_true_r.
    repeat split; try tauto; intuition congruence.
  - intros Heq. inversion Heq; subst. simpl.
    repeat split; try tauto; try discriminate.
Qed.

(** *** The accumulation loop *)

Lemma accumulate_frame (items : dict F) (s : Pipeline) :
  let s' := snd (accumulate items s) in
  sr s' = sr s /\ config s' = config s /\ pipelines s' = pipelines s /\
  score_weights s' = score_weights s /\ world s' = world s /\
  chunk_count s' = chunk_count s /\ initialized s' = initialized s /\
  events s' = events s /\
  keys (cumulative_scores s') = keys (cumulative_scores s).
Proof.
  revert s. induction items as [|[k v] items IH]; intros s; simpl.
  - tauto.
  - unfold bind, gets, lift, modify, dict_getitem. simpl.
    destruct (dict_get (cumulative_scores s) k) as [old|] eqn:E; simpl.
    + match goal with |- context [accumulate items ?t] => specialize (IH t) end.
      simpl in IH.
      rewrite keys_dict_setitem in IH by (eapply dict_get_In_keys; eauto).
      exact IH.
    + tauto.
Qed.

Lemma accumulate_ok (items : dict F) (s : Pipeline) :
  (forall k, In k (keys items) -> In k (keys (cumulative_scores s))) ->
  fst (accumulate items s) = Ok tt.
Proof.
  revert s. induction items as [|[k v] items IH]; intros s H; simpl.
  - reflexivity.
  - unfold bind, gets, lift, modify, dict_getitem. simpl.
    destruct (dict_get_Some_of_In (cumulative_scores s) k) as [old E].
    { apply H. simpl. auto. }
    rewrite E. simpl. apply IH. simpl.
    rewrite keys_dict_setitem by (eapply dict_get_In_keys; eauto).
    intros k' Hk'. apply H. simpl. auto.
Qed.

(** the first name that [cumulative_scores] does not hold stops the loop *)
Lemma accumulate_raises (pre post : dict F) k v (s : Pipeline) :
  (forall k', In k' (keys pre) -> In k' (keys (cumulative_scores s))) ->
  ~ In k (keys (cumulative_scores s)) ->
  fst (accumulate (pre ++ (k, v) :: post) s) = Raise (KeyError k).
Proof.
  revert s. induction pre as [|[k0 v0] pre IH]; intros s Hpre Hk; simpl.
  - unfold bind, gets, lift, dict_getitem. simpl.
    apply dict_get_None_iff in Hk. rewrite Hk. reflexivity.
  - unfold bind, gets, lift, modify, dict_getitem. simpl.
    destruct (dict_get_Some_of_In (cumulative_scores s) k0) as [old E].
    { apply Hpre. simpl. auto. }
    rewrite E. simpl. apply IH; simpl;
      rewrite keys_dict_setitem by (eapply dict_get_In_keys; eauto).
    + intros k' Hk'. apply Hpre. simpl. auto.
    + exact Hk.
Qed.

(** a list of names with one outside [known] splits at the first such name *)
Lemma first_unknown_name (items : dict F) (known : list string) :
  (exists k, In k (keys items) /\ ~ In k known) ->
  exists pre k v post,
    items = pre ++ (k, v) :: post /\
    (forall k', In k' (keys pre) -> In k' known) /\ ~ In k known.
Proof.
  induction items as [|[k0 v0] items IH]; intros (k & Hin & Hout); simpl in *.
  - contradiction.
  - destruct (in_dec string_dec k0 known) as [Hk0|Hk0].
    + destruct IH as (pre & k1 & v1 & post & -> & Hpre & Hk1).
      { exists k. split; [|assumption].
        destruct Hin as [<-|Hin]; [contradiction|assumption]. }
      exists ((k0, v0) :: pre), k1, v1, post. simpl. split; [reflexivity|].
      split; [|assumption]. intros k' [<-|Hk']; auto.
    + exists [], k0, v0, items. simpl. tauto.
Qed.

(** *** [aggregate], one case per outcome of the accumulation *)

Lemma aggregate_unfold (scores : dict F) (s : Pipeline) :
  aggregate scores s
  = match accumulate scores s with
    | (Ok _, s1) =>
        let s2 := set_chunk_count (chunk_count s1 + 1) s1 in
        (Ok (_calculate_weighted_score s scores,
             sc_div_count (_calculate_weighted_score s2 (cumulative_scores s2))
                          (chunk_count s1 + 1),
             _generate_feedback s scores), s2)
    | (Raise e, s1) => (Raise e, s1)
    end.
Proof.
  unfold aggregate, bind, gets, modify, lift, ret. simpl.
  destruct (accumulate scores s) as [[[]|e] s1]; simpl; [|reflexivity].
  rewrite Nat.add_1_r. reflexivity.
Qed.

(** what one call does to the state, whatever it returns *)
Lemma process_and_score_effect c (s : Pipeline) r s' :
  process_and_score collab c s = (r, s') ->
  sr s' = sr s /\ config s' = config s /\ pipelines s' = pipelines s /\
  score_weights s' = score_weights s /\
  keys (cumulative_scores s') = keys (cumulative_scores s) /\
  chunk_count s' = chunk_count s + (if is_ok r then 1 else 0) /\
  initialized s' = (initialized s || is_ok (fst (align_once collab c s))) /\
  align_calls s'
  = align_calls s ++
    (if initialized s then []
     else [EvCall (AlignAudio c) (fst (align_audio collab c (world s)))]).
Proof.
  unfold process_and_score, bind.
  destruct (chunk_scores collab c s) as [[scores|e] s1] eqn:E;
    apply chunk_scores_effect in E;
    destruct E as (E1 & E2 & E3 & E4 & E5 & E6 & E7 & E8 & E9).
  - rewrite aggregate_unfold.
    pose proof (accumulate_frame scores s1) as A. simpl in A.
    destruct (accumulate scores s1) as [[[]|e] s2]; simpl in A;
      destruct A as (A1 & A2 & A3 & A4 & A5 & A6 & A7 & A8 & A9);
      intros Heq; inversion Heq; subst; clear Heq;
      unfold align_calls in *; simpl;
      repeat split; try congruence; lia.
  - intros Heq; inversion Heq; subst; clear Heq. simpl.
    repeat split; try congruence; lia.
Qed.

Lemma process_and_score_alignment_raises c (s : Pipeline) e :
  initialized s = false ->
  fst (align_audio collab c (world s)) = Raise e ->
  process_and_score collab c s
  = (Raise e,
     set_world (snd (align_audio collab c (world s)))
       (record_event (EvCall (AlignAudio c) (Raise e)) s)).
Proof.
  intros Hi Ha. unfold process_and_score, bind.
  rewrite (chunk_scores_alignment_raises c s Hi Ha). reflexivity.
Qed.

End Frames.

(** ** Sessions *)

Section SessionFacts.
Context {F : Type} {SF : Scalar F}.
Variables World Processed Lyrics : Type.
Variable collab : @Collaborators F World Processed Lyrics.
Local Abbreviation Pipeline := (@Pipeline F World Processed Lyrics).

Lemma init_state (w : World) sr0 weights pipes cfg :
  let s := __init__ Processed Lyrics w sr0 weights pipes cfg in
  keys (cumulative_scores s) = score_names /\ chunk_count s = 0 /\
  initialized s = false /\ align_calls s = [] /\ score_weights s = weights /\
  config s = cfg /\ world s = w.
Proof. simpl. unfold align_calls. simpl. tauto. Qed.

Lemma count_ok_cons {A} (r : result A) rs :
  count_ok (r :: rs) = (if is_ok r then 1 else 0) + count_ok rs.
Proof. unfold count_ok. simpl. destruct (is_ok r); reflexivity. Qed.

(** The counter counts the calls that returned, the keys of the statistics
    never change, and the alignment is called in each call until it has
    returned once. *)
Lemma session_effect chunks (s : Pipeline) rs s' :
  session collab chunks s = (rs, s') ->
  score_weights s' = score_weights s /\ config s' = config s /\
  keys (cumulative_scores s') = keys (cumulative_scores s) /\
  chunk_count s' = chunk_count s + count_ok rs /\
  List.length rs = List.length chunks /\
  align_calls s'
  = align_calls s ++
    (if initialized s then [] else alignment_attempts collab chunks (world s)) /\
  (initialized s = true -> initialized s' = true).
Proof.
  revert s rs s'. induction chunks as [|c chunks IH]; intros s rs s'; simpl.
  - intros H. inversion H; subst. unfold count_ok. simpl.
    destruct (initialized s'); rewrite app_nil_r; repeat split; lia.
  - destruct (process_and_score collab c s) as [r s1] eqn:E1.
    destruct (session collab chunks s1) as [rs1 s2] eqn:E2.
    intros H. inversion H; subst; clear H.
    pose proof E1 as E1'.
    apply process_and_score_effect in E1.
    destruct E1 as (P1 & P2 & P3 & P4 & P5 & P6 & P7 & P8).
    destruct (IH _ _ _ E2) as (Q1 & Q2 & Q3 & Q4 & Q5 & Q6 & Q7).
    rewrite count_ok_cons. simpl.
    repeat split; try congruence; try lia.
    + rewrite Q6, P8, P7.
      destruct (initialized s) eqn:Hi; simpl.
      * rewrite !app_nil_r. reflexivity.
      * pose proof (align_once_eq collab c s) as A. rewrite Hi in A.
        cbv zeta in A.
        destruct (align_audio collab c (world s)) as [[[]|e] w1] eqn:Ha;
          simpl in *.
        -- rewrite A. simpl. rewrite app_nil_r. reflexivity.
        -- rewrite A. simpl.
           rewrite (process_and_score_alignment_raises collab c s Hi) in E1'
             by (rewrite Ha; reflexivity).
           rewrite Ha in E1'. simpl in E1'. inversion E1'; subst. simpl.
           rewrite <- app_assoc. reflexivity.
    + intros Hi. apply Q7. rewrite P7, Hi. reflexivity.
Qed.

Lemma average_loop_ok (items : dict F) n :
  average_loop items (S n)
  = Ok (map (fun item => (fst item, sc_div_count (snd item) (S n))) items).
Proof.
  induction items as [|[k v] items IH]; simpl.
  - reflexivity.
  - rewrite IH. reflexivity.
Qed.


Lemma dict_get_map_values {A B} (f : A -> B) (d : dict A) k :
  dict_get (map (fun item => (fst item, f (snd item))) d) k
  = option_map f (dict_get d k).
Proof.
  induction d as [|[k' v] d IH]; simpl; [reflexivity|].
  destruct (String.eqb k k'); [reflexivity | exact IH].
Qed.

End SessionFacts.

(** ** Python numbers and numpy scalars *)

Section NumberClasses.
Context {F : Type} {SF : Scalar F} {ST : ScalarTyping F}.
Variables World Processed Lyrics : Type.
Variable collab : @Collaborators F World Processed Lyrics.
Local Abbreviation Pipeline := (@Pipeline F World Processed Lyrics).
Local Abbreviation M := (@M F World Processed Lyrics).

Lemma bind_ok_inv {A B} (m : M A) (k : A -> M B) (s s' : Pipeline) b :
  bind m k s = (Ok b, s') ->
  exists a s1, m s = (Ok a, s1) /\ k a s1 = (Ok b, s').
Proof.
  unfold bind. destruct (m s) as [[a|e] s1]; [|discriminate].
  intros H. exists a, s1. auto.
Qed.


Lemma python_numbers_tail k v (d : dict F) :
  python_numbers ((k, v) :: d) -> python_numbers d.
Proof. intros H k' v' Hin. apply (H k' v'). right. exact Hin. Qed.



Lemma weighted_loop_python (W scores : dict F) (acc : F) :
  python_numbers W -> python_numbers scores -> sc_numpy acc = false ->
  sc_numpy
    (fold_left
       (fun weighted_score (item : string * F) =>
          let (score_type, score_value) := item in
          match dict_get W score_type with
          | None => weighted_score
          | Some weight => sc_add weighted_score (sc_mul score_value weight)
          end) scores acc) = false.
Proof.
  intros HW. revert acc.
  induction scores as [|[k v] scores IH]; intros acc Hs Hacc; simpl.
  - exact Hacc.
  - apply IH; [exact (python_numbers_tail Hs)|].
    destruct (dict_get W k) as [weight|] eqn:E; [|exact Hacc].
    rewrite numpy_add, numpy_mul, Hacc, (Hs k v (or_introl eq_refl)),
      (HW k weight (dict_get_In_pair _ _ E)).
    reflexivity.
Qed.

Lemma weighted_score_python (self : Pipeline) (scores : dict F) :
  python_numbers (score_weights self) -> python_numbers scores ->
  sc_numpy (_calculate_weighted_score self scores) = false.
Proof.
  intros HW Hs. apply weighted_loop_python; [exact HW|exact Hs|].
  apply numpy_zero.
Qed.




End NumberClasses.

(** ** The history of events only grows *)

Section Growth.
Context {F : Type} {SF : Scalar F}.
Variables World Processed Lyrics : Type.
Variable collab : @Collaborators F World Processed Lyrics.
Local Abbreviation Pipeline := (@Pipeline F World Processed Lyrics).
Local Abbreviation M := (@M F World Processed Lyrics).
Local Abbreviation Request := (@Request Processed Lyrics).
Local Abbreviation Event := (@Event F Processed Lyrics).

Lemma grows_refl (s : Pipeline) : grows s s.
Proof. exists []. rewrite app_nil_r. reflexivity. Qed.

Lemma grows_trans (x y z : Pipeline) : grows x y -> grows y z -> grows x z.
Proof.
  intros [l1 H1] [l2 H2]. exists (l1 ++ l2). rewrite H2, H1, app_assoc.
  reflexivity.
Qed.

Lemma call_grows (q : Request) (s : Pipeline) : grows s (snd (call collab q s)).
Proof.
  unfold call. destruct (perform collab q (world s)) as [a w]. simpl.
  eexists. reflexivity.
Qed.

Lemma logging_grows (ev : Event) (s : Pipeline) : grows s (snd (logging ev s)).
Proof. eexists. reflexivity. Qed.

Lemma bind_grows {A B} (m : M A) (k : A -> M B) :
  (forall s, grows s (snd (m s))) ->
  (forall a s, grows s (snd (k a s))) ->
  forall s, grows s (snd (bind m k s)).
Proof. apply bind_respects. exact grows_trans. Qed.

Create HintDb grows.

Ltac grows_steps :=
  repeat first
    [ intros ?; apply grows_refl
    | intros ?; solve [auto 2 with grows nocore]
    | match goal with
      | |- forall s, grows s (snd (call _ ?q s)) =>
          intros ?; apply (call_grows q)
      end
    | intros ?; apply logging_grows
    | apply bind_grows; [|intros ?] ].

Lemma normalize_chunk_grows c (s : Pipeline) : grows s (snd (normalize_chunk c s)).
Proof. destruct c; apply grows_refl. Qed.

Lemma sanitize_chunk_grows a (s : Pipeline) : grows s (snd (sanitize_chunk a s)).
Proof.
  revert s. unfold sanitize_chunk. destruct (negb (all_isfinite a)).
  - grows_steps.
  - intros s. apply grows_refl.
Qed.

Lemma fetch_reference_grows a (s : Pipeline) :
  grows s (snd (fetch_reference collab a s)).
Proof. revert s. unfold fetch_reference. grows_steps. Qed.

Lemma preprocess_loop_grows items audio t reference_audio (s : Pipeline) :
  grows s (snd (preprocess_loop collab items audio t reference_audio s)).
Proof.
  revert s. induction items as [|[k p] items IH]; simpl.
  - intros s. apply grows_refl.
  - grows_steps.
Qed.

#[local] Hint Resolve preprocess_loop_grows : grows.

Lemma _preprocess_audio_grows audio t reference_audio (s : Pipeline) :
  grows s (snd (_preprocess_audio collab audio t reference_audio s)).
Proof. revert s. unfold _preprocess_audio. grows_steps. Qed.

Lemma _compute_scores_grows pc po (s : Pipeline) :
  grows s (snd (_compute_scores collab pc po s)).
Proof. revert s. unfold _compute_scores. grows_steps. Qed.

#[local] Hint Resolve _preprocess_audio_grows _compute_scores_grows : grows.

Lemma score_chunk_grows a o r (s : Pipeline) :
  grows s (snd (score_chunk collab a o r s)).
Proof. revert s. unfold score_chunk. grows_steps. Qed.

Lemma aggregate_grows scores (s : Pipeline) :
  grows s (snd (aggregate scores s)).
Proof.
  rewrite aggregate_unfold.
  pose proof (accumulate_frame scores s) as A. simpl in A.
  destruct (accumulate scores s) as [[[]|e] s1]; simpl in *;
    exists []; rewrite app_nil_r; tauto.
Qed.

(** everything of [process_and_score] after the alignment paragraph *)
Lemma after_alignment_grows c (s : Pipeline) :
  grows s
    (snd ((a <- normalize_chunk c ;;
           a' <- sanitize_chunk a ;;
           refs <- fetch_reference collab a' ;;
           scores <- score_chunk collab a' (fst refs) (snd refs) ;;
           aggregate scores)%M s)).
Proof.
  revert s.
  pose proof normalize_chunk_grows.
  pose proof sanitize_chunk_grows.
  pose proof fetch_reference_grows.
  pose proof score_chunk_grows.
  pose proof aggregate_grows.
  grows_steps.
Qed.

Lemma process_and_score_eq c (s : Pipeline) :
  process_and_score collab c s
  = (align_once collab c ;;
     a <- normalize_chunk c ;;
     a' <- sanitize_chunk a ;;
     refs <- fetch_reference collab a' ;;
     scores <- score_chunk collab a' (fst refs) (snd refs) ;;
     aggregate scores)%M s.
Proof.
  unfold process_and_score, chunk_scores, bind.
  destruct (align_once collab c s) as [[[]|e] s1]; [|reflexivity].
  destruct (normalize_chunk c s1) as [[a|e] s2]; [|reflexivity].
  destruct (sanitize_chunk a s2) as [[a'|e] s3]; [|reflexivity].
  destruct (fetch_reference collab a' s3) as [[refs|e] s4]; reflexivity.
Qed.

(** in a call made with the flag down the alignment comes first *)
Lemma first_call_events c (s : Pipeline) :
  initialized s = false ->
  exists added,
    events (snd (process_and_score collab c s))
    = events s
      ++ EvCall (AlignAudio c) (fst (align_audio collab c (world s))) :: added.
Proof.
  intros Hi. rewrite process_and_score_eq. unfold bind at 1.
  rewrite align_once_eq, Hi. cbv zeta.
  destruct (align_audio collab c (world s)) as [[[]|e] w]; cbn [fst snd].
  - match goal with
    | |- context [bind ?m ?k ?t] =>
        destruct (after_alignment_grows c t) as [added H]
    end.
    exists added. rewrite H. simpl. rewrite <- app_assoc. reflexivity.
  - exists []. reflexivity.
Qed.

End Growth.

(** ** Claims about the state of a session *)

Section SessionClaims.
Context {F : Type} {SF : Scalar F}.
Variables World Processed Lyrics : Type.
Variable collab : @Collaborators F World Processed Lyrics.
Local Abbreviation Pipeline := (@Pipeline F World Processed Lyrics).

(** C5 (amended).  Over every sequence of [process_and_score] calls on a
    newly constructed orchestrator, the alignment of the segment provider is
    called in each call, with that call's chunk and before anything else,
    until one of these calls returns, and never after: the alignment calls
    of the session are those of [alignment_attempts].  When the alignment
    of the first call returns, it is the only one of the session.  When it
    raises, the call raises the same exception having done nothing else,
    the flag stays down, and the alignment is called again in the next
    call. *)
Theorem alignment_is_called_until_it_returns
    (w : World) sr0 weights pipes cfg (c : Buffer) (cs : list Buffer) :
  let self0 := __init__ Processed Lyrics w sr0 weights pipes cfg in
  let s1 := snd (process_and_score collab c self0) in
  (forall chunks,
      align_calls (snd (session collab chunks self0))
      = alignment_attempts collab chunks w)
  /\ (exists added,
        events s1 = EvCall (AlignAudio c) (fst (align_audio collab c w)) :: added)
  /\ (fst (align_audio collab c w) = Ok tt ->
      initialized s1 = true /\
      align_calls (snd (session collab (c :: cs) self0))
      = [EvCall (AlignAudio c) (Ok tt)])
  /\ (forall e,
        fst (align_audio collab c w) = Raise e ->
        fst (process_and_score collab c self0) = Raise e /\
        initialized s1 = false /\
        world s1 = snd (align_audio collab c w) /\
        events s1 = [EvCall (AlignAudio c) (Raise e)] /\
        align_calls (snd (session collab (c :: cs) self0))
        = EvCall (AlignAudio c) (Raise e)
          :: alignment_attempts collab cs (world s1)).
Proof.
  cbv zeta.
  assert (Hall : forall chunks,
             align_calls
               (snd (session collab chunks
                       (__init__ Processed Lyrics w sr0 weights pipes cfg)))
             = alignment_attempts collab chunks w).
  { intros chunks.
    destruct (session collab chunks
                (__init__ Processed Lyrics w sr0 weights pipes cfg))
      as [rs s'] eqn:E.
    apply session_effect in E.
    destruct E as (_ & _ & _ & _ & _ & E & _). simpl in *. exact E. }
  split; [exact Hall|]. split; [|split].
  - destruct (first_call_events collab c
                (__init__ Processed Lyrics w sr0 weights pipes cfg) eq_refl)
      as [added H].
    exists added. exact H.
  - intros Ha. split.
    + destruct (process_and_score collab c
                  (__init__ Processed Lyrics w sr0 weights pipes cfg))
        as [r s1] eqn:E.
      apply process_and_score_effect in E.
      destruct E as (_ & _ & _ & _ & _ & _ & E & _).
      rewrite align_once_eq in E. simpl in E. rewrite Ha in E. exact E.
    + rewrite Hall. simpl.
      destruct (align_audio collab c w) as [a w1]. simpl in Ha. subst a.
      reflexivity.
  - intros e Ha.
    rewrite (process_and_score_alignment_raises collab c
               (__init__ Processed Lyrics w sr0 weights pipes cfg)
               eq_refl Ha).
    repeat split.
    rewrite Hall. simpl.
    destruct (align_audio collab c w) as [a w1]. simpl in Ha. subst a.
    reflexivity.
Qed.


(** C8.  After a session in which [n >= 1] calls returned,
    [get_average_scores] returns, for every score name of the cumulative
    statistics and in their order, that name's cumulative sum divided by
    [n]; no weight takes part.  A name whose sum is [total] is mapped to
    [total / n]. *)
Theorem average_scores_are_sums_over_count
    (w : World) sr0 weights pipes cfg (chunks : list Buffer) :
  let rs := fst (session collab chunks
                   (__init__ Processed Lyrics w sr0 weights pipes cfg)) in
  let self := snd (session collab chunks
                     (__init__ Processed Lyrics w sr0 weights pipes cfg)) in
  let n := count_ok rs in
  1 <= n ->
  exists averages,
    fst (get_average_scores self) = Ok averages /\
    averages = map (fun item => (fst item, sc_div_count (snd item) n))
                   (cumulative_scores self) /\
    keys averages = score_names /\
    (forall name total,
        dict_get (cumulative_scores self) name = Some total ->
        dict_get averages name = Some (sc_div_count total n)).
Proof.
  destruct (session collab chunks
              (__init__ Processed Lyrics w sr0 weights pipes cfg))
    as [rs s'] eqn:E.
  apply session_effect in E.
  destruct E as (_ & _ & K & N & _). simpl in K, N. simpl.
  intros Hn. rewrite <- N.
  unfold get_average_scores, bind, gets, lift. simpl.
  destruct (chunk_count s') as [|n] eqn:En; [lia|].
  rewrite average_loop_ok. eexists. split; [reflexivity|].
  split; [reflexivity|]. split.
  - transitivity (keys (cumulative_scores s')); [|exact K].
    unfold keys. rewrite map_map. reflexivity.
  - intros name total H.
    rewrite (dict_get_map_values (fun v => sc_div_count v (S n))), H.
    reflexivity.
Qed.

(** C9.  [final_score] and [get_average_scores] only read: in every state,
    and so in every state with a positive chunk counter, the state after
    the call is the state before it, with the same cumulative sums, chunk
    counter and alignment flag. *)
Theorem queries_leave_the_state_unchanged (self : Pipeline) :
  snd (final_score self) = self /\ snd (get_average_scores self) = self.
Proof.
  unfold final_score, get_average_scores, bind, gets, lift, ret. simpl.
  split.
  - destruct (py_div _ _); reflexivity.
  - destruct (average_loop (cumulative_scores self) (chunk_count self));
      reflexivity.
Qed.

End SessionClaims.

(** ** C10: the keys of the cumulative statistics *)

Section AccumulationClaims.
Context {F : Type} {SF : Scalar F}.
Variables World Processed Lyrics : Type.
Variable collab : @Collaborators F World Processed Lyrics.
Local Abbreviation Pipeline := (@Pipeline F World Processed Lyrics).

(** C10.  Construction gives the cumulative statistics exactly the five keys
    linguistic_accuracy_score, linguistic_similarity_score, amplitude_score,
    pitch_score, rhythm_score, and no session ever changes that key list.
    A call whose ScoreVector holds a name outside it raises KeyError for the
    first such name: this happens in the accumulation, with everything the
    scoring paragraph did (collaborator state, events) in place, and the
    chunk counter is not incremented. *)
Theorem cumulative_keys_are_fixed_and_unknown_names_raise :
  (forall (w : World) sr0 weights pipes cfg,
      keys (cumulative_scores
              (__init__ Processed Lyrics w sr0 weights pipes cfg))
      = [ "linguistic_accuracy_score"; "linguistic_similarity_score";
          "amplitude_score"; "pitch_score"; "rhythm_score" ])
  /\
  (forall (w : World) sr0 weights pipes cfg (chunks : list Buffer),
      keys (cumulative_scores
              (snd (session collab chunks
                      (__init__ Processed Lyrics w sr0 weights pipes cfg))))
      = score_names)
  /\
  (forall (self : Pipeline) (c : Buffer) (scores : dict F) (s1 : Pipeline),
      keys (cumulative_scores self) = score_names ->
      chunk_scores collab c self = (Ok scores, s1) ->
      (exists k, In k (keys scores) /\ ~ In k score_names) ->
      exists pre k v post,
        scores = pre ++ (k, v) :: post /\
        (forall k', In k' (keys pre) -> In k' score_names) /\
        ~ In k score_names /\
        fst (process_and_score collab c self) = Raise (KeyError k) /\
        let s' := snd (process_and_score collab c self) in
        chunk_count s' = chunk_count self /\
        keys (cumulative_scores s') = score_names /\
        events s' = events s1 /\ world s' = world s1).
Proof.
  split; [|split].
  - intros. reflexivity.
  - intros w sr0 weights pipes cfg chunks.
    destruct (session collab chunks
                (__init__ Processed Lyrics w sr0 weights pipes cfg))
      as [rs s'] eqn:E.
    apply session_effect in E. destruct E as (_ & _ & K & _). exact K.
  - intros self c scores s1 Hkeys Hscores Hout.
    destruct (first_unknown_name scores score_names Hout)
      as (pre & k & v & post & Hsplit & Hpre & Hk).
    exists pre, k, v, post.
    split; [exact Hsplit|]. split; [exact Hpre|]. split; [exact Hk|].
    pose proof (chunk_scores_effect collab c self Hscores)
      as (_ & _ & _ & _ & _ & _ & Hcum & Hcount & _).
    unfold process_and_score, bind. rewrite Hscores, aggregate_unfold.
    pose proof (accumulate_raises pre post k v s1) as R.
    rewrite <- Hsplit, Hcum, Hkeys in R. specialize (R Hpre Hk).
    pose proof (accumulate_frame scores s1) as A. simpl in A.
    destruct (accumulate scores s1) as [[[]|e] s2]; simpl in *;
      [discriminate|].
    destruct A as (_ & _ & _ & _ & A1 & A2 & _ & A3 & A4).
    repeat split; congruence.
Qed.

End AccumulationClaims.

(** ** C4 and C7: what reaches the preprocessing *)

Section ConversionClaims.
Context {F : Type} {SF : Scalar F}.
Variables World Processed Lyrics : Type.
Variable collab : @Collaborators F World Processed Lyrics.
Local Abbreviation Pipeline := (@Pipeline F World Processed Lyrics).
Local Abbreviation M := (@M F World Processed Lyrics).

Lemma bind_assoc {A B C} (m : M A) (f : A -> M B) (g : B -> M C) self :
  bind (bind m f) g self = bind m (fun x => bind (f x) g) self.
Proof. unfold bind. destruct (m self) as [[a|e] s1]; reflexivity. Qed.

Lemma fl_nan_to_num_isfinite fmt x :
  fl_isfinite (fl_nan_to_num fmt x) = true.
Proof. destruct x as [s|[|]| |s m e]; reflexivity. Qed.

Lemma fl_nan_to_num_finite fmt x :
  fl_isfinite x = true -> fl_nan_to_num fmt x = x.
Proof. destruct x as [s|[|]| |s m e]; simpl; congruence. Qed.

Lemma all_isfinite_nan_to_num a : all_isfinite (nan_to_num a) = true.
Proof.
  destruct a as [d|d|d|d]; simpl; [reflexivity|reflexivity| |];
    rewrite forallb_forall; intros x Hx; apply in_map_iff in Hx;
    destruct Hx as (y & <- & _); apply fl_nan_to_num_isfinite.
Qed.

Lemma nan_to_num_finite a : all_isfinite a = true -> nan_to_num a = a.
Proof.
  destruct a as [d|d|d|d]; simpl; [reflexivity|reflexivity| |];
    intros H; f_equal; rewrite forallb_forall in H;
    (rewrite <- (map_id d) at 2; apply map_ext_in; intros x Hx;
     apply fl_nan_to_num_finite; apply H; exact Hx).
Qed.

Lemma sanitize_chunk_eq a (s : Pipeline) :
  sanitize_chunk a s
  = (Ok (nan_to_num a),
     if all_isfinite a then s
     else record_event
            (EvLogError "Audio chunk contains non-finite values!") s).
Proof.
  unfold sanitize_chunk. destruct (all_isfinite a) eqn:E; simpl.
  - rewrite nan_to_num_finite by exact E. reflexivity.
  - reflexivity.
Qed.

(** C4 (amended).  For every array chunk, with or without non-finite
    samples, [process_and_score] goes on with the array [nan_to_num] gives:
    NaN is replaced by zero, plus and minus infinity by the largest and the
    most negative finite value of the sample type, finite samples are kept;
    every sample of that array is finite.  No exception comes from this
    step: once the alignment paragraph has returned, the call is the
    remaining processing (segment fetch, scoring, aggregation) of that
    array, after the log record when a sample was not finite; and an
    exception of the alignment is the only one that can come before. *)
Theorem nonfinite_samples_are_replaced_and_processing_goes_on
    (a : ndarray) (self : Pipeline) :
  let s1 := snd (align_once collab (NdArray a) self) in
  let s2 := if all_isfinite a then s1
            else record_event
                   (EvLogError "Audio chunk contains non-finite values!") s1 in
  process_and_score collab (NdArray a) self
  = match fst (align_once collab (NdArray a) self) with
    | Ok _ =>
        (refs <- fetch_reference collab (nan_to_num a) ;;
         scores <- score_chunk collab (nan_to_num a) (fst refs) (snd refs) ;;
         aggregate scores)%M s2
    | Raise e => (Raise e, s1)
    end
  /\ all_isfinite (nan_to_num a) = true
  /\ (forall d, nan_to_num (Float64Array d)
                = Float64Array (map (fl_nan_to_num binary64) d))
  /\ (forall d, nan_to_num (Float32Array d)
                = Float32Array (map (fl_nan_to_num binary32) d))
  /\ (forall fmt,
        fl_nan_to_num fmt fl_nan = fl_zero /\
        fl_nan_to_num fmt fl_inf = fl_max_float fmt /\
        fl_nan_to_num fmt fl_neg_inf = SFopp (fl_max_float fmt) /\
        forall x, fl_isfinite x = true -> fl_nan_to_num fmt x = x).
Proof.
  split; [|split; [apply all_isfinite_nan_to_num|]].
  - unfold process_and_score, chunk_scores.
    rewrite bind_assoc. unfold bind at 1.
    destruct (align_once collab (NdArray a) self) as [[[]|e] s1];
      [|reflexivity].
    cbn [fst snd]. cbv beta iota.
    rewrite bind_assoc. unfold bind at 1. simpl normalize_chunk.
    unfold ret at 1. cbv beta iota.
    rewrite bind_assoc. unfold bind at 1. rewrite sanitize_chunk_eq.
    cbv beta iota. rewrite bind_assoc. reflexivity.
  - repeat split; try reflexivity.
    intros x Hx. now apply fl_nan_to_num_finite.
Qed.

Lemma fetch_reference_eq a (s : Pipeline) :
  fetch_reference collab a s
  = let fetched := get_next_segment collab (ndarray_len a * 2) (world s) in
    let s1 := set_world (snd fetched)
                (record_event
                   (EvCall (GetNextSegment (ndarray_len a * 2)) (fst fetched))
                   s) in
    (rbind (fst fetched) (fun segment =>
     rbind (_convert_to_numpy_array (fst segment) true) (fun o =>
     rbind (_convert_to_numpy_array (snd segment) true) (fun r =>
     Ok (o, r)))), s1).
Proof.
  unfold fetch_reference, bind, call, lift, ret. simpl.
  destruct (get_next_segment collab (ndarray_len a * 2) (world s))
    as [[[b1 b2]|e] w']; simpl; [|reflexivity].
  destruct (_convert_to_numpy_array b1 true); simpl; [|reflexivity].
  destruct (_convert_to_numpy_array b2 true); reflexivity.
Qed.

End ConversionClaims.

(** ** C2: the running average, without rounding *)

Section ExactArithmetic.
Variables World Processed Lyrics : Type.
Variable collab : @Collaborators Qc World Processed Lyrics.
Local Abbreviation Pipeline := (@Pipeline Qc World Processed Lyrics).

Ltac qc_ops :=
  change (@sc_add Qc Scalar_Qc) with Qcplus in *;
  change (@sc_mul Qc Scalar_Qc) with Qcmult in *;
  change (@sc_zero Qc Scalar_Qc) with (Q2Qc 0) in *.

Lemma fold_sum_acc (l : list Qc) (acc : Qc) :
  fold_left Qcplus l acc = (acc + fold_left Qcplus l (Q2Qc 0))%Qc.
Proof.
  revert acc. induction l as [|x l IH]; intros acc; simpl.
  - ring.
  - rewrite IH. rewrite (IH (0 + x)%Qc). ring.
Qed.

Lemma composite_spec_cons (W : dict Qc) k v (S : dict Qc) :
  composite_spec W ((k, v) :: S)
  = (weighted_term W k v + composite_spec W S)%Qc.
Proof.
  unfold composite_spec, sum_terms, weighted_terms, weighted_term. simpl.
  qc_ops. rewrite fold_left_app, fold_sum_acc.
  destruct (dict_get W k); simpl; ring.
Qed.

Lemma composite_spec_setitem (W cum : dict Qc) k old v :
  dict_get cum k = Some old ->
  composite_spec W (dict_setitem cum k (old + v)%Qc)
  = (composite_spec W cum + weighted_term W k v)%Qc.
Proof.
  induction cum as [|[k' v'] cum IH]; simpl; [discriminate|].
  destruct (String.eqb k k') eqn:E.
  - apply String.eqb_eq in E. subst k'. intros H. inversion H; subst.
    rewrite !composite_spec_cons. unfold weighted_term. qc_ops.
    destruct (dict_get W k); ring.
  - intros H. rewrite !composite_spec_cons, (IH H). ring.
Qed.

(** accumulation is additive for every weighting *)
Lemma accumulate_composite (S : dict Qc) (s : Pipeline) :
  (forall k, In k (keys S) -> In k (keys (cumulative_scores s))) ->
  fst (accumulate S s) = Ok tt /\
  forall W, composite_spec W (cumulative_scores (snd (accumulate S s)))
            = (composite_spec W (cumulative_scores s) + composite_spec W S)%Qc.
Proof.
  revert s. induction S as [|[k v] S IH]; intros s H; simpl.
  - split; [reflexivity|]. intros W.
    change (composite_spec W []) with (Q2Qc 0). ring.
  - unfold bind, gets, lift, modify, dict_getitem. simpl.
    destruct (dict_get_Some_of_In (cumulative_scores s) k) as [old E].
    { apply H. simpl. auto. }
    rewrite E. simpl.
    match goal with |- context [accumulate S ?t] => destruct (IH t) as [I1 I2] end.
    { simpl. rewrite keys_dict_setitem by (eapply dict_get_In_keys; eauto).
      intros k' Hk'. apply H. simpl. auto. }
    split; [exact I1|]. intros W. rewrite I2. simpl.
    qc_ops. rewrite (composite_spec_setitem W _ _ v E), composite_spec_cons.
    ring.
Qed.

Lemma Qc_of_nat_S n : Qc_of_nat (S n) = (Qc_of_nat n + 1)%Qc.
Proof.
  unfold Qc_of_nat, Qcplus. apply Q2Qc_eq_iff.
  unfold Q2Qc. cbn [this]. rewrite !Qred_correct.
  rewrite Nat2Z.inj_succ. unfold Z.succ. rewrite inject_Z_plus.
  reflexivity.
Qed.

Lemma Qc_of_nat_S_nonzero n : Qc_of_nat (S n) <> Q2Qc 0.
Proof.
  unfold Qc_of_nat. intros H. apply Q2Qc_eq_iff in H.
  unfold Qeq in H. simpl in H. lia.
Qed.

Lemma weighted_term_zero (W : dict Qc) k : weighted_term W k (Q2Qc 0) = Q2Qc 0.
Proof. unfold weighted_term. qc_ops. destruct (dict_get W k); ring. Qed.

Lemma constant_so_far_init (S : dict Qc) (w : World) sr0 weights pipes cfg :
  constant_so_far S 0 (__init__ Processed Lyrics w sr0 weights pipes cfg).
Proof.
  split; [reflexivity|]. split; [reflexivity|]. simpl.
  qc_ops. rewrite !composite_spec_cons, !weighted_term_zero.
  change (composite_spec weights []) with (Q2Qc 0).
  change (Qc_of_nat 0) with (Q2Qc 0). ring.
Qed.

Lemma constant_step (S : dict Qc) n (s s1 : Pipeline) c :
  (forall k, In k (keys S) -> In k score_names) ->
  constant_so_far S n s ->
  chunk_scores collab c s = (Ok S, s1) ->
  fst (process_and_score collab c s)
  = Ok (composite_spec (score_weights s) S,
        composite_spec (score_weights s) S,
        _generate_feedback s S)
  /\ constant_so_far S (n + 1) (snd (process_and_score collab c s)).
Proof.
  intros HS (Hkeys & Hcount & Hsum) Hscores.
  pose proof (chunk_scores_effect collab c s Hscores)
    as (_ & _ & _ & Hcfg & _ & Hw & Hcum & Hn & _).
  unfold process_and_score, bind. rewrite Hscores, aggregate_unfold.
  destruct (accumulate_composite S s1) as [A1 A2].
  { rewrite Hcum, Hkeys. exact HS. }
  pose proof (accumulate_frame S s1) as A. simpl in A.
  destruct (accumulate S s1) as [[[]|e] s2]; simpl in A1, A2, A;
    [|discriminate].
  destruct A as (_ & _ & _ & B1 & _ & B2 & _ & _ & B3).
  assert (Hnew : composite_spec (score_weights s) (cumulative_scores s2)
                 = (Qc_of_nat (n + 1) * composite_spec (score_weights s) S)%Qc).
  { rewrite A2, Hcum, Hsum, Nat.add_1_r, Qc_of_nat_S. ring. }
  simpl. rewrite !weighted_score_composite_spec. simpl.
  rewrite B1, Hw, Hnew, B2, Hn, Hcount.
  unfold _generate_feedback. rewrite Hcfg.
  split.
  - f_equal. f_equal. f_equal.
    change (@sc_div_count Qc Scalar_Qc) with (fun x n => Qcdiv x (Qc_of_nat n)).
    cbv beta. rewrite Nat.add_1_r. field. apply Qc_of_nat_S_nonzero.
  - unfold constant_so_far. simpl. rewrite B1, Hw.
    split; [congruence|]. split; [reflexivity|]. exact Hnew.
Qed.

Lemma constant_session (S : dict Qc) (cs : list Buffer) (c : Buffer) :
  (forall k, In k (keys S) -> In k score_names) ->
  forall n (s : Pipeline),
    constant_so_far S n s ->
    yields_all collab S (cs ++ [c]) s ->
    let self := snd (session collab cs s) in
    chunk_count self = n + List.length cs /\
    score_weights self = score_weights s /\
    fst (process_and_score collab c self)
    = Ok (composite_spec (score_weights s) S,
          composite_spec (score_weights s) S,
          _generate_feedback self S).
Proof.
  intros HS. induction cs as [|c0 cs IH]; intros n s Hinv Hy; simpl in *.
  - inversion Hy as [|? ? ? s1 Hc _]; subst.
    destruct (constant_step c HS Hinv Hc) as [R _].
    destruct Hinv as (_ & Hn & _).
    split; [lia|]. split; [reflexivity|]. exact R.
  - inversion Hy as [|? ? ? s1 Hc Hrest]; subst.
    destruct (constant_step c0 HS Hinv Hc) as [_ Hinv'].
    pose proof (process_and_score_effect collab c0 s) as E.
    destruct (process_and_score collab c0 s) as [r s'] eqn:Ep.
    specialize (E _ _ eq_refl). destruct E as (_ & _ & _ & Ew & _).
    simpl in Hrest, Hinv'.
    specialize (IH _ _ Hinv' Hrest).
    destruct (session collab cs s') as [rs s''] eqn:Es. simpl in *.
    destruct IH as (I1 & I2 & I3).
    split; [lia|]. split; [congruence|]. rewrite I3, Ew. reflexivity.
Qed.

(** C2 (amended).  In exact arithmetic, for every ScoreVector [S] whose names
    are among the five names of the cumulative statistics and every chunk
    sequence of length [n >= 1] on a new orchestrator in which every chunk
    yields [S], the [n]-th call returns: its running average is the
    single-chunk composite score of [S], which is also its instant score. *)
Theorem running_average_of_constant_scores_exact
    (w : World) sr0 weights pipes cfg (S : dict Qc)
    (cs : list Buffer) (c : Buffer) :
  (forall k, In k (keys S) -> In k score_names) ->
  yields_all collab S (cs ++ [c])
    (__init__ Processed Lyrics w sr0 weights pipes cfg) ->
  let self := snd (session collab cs
                     (__init__ Processed Lyrics w sr0 weights pipes cfg)) in
  chunk_count self = List.length cs /\
  fst (process_and_score collab c self)
  = Ok (_calculate_weighted_score self S,
        _calculate_weighted_score self S,
        _generate_feedback self S).
Proof.
  intros HS Hy.
  destruct (constant_session cs c HS
              (constant_so_far_init S w sr0 weights pipes cfg) Hy)
    as (H1 & H2 & H3).
  simpl in *. split; [exact H1|].
  rewrite H3, weighted_score_composite_spec, H2. reflexivity.
Qed.

End ExactArithmetic.

(* ================================================================== *)
(** * The properties on concrete sessions *)

(** The end-to-end scenario of the specification: weight 1.0 on pitch_score,
    three chunks scoring 0.9 each.  Every call returns the instant score 0.9
    and the running average 0.9; [final_score] returns 0.9 and the "high"
    message; the segment provider has counted one alignment. *)
Example end_to_end_scenario :
  let collab := stub (pcm_segment, pcm_segment) (pitch_only (B64.dec 9 10)) in
  let run := session collab [pcm_segment; pcm_segment; pcm_segment]
               (fresh (pitch_only (B64.of_Z 1))) in
  fst run = repeat (Ok (B64.dec 9 10, B64.dec 9 10, Some "Great pitch!")) 3
  /\ fst (final_score (snd run)) = Ok (B64.dec 9 10, Some "Great pitch!")
  /\ world (snd run) = 1.
Proof. vm_compute. repeat split. Qed.

(** C1, witness: the composite of [{"a": 1.0, "b": NaN}] under [{"a": 0.5}]. *)
Lemma composite_score_is_weighted_sum_of_weighted_names_witness :
  _calculate_weighted_score (fresh [("a", B64.dec 1 2)])
    [("a", B64.of_Z 1); ("b", B64.nan)]
  = B64.dec 1 2.
Proof.
  exact (proj2 composite_score_is_weighted_sum_of_weighted_names
           nat unit unit 44100%Z pitch_catalog one_pipeline 0
           (cumulative_scores (fresh [("a", B64.dec 1 2)])) 0 false []
           B64.nan).
Defined.

(** C2, counterexample.  With Python floats, weight 1.0 on pitch_score and
    three chunks that each yield [{"pitch_score": 0.1}], the third call
    returns the running average 0.10000000000000002, not the composite 0.1
    of the ScoreVector.  And a ScoreVector with a name outside the cumulative
    statistics, [{"a": 1.0, "b": 1.0}], yields no running average at all:
    the call raises KeyError. *)
Lemma running_average_differs_from_composite :
  (let S := pitch_only (B64.dec 1 10) in
   let collab := stub (pcm_segment, pcm_segment) S in
   let self0 := fresh (pitch_only (B64.of_Z 1)) in
   let self := snd (session collab [pcm_segment; pcm_segment] self0) in
   yields_all collab S [pcm_segment; pcm_segment; pcm_segment] self0 /\
   _calculate_weighted_score self S = B64.dec 1 10 /\
   exists average feedback,
     fst (process_and_score collab pcm_segment self)
     = Ok (B64.dec 1 10, average, feedback) /\
     B64.eqb average (B64.dec 1 10) = false /\
     average <> _calculate_weighted_score self S)
  /\
  (let S := [("a", B64.of_Z 1); ("b", B64.of_Z 1)] in
   let collab := stub (pcm_segment, pcm_segment) S in
   let self0 := fresh [("a", B64.dec 1 2)] in
   yields_all collab S [pcm_segment] self0 /\
   fst (process_and_score collab pcm_segment self0) = Raise (KeyError "a")).
Proof.
  split.
  - split.
    { repeat (eapply yields_cons; [vm_compute; reflexivity|]).
      apply yields_nil. }
    split; [vm_compute; reflexivity|].
    eexists. eexists. split; [vm_compute; reflexivity|].
    split; [vm_compute; reflexivity|].
    intros H. vm_compute in H. discriminate H.
  - split.
    { eapply yields_cons; [vm_compute; reflexivity|]. apply yields_nil. }
    vm_compute. reflexivity.
Qed.

(** C2, witness: three chunks scoring 9/10 on pitch_score, weight 1. *)
Lemma running_average_of_constant_scores_exact_witness :
  let S := pitch_only (Q2Qc (9 # 10)) in
  let collab := stub (pcm_segment, pcm_segment) S in
  let self0 := fresh (pitch_only (Q2Qc 1)) in
  let self := snd (session collab [pcm_segment; pcm_segment] self0) in
  chunk_count self = 2 /\
  fst (process_and_score collab pcm_segment self)
  = Ok (_calculate_weighted_score self S, _calculate_weighted_score self S,
        _generate_feedback self S).
Proof.
  apply (@running_average_of_constant_scores_exact nat unit unit
           (stub (pcm_segment, pcm_segment) (pitch_only (Q2Qc (9 # 10))))
           0 44100%Z (pitch_only (Q2Qc 1)) one_pipeline pitch_catalog
           (pitch_only (Q2Qc (9 # 10)))
           [pcm_segment; pcm_segment] pcm_segment).
  - intros k [<-|[]]. simpl. tauto.
  - repeat (eapply yields_cons; [vm_compute; reflexivity|]).
    apply yields_nil.
Defined.

(** C3, witness: the catalog lists amplitude_score, pitch_score,
    rhythm_score; the ScoreVector holds rhythm_score 1.0 and pitch_score
    0.8.  The first catalog name present is pitch_score, and 0.8 is "high". *)
Lemma feedback_is_first_catalog_name_present_witness :
  _generate_feedback (fresh_with three_catalog (pitch_only (B64.of_Z 1)))
    [("rhythm_score", B64.of_Z 1); ("pitch_score", B64.dec 8 10)]
  = Some "Great pitch!".
Proof.
  exact (proj1 feedback_is_first_catalog_name_present
           spec_float Scalar_float nat unit unit
           (fresh_with three_catalog (pitch_only (B64.of_Z 1)))
           [("rhythm_score", B64.of_Z 1); ("pitch_score", B64.dec 8 10)]
           [("amplitude_score",
             {| high := "Good volume."; low := "Sing louder." |})]
           "pitch_score"
           {| high := "Great pitch!"; low := "Watch your pitch." |}
           [("rhythm_score",
             {| high := "Right on time."; low := "Mind the beat." |})]
           (B64.dec 8 10)
           eq_refl
           (fun k H => match H with
                       | or_introl e => match e with eq_refl => eq_refl end
                       | or_intror f => match f with end
                       end)
           eq_refl).
Defined.

(** C4, counterexample.  A float64 chunk [inf, nan, -inf, 0.5]: the array
    handed to the preprocessing is [1.7976931348623157e308, 0.0,
    -1.7976931348623157e308, 0.5].  The NaN became zero, the infinities did
    not. *)
Lemma infinite_samples_are_not_replaced_by_zero :
  let collab := stub (pcm_segment, pcm_segment) (pitch_only (B64.dec 9 10)) in
  let self' := snd (process_and_score collab (NdArray nonfinite_chunk)
                      (fresh (pitch_only (B64.of_Z 1)))) in
  let handed := hd (Int16Array []) (preprocessed_audio (events self')) in
  handed = Float64Array [B64.max_float; B64.zero; SFopp B64.max_float;
                         B64.dec 1 2]
  /\ handed <> Float64Array [B64.zero; B64.zero; B64.zero; B64.dec 1 2]
  /\ B64.eqb B64.max_float B64.zero = false.
Proof.
  split; [vm_compute; reflexivity|]. split; [|vm_compute; reflexivity].
  intros H. vm_compute in H. discriminate H.
Qed.

(** C5, counterexample.  The alignment of this test double refuses a chunk
    without samples.  A session whose first chunk is empty calls the
    alignment twice: in the first call, where it raises, and again in the
    second call, with the second chunk. *)
Lemma alignment_is_called_again_after_it_raised :
  let collab := strict_stub (pcm_segment, pcm_segment)
                  (pitch_only (B64.dec 9 10)) in
  let self := snd (session collab [PyBytes []; pcm_segment]
                     (fresh (pitch_only (B64.of_Z 1)))) in
  align_calls self
  = [EvCall (AlignAudio (PyBytes []))
       (Raise (ValueError "empty audio chunk"));
     EvCall (AlignAudio pcm_segment) (Ok tt)]
  /\ world self = 2
  /\ List.length (align_calls self) <> 1.
Proof.
  split; [vm_compute; reflexivity|]. split; [vm_compute; reflexivity|].
  vm_compute. discriminate.
Qed.

(** C5, witness.  On the counting test double the alignment of the first
    call returns: two calls, one alignment, made with the first chunk.  On
    the strict test double the alignment of an empty first chunk raises:
    the call raises the same, and the session aligns the next chunk. *)
Lemma alignment_is_called_until_it_returns_witness :
  (let collab := stub (pcm_segment, pcm_segment) (pitch_only (B64.dec 9 10)) in
   let first := PyBytes [x01; x00] in
   let self := snd (session collab [first; pcm_segment]
                      (fresh (pitch_only (B64.of_Z 1)))) in
   world self = 1 /\ align_calls self = [EvCall (AlignAudio first) (Ok tt)])
  /\
  (let collab := strict_stub (pcm_segment, pcm_segment)
                   (pitch_only (B64.dec 9 10)) in
   let self0 := fresh (pitch_only (B64.of_Z 1)) in
   fst (process_and_score collab (PyBytes []) self0)
   = Raise (ValueError "empty audio chunk") /\
   initialized (snd (process_and_score collab (PyBytes []) self0)) = false).
Proof.
  split.
  - split; [vm_compute; reflexivity|].
    apply (proj2 (proj2
             (@alignment_is_called_until_it_returns _ _ nat unit unit
                (stub (pcm_segment, pcm_segment) (pitch_only (B64.dec 9 10)))
                0 44100%Z (pitch_only (B64.of_Z 1)) one_pipeline pitch_catalog
                (PyBytes [x01; x00]) [pcm_segment]))).
    reflexivity.
  - destruct (proj2 (proj2 (proj2
               (@alignment_is_called_until_it_returns _ _ nat unit unit
                  (strict_stub (pcm_segment, pcm_segment)
                     (pitch_only (B64.dec 9 10)))
                  0 44100%Z (pitch_only (B64.of_Z 1)) one_pipeline
                  pitch_catalog (PyBytes []) [pcm_segment])))
               (ValueError "empty audio chunk") eq_refl)
      as (H1 & H2 & _).
    split; [exact H1|exact H2].
Defined.




(** C8, witness: two chunks scoring 0.9, so pitch_score has the sum 1.8 and
    the average 0.9. *)
Lemma average_scores_are_sums_over_count_witness :
  let collab := stub (pcm_segment, pcm_segment) (pitch_only (B64.dec 9 10)) in
  let self := snd (session collab [pcm_segment; pcm_segment]
                     (fresh (pitch_only (B64.of_Z 1)))) in
  exists averages,
    fst (get_average_scores self) = Ok averages /\
    dict_get (cumulative_scores self) "pitch_score" = Some (B64.dec 18 10) /\
    dict_get averages "pitch_score"
    = Some (B64.div (B64.dec 18 10) (B64.of_Z 2)) /\
    B64.div (B64.dec 18 10) (B64.of_Z 2) = B64.dec 9 10.
Proof.
  destruct (@average_scores_are_sums_over_count _ _ nat unit unit
              (stub (pcm_segment, pcm_segment) (pitch_only (B64.dec 9 10)))
              0 44100%Z (pitch_only (B64.of_Z 1)) one_pipeline pitch_catalog
              [pcm_segment; pcm_segment])
    as (averages & H1 & H2 & H3 & H4).
  - vm_compute. lia.
  - exists averages. split; [exact H1|].
    split; [vm_compute; reflexivity|].
    split; [|vm_compute; reflexivity].
    apply (H4 "pitch_score" (B64.dec 18 10)). vm_compute. reflexivity.
Defined.

(** C10, witness: the scorer answers [{"a": 1.0, "b": 1.0}]; the call raises
    KeyError for "a" and the counter stays at zero. *)
Lemma cumulative_keys_are_fixed_and_unknown_names_raise_witness :
  let S := [("a", B64.of_Z 1); ("b", B64.of_Z 1)] in
  let collab := stub (pcm_segment, pcm_segment) S in
  let self := fresh [("a", B64.dec 1 2)] in
  exists k,
    fst (process_and_score collab pcm_segment self) = Raise (KeyError k) /\
    chunk_count (snd (process_and_score collab pcm_segment self)) = 0 /\
    keys (cumulative_scores (snd (process_and_score collab pcm_segment self)))
    = score_names.
Proof.
  destruct (proj2 (proj2
              (@cumulative_keys_are_fixed_and_unknown_names_raise
                 _ _ nat unit unit
                 (stub (pcm_segment, pcm_segment)
                    [("a", B64.of_Z 1); ("b", B64.of_Z 1)])))
              (fresh [("a", B64.dec 1 2)]) pcm_segment
              [("a", B64.of_Z 1); ("b", B64.of_Z 1)]
              (snd (chunk_scores
                      (stub (pcm_segment, pcm_segment)
                         [("a", B64.of_Z 1); ("b", B64.of_Z 1)])
                      pcm_segment (fresh [("a", B64.dec 1 2)]))))
    as (pre & k & v & post & _ & _ & _ & H1 & H2 & H3 & _).
  - reflexivity.
  - vm_compute. reflexivity.
  - exists "a". split; [simpl; auto|].
    intros H. vm_compute in H. intuition discriminate.
  - exists k. split; [exact H1|]. split; [exact H2|exact H3].
Defined.

(* ================================================================== *)
(** * Further properties of the conversion *)

Section ConversionFacts.

Lemma list_pair_ind {A} (P : list A -> Prop) :
  P [] -> (forall a, P [a]) -> (forall a b l, P l -> P (a :: b :: l)) ->
  forall l, P l.
Proof.
  intros H0 H1 H2 l.
  assert (H : P l /\ forall a, P (a :: l)).
  { induction l as [|b l [IH1 IH2]]; [auto|]. split; [apply IH2|].
    intros a. apply H2. exact IH1. }
  exact (proj1 H).
Qed.

Lemma frombuffer_int16_even (b : list byte) :
  Nat.even (List.length b) = true ->
  exists l, frombuffer_int16 b = Ok l /\ List.length b = 2 * List.length l.
Proof.
  induction b as [|x|x y b IH] using list_pair_ind; simpl.
  - intros _. exists []. auto.
  - discriminate.
  - intros H. destruct (IH H) as (l & -> & Hl). simpl.
    eexists. split; [reflexivity|]. simpl. lia.
Qed.

Lemma frombuffer_int16_odd (b : list byte) :
  Nat.even (List.length b) = false ->
  frombuffer_int16 b
  = Raise (ValueError "buffer size must be a multiple of element size").
Proof.
  induction b as [|x|x y b IH] using list_pair_ind; simpl.
  - discriminate.
  - reflexivity.
  - intros H. rewrite (IH H). reflexivity.
Qed.

Lemma byte_of_Z_value z : Z.of_N (Byte.to_N (byte_of_Z z)) = (z mod 256)%Z.
Proof.
  unfold byte_of_Z.
  assert (Hr : (0 <= z mod 256 < 256)%Z) by (apply Z.mod_pos_bound; lia).
  destruct (Byte.of_N (Z.to_N (z mod 256))) as [b|] eqn:E.
  - apply Byte.to_of_N in E. rewrite E. lia.
  - apply Byte.of_N_None_iff in E. lia.
Qed.

Lemma byte_of_Z_to_N (b : byte) : byte_of_Z (Z.of_N (Byte.to_N b)) = b.
Proof.
  unfold byte_of_Z. pose proof (Byte.to_N_bounded b) as Hb.
  rewrite Z.mod_small by lia. rewrite N2Z.id, Byte.of_to_N. reflexivity.
Qed.

Lemma int16_of_bytes_range lo hi : is_int16 (int16_of_bytes lo hi).
Proof.
  unfold is_int16, int16_of_bytes.
  pose proof (Byte.to_N_bounded lo). pose proof (Byte.to_N_bounded hi).
  destruct (Z.ltb_spec (Z.of_N (Byte.to_N lo) + 256 * Z.of_N (Byte.to_N hi))
              32768); lia.
Qed.

(** the two bytes of a sample decode to the sample *)
Lemma int16_of_le_bytes z :
  is_int16 z ->
  int16_of_bytes (byte_of_Z (z mod 65536))
                 (byte_of_Z (Z.shiftr (z mod 65536) 8)) = z.
Proof.
  unfold is_int16, int16_of_bytes. intros Hz.
  rewrite !byte_of_Z_value, Z.shiftr_div_pow2 by lia.
  change (2 ^ 8)%Z with 256%Z.
  assert (Hu : (0 <= z mod 65536 < 65536)%Z) by (apply Z.mod_pos_bound; lia).
  set (u := (z mod 65536)%Z) in *.
  assert (Hq : (0 <= u / 256 < 256)%Z).
  { split; [apply Z.div_pos; lia|]. apply Z.div_lt_upper_bound; lia. }
  rewrite (Z.mod_small (u / 256)) by lia.
  assert (Hd : (u mod 256 + 256 * (u / 256) = u)%Z).
  { pose proof (Z.div_mod u 256). lia. }
  rewrite Hd.
  assert (Hcases : (z = u \/ z = u - 65536)%Z).
  { subst u. pose proof (Z.div_mod z 65536). lia. }
  destruct (Z.ltb_spec u 32768); lia.
Qed.

(** a sample's code decodes to its two bytes *)
Lemma le_bytes_of_int16 lo hi :
  le_bytes 2 (int16_of_bytes lo hi mod 65536) = [lo; hi].
Proof.
  pose proof (Byte.to_N_bounded lo) as Hlo.
  pose proof (Byte.to_N_bounded hi) as Hhi.
  assert (Hu : (int16_of_bytes lo hi mod 65536
                = Z.of_N (Byte.to_N lo) + 256 * Z.of_N (Byte.to_N hi))%Z).
  { unfold int16_of_bytes.
    set (u := (Z.of_N (Byte.to_N lo) + 256 * Z.of_N (Byte.to_N hi))%Z).
    assert (0 <= u < 65536)%Z by (subst u; lia).
    destruct (Z.ltb_spec u 32768).
    - apply Z.mod_small. lia.
    - pose proof (Z.div_mod (u - 65536) 65536).
      pose proof (Z.mod_pos_bound (u - 65536) 65536). lia. }
  rewrite Hu. clear Hu.
  set (u := (Z.of_N (Byte.to_N lo) + 256 * Z.of_N (Byte.to_N hi))%Z).
  assert (H1 : (u mod 256 = Z.of_N (Byte.to_N lo))%Z).
  { pose proof (Z.div_mod u 256). pose proof (Z.mod_pos_bound u 256).
    subst u. lia. }
  assert (H2 : (u / 256 = Z.of_N (Byte.to_N hi))%Z).
  { pose proof (Z.div_mod u 256). pose proof (Z.mod_pos_bound u 256).
    subst u. lia. }
  simpl. rewrite Z.shiftr_div_pow2 by lia. change (2 ^ 8)%Z with 256%Z.
  rewrite H2, byte_of_Z_to_N. f_equal.
  unfold byte_of_Z. rewrite H1, N2Z.id, Byte.of_to_N. reflexivity.
Qed.

Lemma frombuffer_int16_values (b : list byte) l :
  frombuffer_int16 b = Ok l -> Forall is_int16 l.
Proof.
  revert l. induction b as [|x|x y b IH] using list_pair_ind; simpl; intros l.
  - intros H. inversion H. constructor.
  - discriminate.
  - destruct (frombuffer_int16 b) as [tl|e]; simpl; [|discriminate].
    intros H. inversion H; subst. constructor.
    + apply int16_of_bytes_range.
    + apply IH. reflexivity.
Qed.

End ConversionFacts.

Section ConversionOutcome.

Lemma forall_from_spec (P : Z -> bool) count :
  forall start,
    forall_from P start count = true ->
    forall z, (start <= z < start + Z.of_nat count)%Z -> P z = true.
Proof.
  induction count as [|c IH]; intros start H z Hz; [lia|].
  simpl in H. apply andb_prop in H. destruct H as [H0 H1].
  destruct (Z.eq_dec z start) as [->|Hne]; [exact H0|].
  apply (IH (start + 1)%Z H1). lia.
Qed.

Lemma forall_int16_spec (P : Z -> bool) :
  forall_int16 P = true -> forall z, is_int16 z -> P z = true.
Proof.
  unfold forall_int16, is_int16. intros H z Hz.
  apply (@forall_from_spec P _ _ H). lia.
Qed.

Lemma int16_sample_checked z :
  is_int16 z ->
  B32.isfinite (B32.of_Z z) = true /\
  B32.isfinite (scale_sample z) = true /\
  fl_leb scaled_min (scale_sample z) = true /\
  fl_leb (scale_sample z) (B32.of_Z 1) = true /\
  B32.ltb (B32.of_Z 1) (B32.abs (B32.of_Z z)) = (1 <? Z.abs z)%Z.
Proof.
  intros Hz.
  assert (H : int16_sample_check z = true).
  { apply forall_int16_spec; [vm_compute; reflexivity | exact Hz]. }
  unfold int16_sample_check in H. cbv zeta in H.
  fold (scale_sample z) in H.
  repeat (apply andb_prop in H; destruct H as [H ?]).
  repeat split; try assumption. now apply Bool.eqb_prop.
Qed.




Lemma one_is : B32.of_Z 1 = S754_finite false 8388608 (-23).
Proof. reflexivity. Qed.

Lemma ltb_pos_finite m1 e1 m2 e2 :
  SFltb (S754_finite false m1 e1) (S754_finite false m2 e2)
  = ((e1 <? e2)%Z || ((e1 =? e2)%Z && (m1 <? m2)%positive)).
Proof.
  unfold SFltb, SFcompare, Pos.ltb.
  change (Pos.compare_cont Eq m1 m2) with (m1 ?= m2)%positive.
  destruct (Z.compare_spec e1 e2); destruct (Z.ltb_spec e1 e2);
    destruct (Z.eqb_spec e1 e2); try lia; simpl; try reflexivity;
    destruct (m1 ?= m2)%positive; reflexivity.
Qed.

Lemma big_np_maximum a b :
  nonneg_float a = true -> nonneg_float b = true ->
  B32.ltb (B32.of_Z 1) (np_maximum a b)
  = B32.ltb (B32.of_Z 1) a || B32.ltb (B32.of_Z 1) b.
Proof.
  rewrite one_is.
  destruct a as [sa|[|]| |[|] ma ea]; try discriminate;
    destruct b as [sb|[|]| |[|] mb eb]; try discriminate; intros _ _;
    unfold np_maximum, B32.ltb, fl_ltb; rewrite ?ltb_pos_finite;
    try reflexivity.
  - change (SFltb (S754_zero sa) (S754_finite false mb eb)) with true.
    cbv iota. rewrite ltb_pos_finite. reflexivity.
  - change (SFltb (S754_finite false ma ea) (S754_zero sb)) with false.
    cbv iota. rewrite ltb_pos_finite.
    change (SFltb (S754_finite false 8388608 (-23)) (S754_zero sb)) with false.
    rewrite orb_false_r. reflexivity.
  - change (SFltb (S754_finite false ma ea) (S754_infinity false)) with true.
    cbv iota.
    change (SFltb (S754_finite false 8388608 (-23)) (S754_infinity false))
      with true.
    rewrite orb_true_r. reflexivity.
  - destruct ((ea <? eb)%Z || (ea =? eb)%Z && (ma <? mb)%positive) eqn:E.
    + rewrite orb_true_iff, andb_true_iff, Z.ltb_lt, Z.eqb_eq, Pos.ltb_lt in E.
      rewrite ltb_pos_finite. apply eq_true_iff_eq.
      rewrite !orb_true_iff, !andb_true_iff, !Z.ltb_lt, !Z.eqb_eq, !Pos.ltb_lt.
      lia.
    + rewrite orb_false_iff, andb_false_iff, Z.ltb_ge, Z.eqb_neq, Pos.ltb_ge in E.
      rewrite ltb_pos_finite. apply eq_true_iff_eq.
      rewrite !orb_true_iff, !andb_true_iff, !Z.ltb_lt, !Z.eqb_eq, !Pos.ltb_lt.
      lia.
Qed.

Lemma nonneg_np_maximum a b :
  nonneg_float a = true -> nonneg_float b = true ->
  nonneg_float (np_maximum a b) = true.
Proof.
  intros Ha Hb. unfold np_maximum.
  destruct a; try discriminate; destruct b; try discriminate;
    destruct (B32.ltb _ _); assumption.
Qed.

Lemma big_fold (l : list spec_float) :
  forall a,
    nonneg_float a = true -> Forall (fun x => nonneg_float x = true) l ->
    B32.ltb (B32.of_Z 1) (fold_left np_maximum l a)
    = B32.ltb (B32.of_Z 1) a || existsb (B32.ltb (B32.of_Z 1)) l.
Proof.
  induction l as [|x l IH]; intros a Ha Hl; simpl.
  - rewrite orb_false_r. reflexivity.
  - inversion Hl; subst.
    rewrite IH by (auto using nonneg_np_maximum).
    rewrite big_np_maximum by assumption. rewrite orb_assoc. reflexivity.
Qed.

Lemma abs_finite_nonneg x :
  B32.isfinite x = true -> nonneg_float (B32.abs x) = true.
Proof. destruct x; simpl; congruence. Qed.

Lemma existsb_big_abs (zs : list Z) :
  Forall is_int16 zs ->
  existsb (B32.ltb (B32.of_Z 1)) (map B32.abs (map B32.of_Z zs))
  = existsb (fun z => (1 <? Z.abs z)%Z) zs.
Proof.
  induction 1 as [|z zs Hz Hzs IH]; [reflexivity|].
  cbn [map existsb]. rewrite IH.
  destruct (int16_sample_checked Hz) as (_ & _ & _ & _ & ->). reflexivity.
Qed.

Lemma nonneg_abs_samples (zs : list Z) :
  Forall is_int16 zs ->
  Forall (fun x => nonneg_float x = true) (map B32.abs (map B32.of_Z zs)).
Proof.
  induction 1 as [|z zs Hz Hzs IH]; cbn [map]; constructor; [|exact IH].
  apply abs_finite_nonneg. apply (int16_sample_checked Hz).
Qed.

(** the test of line 72, on the 16-bit samples themselves *)
Lemma max_abs_exceeds_one (l : list Z) :
  Forall is_int16 l -> l <> [] ->
  exists m,
    np_max (map B32.abs (map B32.of_Z l)) = Ok m /\
    B32.ltb (B32.of_Z 1) m = existsb (fun z => (1 <? Z.abs z)%Z) l.
Proof.
  intros Hl Hne. destruct l as [|z0 zs]; [congruence|]. clear Hne.
  cbn [map np_max]. eexists. split; [reflexivity|].
  inversion Hl as [|? ? H0 Hs]; subst.
  rewrite big_fold.
  - rewrite existsb_big_abs by exact Hs. cbn [existsb].
    destruct (int16_sample_checked H0) as (_ & _ & _ & _ & ->). reflexivity.
  - apply abs_finite_nonneg. apply (int16_sample_checked H0).
  - apply nonneg_abs_samples. exact Hs.
Qed.

(** the conversion in terms of the 16-bit samples *)
Lemma convert_to_float_values (b : Buffer) (l : list Z) :
  frombuffer_int16 (buffer_bytes b) = Ok l -> l <> [] ->
  _convert_to_numpy_array b true
  = Ok (Float32Array
          (if existsb (fun z => (1 <? Z.abs z)%Z) l
           then map scale_sample l
           else map B32.of_Z l)).
Proof.
  intros Hb Hne. unfold _convert_to_numpy_array. rewrite Hb.
  cbn [rbind]. cbv zeta.
  destruct (max_abs_exceeds_one (frombuffer_int16_values _ Hb) Hne)
    as (m & Hm & Hbig).
  rewrite Hm. cbn [rbind]. rewrite Hbig.
  destruct (existsb _ l); [|reflexivity].
  rewrite map_map. reflexivity.
Qed.

End ConversionOutcome.

(** ** What [_convert_to_numpy_array] returns *)

Section ConversionResults.
Context {F : Type} {SF : Scalar F}.
Variables World Processed Lyrics : Type.
Local Abbreviation Pipeline := (@Pipeline F World Processed Lyrics).

(** X1.  The outcome of the conversion is decided by the size of the buffer
    in bytes.  An odd size is refused with ValueError whatever [to_float] is.
    An empty buffer gives an empty int16 array without [to_float] and is
    refused with ValueError (the maximum of nothing) with it.  Every other
    buffer is converted, to one sample per two bytes. *)
Theorem conversion_outcome_by_buffer_size (b : Buffer) :
  let size := List.length (buffer_bytes b) in
  (Nat.even size = false ->
   forall to_float,
     _convert_to_numpy_array b to_float
     = Raise (ValueError "buffer size must be a multiple of element size"))
  /\
  (size = 0 ->
   _convert_to_numpy_array b false = Ok (Int16Array []) /\
   _convert_to_numpy_array b true
   = Raise (ValueError
              "zero-size array to reduction operation maximum which has no identity"))
  /\
  (Nat.even size = true -> size <> 0 ->
   exists samples floats,
     _convert_to_numpy_array b false = Ok (Int16Array samples) /\
     _convert_to_numpy_array b true = Ok (Float32Array floats) /\
     size = 2 * List.length samples /\
     List.length floats = List.length samples).
Proof.
  cbv zeta. split; [|split].
  - intros Hodd to_float. unfold _convert_to_numpy_array.
    rewrite (frombuffer_int16_odd _ Hodd). reflexivity.
  - intros Hz. apply length_zero_iff_nil in Hz.
    unfold _convert_to_numpy_array. rewrite Hz. split; reflexivity.
  - intros Heven Hne.
    destruct (frombuffer_int16_even _ Heven) as (l & Hl & Hlen).
    assert (Hnil : l <> []).
    { intros ->. simpl in Hlen. lia. }
    exists l. eexists. split.
    { unfold _convert_to_numpy_array. rewrite Hl. reflexivity. }
    split; [exact (convert_to_float_values b Hl Hnil)|].
    split; [exact Hlen|].
    destruct (existsb _ l); apply length_map.
Qed.

Lemma frombuffer_int16_pair x y (b : list byte) :
  frombuffer_int16 (x :: y :: b)
  = rbind (frombuffer_int16 b) (fun tl => Ok (int16_of_bytes x y :: tl)).
Proof. reflexivity. Qed.

Lemma le_bytes_2 u : le_bytes 2 u = [byte_of_Z u; byte_of_Z (Z.shiftr u 8)].
Proof. reflexivity. Qed.

Lemma frombuffer_int16_of_samples (d : list Z) :
  Forall is_int16 d ->
  frombuffer_int16 (ndarray_bytes (Int16Array d)) = Ok d.
Proof.
  unfold ndarray_bytes.
  induction 1 as [|z d Hz Hd IH]; [reflexivity|].
  cbn [flat_map]. rewrite le_bytes_2. cbn [app].
  rewrite frombuffer_int16_pair, IH. cbn [rbind].
  rewrite (int16_of_le_bytes Hz). reflexivity.
Qed.

Lemma ndarray_bytes_of_frombuffer (b : list byte) :
  forall l, frombuffer_int16 b = Ok l -> ndarray_bytes (Int16Array l) = b.
Proof.
  unfold ndarray_bytes.
  induction b as [|x|x y b IH] using list_pair_ind; intros l.
  - intros H. inversion H. reflexivity.
  - discriminate.
  - rewrite frombuffer_int16_pair.
    destruct (frombuffer_int16 b) as [tl|e] eqn:E; cbn [rbind];
      [|discriminate].
    intros H. inversion H; subst. cbn [flat_map].
    rewrite le_bytes_of_int16. cbn [app]. f_equal. f_equal.
    apply (IH tl eq_refl).
Qed.

(** X2.  Without [to_float] the conversion is a view of the buffer's memory:
    an int16 array whose samples are 16-bit values converts to itself, and
    the memory of the array a buffer converts to is the buffer's bytes. *)
Theorem int16_view_round_trip :
  (forall d : list Z,
      Forall is_int16 d ->
      _convert_to_numpy_array (NdArray (Int16Array d)) false
      = Ok (Int16Array d))
  /\
  (forall (b : Buffer) (a : ndarray),
      _convert_to_numpy_array b false = Ok a ->
      ndarray_bytes a = buffer_bytes b).
Proof.
  split.
  - intros d Hd. unfold _convert_to_numpy_array. cbn [buffer_bytes].
    rewrite (frombuffer_int16_of_samples Hd). reflexivity.
  - intros b a. unfold _convert_to_numpy_array.
    destruct (frombuffer_int16 (buffer_bytes b)) as [l|e] eqn:E;
      cbn [rbind]; [|discriminate].
    intros H. inversion H; subst. now apply ndarray_bytes_of_frombuffer.
Qed.


Lemma unit_samples_in_range z :
  (Z.abs z <= 1)%Z ->
  B32.isfinite (B32.of_Z z) = true /\
  fl_leb scaled_min (B32.of_Z z) = true /\
  fl_leb (B32.of_Z z) (B32.of_Z 1) = true.
Proof.
  intros Hz.
  assert (H : z = (-1)%Z \/ z = 0%Z \/ z = 1%Z) by lia.
  destruct H as [->|[->| ->]]; repeat split; vm_compute; reflexivity.
Qed.

(** X4.  The conversion with [to_float] divides by 32767 exactly when some
    16-bit sample of the buffer is outside -1, 0, 1; otherwise the samples
    are kept as they are.  In both cases every sample of the result is
    finite and lies between -32768/32767 and 1.0; the lower end, the image
    of -32768, is below -1.0. *)
Theorem converted_samples_are_bounded (b : Buffer) (a : ndarray) :
  _convert_to_numpy_array b true = Ok a ->
  exists samples floats,
    frombuffer_int16 (buffer_bytes b) = Ok samples /\
    a = Float32Array floats /\
    floats = (if existsb (fun z => (1 <? Z.abs z)%Z) samples
              then map scale_sample samples
              else map B32.of_Z samples) /\
    Forall (fun x => B32.isfinite x = true /\
                     fl_leb scaled_min x = true /\
                     fl_leb x (B32.of_Z 1) = true) floats /\
    B32.ltb scaled_min (B32.of_Z (-1)) = true.
Proof.
  intros H.
  destruct (frombuffer_int16 (buffer_bytes b)) as [l|e] eqn:E.
  2: { unfold _convert_to_numpy_array in H. rewrite E in H. discriminate. }
  assert (Hnil : l <> []).
  { intros ->. unfold _convert_to_numpy_array in H. rewrite E in H.
    discriminate. }
  rewrite (convert_to_float_values b E Hnil) in H. inversion H; subst.
  exists l. eexists. split; [reflexivity|]. split; [reflexivity|].
  split; [reflexivity|]. split; [|vm_compute; reflexivity].
  pose proof (frombuffer_int16_values _ E) as Hl. clear H E Hnil.
  destruct (existsb (fun z => (1 <? Z.abs z)%Z) l) eqn:Ex.
  - apply Forall_map. apply (Forall_impl _ (P := is_int16)); [|exact Hl].
    intros z Hz.
    destruct (int16_sample_checked Hz) as (_ & H1 & H2 & H3 & _). auto.
  - apply Forall_map. apply Forall_forall. intros z Hin.
    apply unit_samples_in_range.
    assert (Hz : (1 <? Z.abs z)%Z = false).
    { destruct (1 <? Z.abs z)%Z eqn:Ez; [|reflexivity].
      assert (existsb (fun z => (1 <? Z.abs z)%Z) l = true)
        by (apply existsb_exists; eauto).
      congruence. }
    apply Z.ltb_ge in Hz. exact Hz.
Qed.

(** X5.  A chunk that arrives as bytes never takes the non-finite branch:
    the array the conversion returns has finite samples only, so the
    sanitizing paragraph returns it unchanged and records nothing. *)
Theorem converted_chunk_is_not_sanitized (b : Buffer) (a : ndarray)
    (self : Pipeline) :
  _convert_to_numpy_array b true = Ok a ->
  all_isfinite a = true /\
  nan_to_num a = a /\
  sanitize_chunk a self = (Ok a, self).
Proof.
  intros H.
  assert (Hfin : all_isfinite a = true).
  { destruct (frombuffer_int16 (buffer_bytes b)) as [l|e] eqn:E.
    2: { unfold _convert_to_numpy_array in H. rewrite E in H. discriminate. }
    assert (Hnil : l <> []).
    { intros ->. unfold _convert_to_numpy_array in H. rewrite E in H.
      discriminate. }
    rewrite (convert_to_float_values b E Hnil) in H. inversion H; subst.
    pose proof (frombuffer_int16_values _ E) as Hl.
    cbn [all_isfinite]. apply forallb_forall. intros x Hx.
    destruct (existsb _ l); apply in_map_iff in Hx;
      destruct Hx as (z & <- & Hz);
      rewrite Forall_forall in Hl; apply (int16_sample_checked (Hl z Hz)). }
  split; [exact Hfin|]. split; [now apply nan_to_num_finite|].
  rewrite sanitize_chunk_eq, Hfin, nan_to_num_finite by exact Hfin.
  reflexivity.
Qed.

End ConversionResults.

(* ================================================================== *)
(** * Further properties of the orchestrator *)

Section DictUpdates.
Variable V : Type.
Implicit Types (d : dict V) (k : string).

Lemma dict_get_setitem_same d k v :
  In k (keys d) -> dict_get (dict_setitem d k v) k = Some v.
Proof.
  induction d as [|[k' v'] d IH]; simpl; [tauto|].
  intros H. destruct (String.eqb k k') eqn:E; simpl; rewrite E.
  - reflexivity.
  - apply IH. destruct H as [H|H]; [|exact H].
    apply String.eqb_neq in E. congruence.
Qed.

Lemma dict_get_setitem_other d k k' v :
  k' <> k -> dict_get (dict_setitem d k v) k' = dict_get d k'.
Proof.
  intros Hne. induction d as [|[k0 v0] d IH]; simpl.
  - apply String.eqb_neq in Hne. rewrite Hne. reflexivity.
  - destruct (String.eqb k k0) eqn:E; simpl.
    + apply String.eqb_eq in E. subst k0.
      apply String.eqb_neq in Hne. rewrite Hne. reflexivity.
    + destruct (String.eqb k' k0); [reflexivity | exact IH].
Qed.
End DictUpdates.

Section AccumulationFacts.
Context {F : Type} {SF : Scalar F}.
Variables World Processed Lyrics : Type.
Variable collab : @Collaborators F World Processed Lyrics.
Local Abbreviation Pipeline := (@Pipeline F World Processed Lyrics).

Lemma accumulate_app (pre rest : dict F) (s : Pipeline) :
  fst (accumulate pre s) = Ok tt ->
  accumulate (pre ++ rest) s = accumulate rest (snd (accumulate pre s)).
Proof.
  revert s. induction pre as [|[k v] pre IH]; intros s; simpl.
  - reflexivity.
  - unfold bind, gets, lift, modify, dict_getitem. simpl.
    destruct (dict_get (cumulative_scores s) k) as [old|]; simpl.
    + apply IH.
    + discriminate.
Qed.

Lemma accumulate_unknown_head k v (post : dict F) (s : Pipeline) :
  ~ In k (keys (cumulative_scores s)) ->
  accumulate ((k, v) :: post) s = (Raise (KeyError k), s).
Proof.
  intros Hk. apply dict_get_None_iff in Hk. simpl.
  unfold bind, gets, lift, dict_getitem. simpl. rewrite Hk. reflexivity.
Qed.

(** the sums after a loop that ran to its end, name by name *)
Lemma accumulate_lookup (items : dict F) :
  forall s : Pipeline,
    NoDup (keys items) ->
    (forall k, In k (keys items) -> In k (keys (cumulative_scores s))) ->
    forall name,
      dict_get (cumulative_scores (snd (accumulate items s))) name
      = match dict_get items name with
        | Some value =>
            option_map (fun total => sc_add total value)
                       (dict_get (cumulative_scores s) name)
        | None => dict_get (cumulative_scores s) name
        end.
Proof.
  induction items as [|[k v] items IH]; intros s Hnd Hin name; simpl.
  - reflexivity.
  - inversion Hnd as [|? ? Hk Hnd']; subst.
    unfold bind, gets, lift, modify, dict_getitem. simpl.
    destruct (dict_get_Some_of_In (cumulative_scores s) k) as [old E].
    { apply Hin. simpl. auto. }
    rewrite E. simpl.
    rewrite IH; [|exact Hnd'|].
    2: { simpl. rewrite keys_dict_setitem by (eapply dict_get_In_keys; eauto).
         intros k' Hk'. apply Hin. simpl. auto. }
    simpl. destruct (String.eqb name k) eqn:En.
    + apply String.eqb_eq in En. subst name.
      assert (Hnone : dict_get items k = None)
        by (apply dict_get_None_iff; exact Hk).
      rewrite Hnone, E. simpl.
      apply dict_get_setitem_same. eapply dict_get_In_keys; eauto.
    + apply String.eqb_neq in En.
      rewrite dict_get_setitem_other by exact En. reflexivity.
Qed.

End AccumulationFacts.

Section AggregationResults.
Context {F : Type} {SF : Scalar F}.
Variables World Processed Lyrics : Type.
Variable collab : @Collaborators F World Processed Lyrics.
Local Abbreviation Pipeline := (@Pipeline F World Processed Lyrics).

(** X6.  A call that raises KeyError is not undone: the values of the
    ScoreVector that precede the unknown name have been added to the
    cumulative sums and stay added, while the chunk counter is as before.
    The state after the call is the state after accumulating those
    entries. *)
Theorem failed_accumulation_is_not_rolled_back
    (self s1 : Pipeline) (c : Buffer) (pre post : dict F) k v :
  chunk_scores collab c self = (Ok (pre ++ (k, v) :: post), s1) ->
  NoDup (keys pre) ->
  (forall k', In k' (keys pre) -> In k' (keys (cumulative_scores self))) ->
  ~ In k (keys (cumulative_scores self)) ->
  process_and_score collab c self
  = (Raise (KeyError k), snd (accumulate pre s1)) /\
  chunk_count (snd (accumulate pre s1)) = chunk_count self /\
  forall name value total,
    dict_get pre name = Some value ->
    dict_get (cumulative_scores self) name = Some total ->
    dict_get (cumulative_scores (snd (accumulate pre s1))) name
    = Some (sc_add total value).
Proof.
  intros Hscores Hnd Hpre Hk.
  pose proof (chunk_scores_effect collab c self Hscores)
    as (_ & _ & _ & _ & _ & _ & Hcum & Hcount & _).
  assert (Hpre1 : forall k', In k' (keys pre) ->
                             In k' (keys (cumulative_scores s1)))
    by (rewrite Hcum; exact Hpre).
  pose proof (accumulate_ok pre s1 Hpre1) as Hok.
  pose proof (accumulate_frame pre s1) as Hfr. simpl in Hfr.
  destruct Hfr as (_ & _ & _ & _ & _ & Hcnt & _ & _ & Hkeys).
  split; [|split].
  - unfold process_and_score, bind. rewrite Hscores, aggregate_unfold.
    rewrite (accumulate_app pre ((k, v) :: post) s1 Hok).
    rewrite accumulate_unknown_head; [reflexivity|].
    rewrite Hkeys, Hcum. exact Hk.
  - congruence.
  - intros name value total Hv Ht.
    rewrite (accumulate_lookup pre s1 Hnd Hpre1), Hv, Hcum, Ht. reflexivity.
Qed.

(** X7.  A call that returns adds the ScoreVector to the cumulative sums
    name by name: a name of the ScoreVector has its sum increased by the
    chunk's value, every other name keeps its sum, and the counter goes up
    by one. *)
Theorem returned_call_adds_each_score
    (self s1 : Pipeline) (c : Buffer) (scores : dict F) :
  chunk_scores collab c self = (Ok scores, s1) ->
  NoDup (keys scores) ->
  (forall k, In k (keys scores) -> In k (keys (cumulative_scores self))) ->
  let after := snd (process_and_score collab c self) in
  is_ok (fst (process_and_score collab c self)) = true /\
  chunk_count after = chunk_count self + 1 /\
  forall name,
    dict_get (cumulative_scores after) name
    = match dict_get scores name with
      | Some value =>
          option_map (fun total => sc_add total value)
                     (dict_get (cumulative_scores self) name)
      | None => dict_get (cumulative_scores self) name
      end.
Proof.
  intros Hscores Hnd Hin.
  pose proof (chunk_scores_effect collab c self Hscores)
    as (_ & _ & _ & _ & _ & _ & Hcum & Hcount & _).
  assert (Hin1 : forall k, In k (keys scores) ->
                           In k (keys (cumulative_scores s1)))
    by (rewrite Hcum; exact Hin).
  pose proof (accumulate_ok scores s1 Hin1) as Hok.
  pose proof (accumulate_lookup scores s1 Hnd Hin1) as Hlook.
  pose proof (accumulate_frame scores s1) as Hfr. simpl in Hfr.
  destruct Hfr as (_ & _ & _ & _ & _ & Hcnt & _).
  unfold process_and_score, bind. rewrite Hscores, aggregate_unfold.
  destruct (accumulate scores s1) as [[[]|e] s2]; simpl in *;
    [|discriminate].
  split; [reflexivity|]. split; [congruence|].
  intros name. rewrite Hlook, Hcum. reflexivity.
Qed.

(** X8.  [final_score] right after a call that returned reports the running
    average that call returned. *)
Theorem final_score_repeats_running_average
    (self after : Pipeline) (c : Buffer) score average feedback :
  process_and_score collab c self = (Ok (score, average, feedback), after) ->
  fst (final_score after)
  = Ok (average, _generate_feedback after (cumulative_scores after)).
Proof.
  unfold process_and_score, bind.
  destruct (chunk_scores collab c self) as [[scores|e] s1]; [|discriminate].
  rewrite aggregate_unfold.
  destruct (accumulate scores s1) as [[[]|e] s2]; [|discriminate].
  cbv zeta. intros H. inversion H; subst. clear H.
  unfold final_score, bind, gets, lift, ret. simpl.
  rewrite Nat.add_1_r. simpl. reflexivity.
Qed.

End AggregationResults.

Section FeedbackResults.
Context {F : Type} {SF : Scalar F}.
Variables World Processed Lyrics : Type.
Variable collab : @Collaborators F World Processed Lyrics.
Local Abbreviation Pipeline := (@Pipeline F World Processed Lyrics).

Lemma feedback_loop_some (catalog : dict FeedbackMessages) (scores : dict F) m :
  feedback_loop catalog scores = Some m ->
  exists name msgs value,
    In (name, msgs) catalog /\ dict_get scores name = Some value /\
    m = (if sc_ge_0_8 value then high msgs else low msgs).
Proof.
  induction catalog as [|[name msgs] catalog IH]; simpl; [discriminate|].
  destruct (dict_get scores name) as [value|] eqn:E.
  - intros H. inversion H; subst. exists name, msgs, value. auto.
  - intros H. destruct (IH H) as (n & ms & v & Hin & Hv & Hm).
    exists n, ms, v. auto.
Qed.

Lemma feedback_loop_none_inv (catalog : dict FeedbackMessages) (scores : dict F) :
  feedback_loop catalog scores = None ->
  forall k, In k (keys catalog) -> dict_get scores k = None.
Proof.
  induction catalog as [|[name msgs] catalog IH]; simpl; [tauto|].
  destruct (dict_get scores name) as [value|] eqn:E; [discriminate|].
  intros H k [<-|Hk]; [exact E | now apply IH].
Qed.

(** X9.  The feedback is never invented: a returned message is the "high"
    or the "low" message of a catalog entry whose name the ScoreVector
    holds, chosen by that name's value; and feedback is absent only when no
    catalog name is in the ScoreVector. *)
Theorem feedback_comes_from_a_scored_catalog_entry
    (self : Pipeline) (scores : dict F) :
  (forall m,
      _generate_feedback self scores = Some m ->
      exists name msgs value,
        In (name, msgs) (FEEDBACK_MESSAGES (config self)) /\
        dict_get scores name = Some value /\
        m = (if sc_ge_0_8 value then high msgs else low msgs))
  /\
  (_generate_feedback self scores = None <->
   forall k, In k (keys (FEEDBACK_MESSAGES (config self))) ->
             dict_get scores k = None).
Proof.
  unfold _generate_feedback. split.
  - intros m. apply feedback_loop_some.
  - split; [apply feedback_loop_none_inv | apply feedback_loop_none].
Qed.

(** X10.  [final_score] selects its feedback on the cumulative sums, which
    hold all five names from construction on.  So in every state a session
    reaches with a positive counter, the first catalog name among the five
    decides, by comparing its sum (not its average) with 0.8, whether or
    not that score was ever produced. *)
Theorem final_feedback_is_decided_by_cumulative_sums
    (w : World) sr0 weights pipes cfg (chunks : list Buffer)
    pre name msgs post :
  let self := snd (session collab chunks
                     (__init__ Processed Lyrics w sr0 weights pipes cfg)) in
  FEEDBACK_MESSAGES cfg = pre ++ (name, msgs) :: post ->
  (forall k, In k (keys pre) -> ~ In k score_names) ->
  In name score_names ->
  0 < chunk_count self ->
  exists total average,
    dict_get (cumulative_scores self) name = Some total /\
    fst (final_score self)
    = Ok (average, Some (if sc_ge_0_8 total then high msgs else low msgs)).
Proof.
  intros self Hcat Hpre Hname Hpos. subst self.
  destruct (session collab chunks
              (__init__ Processed Lyrics w sr0 weights pipes cfg))
    as [rs s] eqn:E.
  apply session_effect in E. destruct E as (_ & Hcfg & Hkeys & _).
  simpl in Hcfg. simpl snd in *.
  assert (Hk : keys (cumulative_scores s) = score_names) by exact Hkeys.
  destruct (dict_get_Some_of_In (cumulative_scores s) name) as [total Ht].
  { rewrite Hk. exact Hname. }
  exists total.
  exists (sc_div_count (_calculate_weighted_score s (cumulative_scores s))
            (chunk_count s)).
  split; [exact Ht|].
  unfold final_score, bind, gets, lift, ret. simpl.
  destruct (chunk_count s) as [|n]; [lia|]. simpl.
  unfold _generate_feedback. rewrite Hcfg, Hcat.
  rewrite (@feedback_loop_first F SF pre post name msgs
             (cumulative_scores s) total); [reflexivity| |exact Ht].
  intros k Hin. apply dict_get_None_iff. rewrite Hk. now apply Hpre.
Qed.

End FeedbackResults.

Section WeightResults.
Context {F : Type} {SF : Scalar F}.
Variables World Processed Lyrics : Type.
Local Abbreviation Pipeline := (@Pipeline F World Processed Lyrics).

Lemma weighted_terms_app (W : dict F) (l1 l2 : dict F) :
  weighted_terms W (l1 ++ l2) = weighted_terms W l1 ++ weighted_terms W l2.
Proof. unfold weighted_terms. apply flat_map_app. Qed.

Lemma weighted_terms_ext (W1 W2 : dict F) (scores : dict F) :
  (forall k, In k (keys scores) -> dict_get W1 k = dict_get W2 k) ->
  weighted_terms W1 scores = weighted_terms W2 scores.
Proof.
  induction scores as [|[k v] scores IH]; intros H; [reflexivity|].
  unfold weighted_terms in *. cbn [flat_map fst snd].
  rewrite (H k) by (simpl; auto). f_equal. apply IH.
  intros k' Hk'. apply H. simpl. auto.
Qed.

(** X11.  The composite score only looks at the weights of the names the
    ScoreVector holds: two orchestrators whose weights agree on those names
    compute the same composite, so a weight for a name that is not scored
    changes nothing and raises nothing; an entry of the ScoreVector without
    a weight can be dropped, whatever its value; and without any weight the
    composite is zero. *)
Theorem composite_ignores_what_is_not_paired
    (self self' : Pipeline) (scores before behind : dict F) name value :
  ((forall k, In k (keys scores) ->
              dict_get (score_weights self) k = dict_get (score_weights self') k) ->
   _calculate_weighted_score self scores
   = _calculate_weighted_score self' scores)
  /\
  (dict_get (score_weights self) name = None ->
   _calculate_weighted_score self (before ++ (name, value) :: behind)
   = _calculate_weighted_score self (before ++ behind))
  /\
  (score_weights self = [] ->
   _calculate_weighted_score self scores = sc_zero).
Proof.
  rewrite !weighted_score_composite_spec. unfold composite_spec.
  split; [|split].
  - intros H. rewrite (weighted_terms_ext _ _ scores H). reflexivity.
  - intros H. rewrite !weighted_terms_app. f_equal. f_equal.
    unfold weighted_terms at 1. cbn [flat_map fst snd]. rewrite H.
    reflexivity.
  - intros H. rewrite H.
    assert (Hnil : weighted_terms [] scores = []).
    { induction scores as [|[k v] scores IH]; [reflexivity|].
      unfold weighted_terms in *. cbn [flat_map fst snd dict_get].
      exact IH. }
    rewrite Hnil. reflexivity.
Qed.

End WeightResults.

Section CallOrder.
Context {F : Type} {SF : Scalar F}.
Variables World Processed Lyrics : Type.
Variable collab : @Collaborators F World Processed Lyrics.
Local Abbreviation Pipeline := (@Pipeline F World Processed Lyrics).
Local Abbreviation M := (@M F World Processed Lyrics).
Local Abbreviation Event := (@Event F Processed Lyrics).

Lemma preprocess_calls_cons audio rate reference_audio steps stepss
    (p : Processed) answers :
  @preprocess_calls F Processed Lyrics audio rate reference_audio
    (steps :: stepss) (p :: answers)
  = EvCall (PreprocessAudio audio steps rate reference_audio) (Ok p)
    :: preprocess_calls audio rate reference_audio stepss answers.
Proof. reflexivity. Qed.

(** The comprehension, outcome by outcome.  When it returns, every
    sub-pipeline has steps for the role, the preprocessor was called once
    per sub-pipeline, in order, and the result holds the answers under the
    sub-pipelines' names.  When it raises, it stopped at one sub-pipeline,
    after the calls for those before it: either that sub-pipeline has no
    steps for the role, which is a KeyError and no call, or the call for it
    raised. *)
Lemma preprocess_loop_outcome items audio t reference_audio :
  forall s : Pipeline,
    match preprocess_loop collab items audio t reference_audio s with
    | (Ok processed, s') =>
        exists stepss,
          role_steps items t = map Some stepss /\
          keys processed = keys items /\
          events s'
          = events s ++ preprocess_calls audio (sr s) reference_audio stepss
                          (map snd processed)
    | (Raise e, s') =>
        exists pre name pipeline post stepss answers,
          items = pre ++ (name, pipeline) :: post /\
          role_steps pre t = map Some stepss /\
          List.length answers = List.length pre /\
          ((dict_get pipeline t = None /\ e = KeyError t /\
            events s'
            = events s ++ preprocess_calls audio (sr s) reference_audio
                            stepss answers)
           \/
           (exists steps,
               dict_get pipeline t = Some steps /\
               events s'
               = events s
                 ++ preprocess_calls audio (sr s) reference_audio stepss answers
                 ++ [EvCall (PreprocessAudio audio steps (sr s) reference_audio)
                       (Raise e)]))
    end.
Proof.
  induction items as [|[name pipeline] items IH]; intros s.
  - simpl. exists []. simpl. rewrite app_nil_r. auto.
  - cbn [preprocess_loop]. unfold bind at 1. unfold lift, dict_getitem.
    destruct (dict_get pipeline t) as [steps|] eqn:Esteps.
    2:{ exists [], name, pipeline, items, [], []. simpl.
        rewrite app_nil_r. split; [reflexivity|]. split; [reflexivity|].
        split; [reflexivity|]. left. auto. }
    unfold bind at 1. unfold gets at 1. unfold bind at 1. unfold call at 1.
    cbn [perform].
    destruct (preprocess_audio collab audio steps (sr s) reference_audio
                (world s)) as [[p|e] w] eqn:Ecall.
    2:{ exists [], name, pipeline, items, [], []. simpl.
        split; [reflexivity|]. split; [reflexivity|].
        split; [reflexivity|]. right. exists steps. auto. }
    match goal with
    | |- context [bind (preprocess_loop _ _ _ _ _) _ ?t] =>
        set (s1 := t); specialize (IH s1)
    end.
    assert (Hev : events s1
                  = events s
                    ++ [EvCall (PreprocessAudio audio steps (sr s)
                                  reference_audio) (Ok p)])
      by reflexivity.
    assert (Hsr : sr s1 = sr s) by reflexivity.
    unfold bind at 1.
    destruct (preprocess_loop collab items audio t reference_audio s1)
      as [[ps|e] s2].
    + destruct IH as (stepss & I1 & I2 & I3).
      unfold ret. exists (steps :: stepss).
      unfold role_steps in *. cbn [map snd fst keys]. rewrite Esteps, I1.
      split; [reflexivity|]. split; [unfold keys in I2; rewrite I2; reflexivity|].
      cbn [events]. rewrite I3, Hev, Hsr, preprocess_calls_cons.
      rewrite <- app_assoc. reflexivity.
    + destruct IH as (pre & n' & p' & post & stepss & answers
                      & I1 & I2 & I3 & I4).
      exists ((name, pipeline) :: pre), n', p', post, (steps :: stepss),
        (p :: answers).
      split; [rewrite I1; reflexivity|].
      split; [unfold role_steps in *; cbn [map snd]; rewrite Esteps, I2;
              reflexivity|].
      split; [simpl; rewrite I3; reflexivity|].
      rewrite preprocess_calls_cons.
      destruct I4 as [(J1 & J2 & J3)|(steps' & J1 & J3)]; [left|right].
      * split; [exact J1|]. split; [exact J2|].
        rewrite J3, Hev, Hsr, <- app_assoc. reflexivity.
      * exists steps'. split; [exact J1|].
        rewrite J3, Hev, Hsr, <- app_assoc. reflexivity.
Qed.

(** X12.  [_preprocess_audio] calls the preprocessor once per sub-pipeline,
    in the order of [pipelines], each time with the audio it was given, the
    step list the sub-pipeline has for the requested role, the sample rate
    and the reference audio, and returns the answers under the
    sub-pipelines' names.  It raises in two cases only, having called the
    preprocessor for the sub-pipelines before: KeyError for the role when a
    sub-pipeline has no steps for it, without calling the preprocessor for
    that sub-pipeline, and whatever a call of the preprocessor raises.  In
    every case the statistics and the alignment flag are not touched. *)
Theorem preprocessing_calls_each_pipeline_in_order
    audio (audio_type : string) reference_audio (self : Pipeline) :
  untouched self
    (snd (_preprocess_audio collab audio audio_type reference_audio self)) /\
  match _preprocess_audio collab audio audio_type reference_audio self with
  | (Ok processed, after) =>
      exists stepss,
        role_steps (pipelines self) audio_type = map Some stepss /\
        keys processed = keys (pipelines self) /\
        events after
        = events self
          ++ preprocess_calls audio (sr self) reference_audio stepss
               (map snd processed)
  | (Raise e, after) =>
      exists pre name pipeline post stepss answers,
        pipelines self = pre ++ (name, pipeline) :: post /\
        role_steps pre audio_type = map Some stepss /\
        List.length answers = List.length pre /\
        ((dict_get pipeline audio_type = None /\ e = KeyError audio_type /\
          events after
          = events self
            ++ preprocess_calls audio (sr self) reference_audio stepss answers)
         \/
         (exists steps,
             dict_get pipeline audio_type = Some steps /\
             events after
             = events self
               ++ preprocess_calls audio (sr self) reference_audio stepss
                    answers
               ++ [EvCall (PreprocessAudio audio steps (sr self)
                             reference_audio) (Raise e)]))
  end.
Proof.
  split; [apply _preprocess_audio_untouched|].
  unfold _preprocess_audio, bind, gets.
  apply preprocess_loop_outcome.
Qed.

Lemma _preprocess_audio_returns audio t reference_audio (s s' : Pipeline)
    processed :
  _preprocess_audio collab audio t reference_audio s = (Ok processed, s') ->
  untouched s s' /\
  exists stepss,
    role_steps (pipelines s) t = map Some stepss /\
    keys processed = keys (pipelines s) /\
    events s'
    = events s ++ preprocess_calls audio (sr s) reference_audio stepss
                    (map snd processed).
Proof.
  intros H.
  pose proof (_preprocess_audio_untouched collab audio t reference_audio s) as U.
  rewrite H in U. split; [exact U|].
  pose proof (preprocess_loop_outcome (pipelines s) audio t reference_audio s)
    as O.
  unfold _preprocess_audio, bind, gets in H. rewrite H in O. exact O.
Qed.

Lemma ndarray_len_nan_to_num a : ndarray_len (nan_to_num a) = ndarray_len a.
Proof. destruct a; simpl; rewrite ?length_map; reflexivity. Qed.

Lemma call_returns (q : @Request Processed Lyrics) (s s' : Pipeline)
    (a : @Response F Processed Lyrics q) :
  call collab q s = (Ok a, s') ->
  s' = set_world (snd (perform collab q (world s)))
         (record_event (EvCall q (Ok a)) s).
Proof.
  unfold call. destruct (perform collab q (world s)) as [r w].
  intros H. inversion H; subst. reflexivity.
Qed.

(** a [score_chunk] that returns *)
Lemma score_chunk_returns a o r (s s' : Pipeline) scores :
  score_chunk collab a o r s = (Ok scores, s') ->
  exists stepss_chunk stepss_original pc po lyrics,
    role_steps (pipelines s) "chunk" = map Some stepss_chunk /\
    role_steps (pipelines s) "original" = map Some stepss_original /\
    keys pc = keys (pipelines s) /\ keys po = keys (pipelines s) /\
    events s'
    = events s
      ++ preprocess_calls a (sr s) r stepss_chunk (map snd pc)
      ++ preprocess_calls o (sr s) r stepss_original (map snd po)
      ++ [EvCall GetLyrics (Ok lyrics);
          EvCall (ProcessAudioChunk pc po lyrics (sr s)) (Ok scores);
          EvLogInfo scores].
Proof.
  unfold score_chunk. intros H.
  apply bind_ok_inv in H. destruct H as (pc & s1 & Hc & H).
  apply bind_ok_inv in H. destruct H as (po & s2 & Ho & H).
  apply bind_ok_inv in H. destruct H as (scores' & s3 & Hs & H).
  unfold bind, logging, modify, ret in H. inversion H; subst. clear H.
  apply _preprocess_audio_returns in Hc.
  destruct Hc as (U1 & stepss_c & C1 & C2 & C3).
  apply _preprocess_audio_returns in Ho.
  destruct Ho as (U2 & stepss_o & O1 & O2 & O3).
  destruct U1 as (S1 & _ & P1 & _). destruct U2 as (S2 & _ & P2 & _).
  unfold _compute_scores in Hs.
  apply bind_ok_inv in Hs. destruct Hs as (lyrics & s4 & Hl & Hs).
  apply bind_ok_inv in Hs. destruct Hs as (rate & s5 & Hr & Hs).
  unfold gets in Hr. inversion Hr; subst. clear Hr.
  apply (@call_returns GetLyrics) in Hl.
  match type of Hs with
  | call _ ?q _ = _ => apply (@call_returns q) in Hs
  end.
  subst s3 s5.
  exists stepss_c, stepss_o, pc, po, lyrics.
  rewrite P1 in O1, O2.
  split; [exact C1|]. split; [exact O1|]. split; [exact C2|].
  split; [exact O2|].
  cbn [events set_world record_event sr]. rewrite O3, C3, S2, S1.
  rewrite <- !app_assoc. reflexivity.
Qed.

(** X13.  A call that reaches the scoring has talked to the outside in this
    order and no other: the alignment with the chunk (only when the flag was
    down), the log record for non-finite samples (only if the chunk had
    some), one segment request for twice the number of samples of the
    chunk; then, with the two buffers that request returned converted, the
    preprocessing of the sanitized chunk per sub-pipeline under the role
    "chunk" and the preprocessing of the converted original segment per
    sub-pipeline under the role "original", each with the converted
    reference audio; then the lyrics, the scorer on the answers of the
    preprocessor and the lyrics, and the log record of the scores it
    returned.  The aggregation that follows calls nothing. *)
Theorem scoring_calls_in_order
    (c : Buffer) (self s1 : Pipeline) (scores : dict F) :
  chunk_scores collab c self = (Ok scores, s1) ->
  exists a0 b1 b2 original_segment reference_audio
         stepss_chunk stepss_original pc po lyrics,
    match c with
    | NdArray a => a0 = a
    | PyBytes _ => _convert_to_numpy_array c true = Ok a0
    end /\
    _convert_to_numpy_array b1 true = Ok original_segment /\
    _convert_to_numpy_array b2 true = Ok reference_audio /\
    role_steps (pipelines self) "chunk" = map Some stepss_chunk /\
    role_steps (pipelines self) "original" = map Some stepss_original /\
    keys pc = keys (pipelines self) /\ keys po = keys (pipelines self) /\
    events s1
    = events self
      ++ (if initialized self then []
          else [EvCall (AlignAudio c) (Ok tt)])
      ++ (if all_isfinite a0 then []
          else [EvLogError "Audio chunk contains non-finite values!"])
      ++ [EvCall (GetNextSegment (ndarray_len (nan_to_num a0) * 2))
            (Ok (b1, b2))]
      ++ preprocess_calls (nan_to_num a0) (sr self) reference_audio
           stepss_chunk (map snd pc)
      ++ preprocess_calls original_segment (sr self) reference_audio
           stepss_original (map snd po)
      ++ [EvCall GetLyrics (Ok lyrics);
          EvCall (ProcessAudioChunk pc po lyrics (sr self)) (Ok scores);
          EvLogInfo scores] /\
    events (snd (process_and_score collab c self)) = events s1.
Proof.
  intros H.
  assert (Hagg : events (snd (process_and_score collab c self)) = events s1).
  { unfold process_and_score, bind. rewrite H, aggregate_unfold.
    pose proof (accumulate_frame scores s1) as A. simpl in A.
    destruct (accumulate scores s1) as [[[]|e] s2]; simpl in *; tauto. }
  unfold chunk_scores in H.
  apply bind_ok_inv in H. destruct H as ([] & sa & Ha & H).
  apply bind_ok_inv in H. destruct H as (a0 & sa' & Hn & H).
  apply bind_ok_inv in H. destruct H as (a1 & sb & Hs & H).
  apply bind_ok_inv in H. destruct H as (refs & sc & Hf & H).
  (* the alignment paragraph *)
  assert (A : events sa
              = events self
                ++ (if initialized self then []
                    else [EvCall (AlignAudio c) (Ok tt)])
              /\ sr sa = sr self /\ pipelines sa = pipelines self).
  { rewrite align_once_eq in Ha. destruct (initialized self).
    - inversion Ha; subst. rewrite app_nil_r. auto.
    - cbv zeta in Ha.
      destruct (align_audio collab c (world self)) as [[[]|e] w];
        cbn [fst snd] in Ha; inversion Ha; subst. simpl. auto. }
  destruct A as (A1 & A2 & A3).
  (* the chunk as an array *)
  assert (N : sa' = sa /\
              match c with
              | NdArray a => a0 = a
              | PyBytes _ => _convert_to_numpy_array c true = Ok a0
              end).
  { destruct c as [d|a]; simpl normalize_chunk in Hn.
    - unfold lift in Hn. inversion Hn; subst. auto.
    - unfold ret in Hn. inversion Hn; subst. auto. }
  destruct N as (-> & N).
  rewrite sanitize_chunk_eq in Hs. inversion Hs; subst a1 sb. clear Hs.
  rewrite fetch_reference_eq in Hf. cbv zeta in Hf.
  destruct (get_next_segment collab (ndarray_len (nan_to_num a0) * 2)
              (world (if all_isfinite a0 then sa
                      else record_event
                             (EvLogError
                                "Audio chunk contains non-finite values!") sa)))
    as [[[b1 b2]|e] w'] eqn:Eseg; cbn [fst snd rbind] in Hf;
    [|discriminate].
  destruct (_convert_to_numpy_array b1 true) as [o|e] eqn:E1;
    cbn [rbind] in Hf; [|discriminate].
  destruct (_convert_to_numpy_array b2 true) as [r|e] eqn:E2;
    cbn [rbind] in Hf; [|discriminate].
  inversion Hf; subst refs sc. clear Hf. cbn [fst snd] in H.
  apply score_chunk_returns in H.
  destruct H as (stepss_c & stepss_o & pc & po & lyrics
                 & R1 & R2 & R3 & R4 & R5).
  assert (B : events (if all_isfinite a0 then sa
                      else record_event
                             (EvLogError
                                "Audio chunk contains non-finite values!") sa)
              = events sa
                ++ (if all_isfinite a0 then []
                    else [EvLogError "Audio chunk contains non-finite values!"])
              /\ sr (if all_isfinite a0 then sa
                     else record_event
                            (EvLogError
                               "Audio chunk contains non-finite values!") sa)
                 = sr sa
              /\ pipelines (if all_isfinite a0 then sa
                            else record_event
                                   (EvLogError
                                      "Audio chunk contains non-finite values!")
                                   sa)
                 = pipelines sa).
  { destruct (all_isfinite a0); simpl; rewrite ?app_nil_r; auto. }
  destruct B as (B1 & B2 & B3).
  cbn [events set_world record_event sr pipelines] in R1, R2, R3, R4, R5.
  exists a0, b1, b2, o, r, stepss_c, stepss_o, pc, po, lyrics.
  split; [exact N|]. split; [exact E1|]. split; [exact E2|].
  rewrite B3, A3 in R1, R2, R3, R4.
  split; [exact R1|]. split; [exact R2|]. split; [exact R3|].
  split; [exact R4|]. split; [|exact Hagg].
  rewrite R5, B1, B2, A1, A2. rewrite <- !app_assoc. reflexivity.
Qed.

End CallOrder.

Section FailedAndResetCalls.
Context {F : Type} {SF : Scalar F}.
Variables World Processed Lyrics : Type.
Variable collab : @Collaborators F World Processed Lyrics.
Local Abbreviation Pipeline := (@Pipeline F World Processed Lyrics).

(** once the flag is up no session calls the alignment *)
Lemma aligned_session_never_aligns chunks (s : Pipeline) :
  initialized s = true ->
  align_calls (snd (session collab chunks s)) = align_calls s /\
  initialized (snd (session collab chunks s)) = true.
Proof.
  intros Hi.
  destruct (session collab chunks s) as [rs s'] eqn:E.
  pose proof (session_effect collab chunks s E)
    as (_ & _ & _ & _ & _ & Ha & Hinit).
  simpl. rewrite Hi in Ha. split.
  - rewrite Ha. apply app_nil_r.
  - apply Hinit. exact Hi.
Qed.

(** X14.  A bytes chunk the conversion refuses (an odd number of bytes, or
    none) meets the alignment first.  When the alignment paragraph returns,
    the call raises ValueError right after it: the state the call leaves is
    the state after [align_once], so on a new orchestrator the refused
    chunk has been used for the one-time alignment, no segment has been
    requested, the statistics are unchanged, and no later chunk is aligned.
    When the alignment itself raises, the call raises that exception, the
    flag stays down, and the calls that follow try the alignment again,
    each with its own chunk. *)
Theorem refused_chunk_still_uses_the_alignment
    (d : list byte) (self : Pipeline) :
  Nat.even (List.length d) = false \/ d = [] ->
  let answer := fst (align_audio collab (PyBytes d) (world self)) in
  let after := snd (align_once collab (PyBytes d) self) in
  (initialized self = true \/ answer = Ok tt ->
   (exists msg,
       process_and_score collab (PyBytes d) self
       = (Raise (ValueError msg), after))
   /\ initialized after = true
   /\ events after
      = events self
        ++ (if initialized self then []
            else [EvCall (AlignAudio (PyBytes d)) (Ok tt)])
   /\ cumulative_scores after = cumulative_scores self
   /\ chunk_count after = chunk_count self
   /\ forall chunks,
        align_calls (snd (session collab chunks after)) = align_calls after)
  /\
  (initialized self = false ->
   forall e,
     answer = Raise e ->
     process_and_score collab (PyBytes d) self = (Raise e, after)
     /\ initialized after = false
     /\ events after
        = events self ++ [EvCall (AlignAudio (PyBytes d)) (Raise e)]
     /\ cumulative_scores after = cumulative_scores self
     /\ chunk_count after = chunk_count self
     /\ forall chunks,
          align_calls (snd (session collab chunks after))
          = align_calls after
            ++ alignment_attempts collab chunks (world after)).
Proof.
  intros Hbad answer after.
  assert (Hconv : exists msg,
             _convert_to_numpy_array (PyBytes d) true = Raise (ValueError msg)).
  { destruct Hbad as [Hodd| ->].
    - eexists. unfold _convert_to_numpy_array. cbn [buffer_bytes].
      rewrite (frombuffer_int16_odd _ Hodd). reflexivity.
    - eexists. reflexivity. }
  destruct Hconv as (msg & Hconv).
  split.
  - intros Hret.
    assert (Ha : align_once collab (PyBytes d) self = (Ok tt, after)
                 /\ initialized after = true
                 /\ events after
                    = events self
                      ++ (if initialized self then []
                          else [EvCall (AlignAudio (PyBytes d)) (Ok tt)])
                 /\ cumulative_scores after = cumulative_scores self
                 /\ chunk_count after = chunk_count self).
    { subst after answer. rewrite align_once_eq.
      destruct (initialized self) eqn:Hi.
      - simpl. rewrite app_nil_r. auto.
      - destruct Hret as [Hret|Hret]; [discriminate|].
        cbv zeta. rewrite Hret. simpl. auto. }
    destruct Ha as (Ha & Hi & Hev & Hcum & Hn).
    split; [|repeat split; try assumption].
    + exists msg. rewrite process_and_score_eq. unfold bind at 1.
      rewrite Ha. unfold bind at 1. cbn [normalize_chunk]. unfold lift.
      rewrite Hconv. reflexivity.
    + intros chunks. apply aligned_session_never_aligns. exact Hi.
  - intros Hi e He. subst answer after.
    rewrite (process_and_score_alignment_raises collab (PyBytes d) self Hi He).
    rewrite align_once_eq, Hi. cbv zeta. rewrite He. cbn [fst snd].
    repeat split; [exact Hi|].
    intros chunks.
    match goal with
    | |- context [session collab chunks ?t] =>
        destruct (session collab chunks t) as [rs s'] eqn:E;
        pose proof (session_effect collab chunks t E)
          as (_ & _ & _ & _ & _ & Ha & _)
    end.
    simpl in Ha. rewrite Hi in Ha. exact Ha.
Qed.

(** X15.  [_reset_scores] puts the statistics back to what construction
    made them, five zero sums and a zero counter, and nothing else:
    [get_average_scores] raises ZeroDivisionError again, and so does
    [final_score] when the weights are Python numbers, while the alignment
    flag and the events stay, so an orchestrator that was aligned is not
    aligned again by the calls that follow a reset. *)
Theorem reset_restarts_statistics_only {ST : ScalarTyping F} (self : Pipeline) :
  let after := snd (_reset_scores self) in
  fst (_reset_scores self) = Ok tt /\
  cumulative_scores after = map (fun name => (name, sc_zero)) score_names /\
  chunk_count after = 0 /\
  initialized after = initialized self /\
  events after = events self /\
  world after = world self /\
  (python_numbers (score_weights self) ->
   fst (final_score after) = Raise ZeroDivisionError) /\
  fst (get_average_scores after) = Raise ZeroDivisionError /\
  (initialized self = true ->
   forall chunks,
     align_calls (snd (session collab chunks after)) = align_calls self).
Proof.
  cbv zeta.
  assert (Hzero : python_numbers
                    (cumulative_scores (snd (_reset_scores self)))).
  { intros k v H. simpl in H.
    repeat (destruct H as [H|H]; [inversion H; subst; apply numpy_zero|]).
    contradiction. }
  repeat split.
  - intros Hw. unfold final_score, bind, gets, lift. cbn [fst snd chunk_count].
    simpl py_div.
    rewrite weighted_score_python; [reflexivity|exact Hw|exact Hzero].
  - unfold get_average_scores, bind, gets, lift. simpl.
    rewrite numpy_zero. reflexivity.
  - intros Hi chunks.
    assert (Hi' : initialized (snd (_reset_scores self)) = true) by exact Hi.
    rewrite (proj1 (aligned_session_never_aligns chunks _ Hi')). reflexivity.
Qed.

(** X18.  An exception that comes before the accumulation, from a
    collaborator, from the conversion of a buffer or from a sub-pipeline
    without steps for a role, is the exception of the call, and the call
    leaves the statistics as they were: the cumulative sums and the counter
    are unchanged, and so are the averages a later query reports.  The
    alignment flag is up afterwards unless it was down and the exception
    came from the alignment itself. *)
Theorem exception_before_accumulation_leaves_statistics
    (c : Buffer) (self s1 : Pipeline) (e : exn) :
  chunk_scores collab c self = (Raise e, s1) ->
  process_and_score collab c self = (Raise e, s1) /\
  cumulative_scores s1 = cumulative_scores self /\
  chunk_count s1 = chunk_count self /\
  score_weights s1 = score_weights self /\
  fst (get_average_scores s1) = fst (get_average_scores self) /\
  fst (final_score s1) = fst (final_score self) /\
  (initialized s1 = false ->
   initialized self = false /\
   fst (align_audio collab c (world self)) = Raise e).
Proof.
  intros H.
  pose proof (chunk_scores_effect collab c self H)
    as (Hi & _ & _ & Hcfg & _ & Hw & Hcum & Hn & _).
  split; [unfold process_and_score, bind; rewrite H; reflexivity|].
  split; [exact Hcum|]. split; [exact Hn|]. split; [exact Hw|].
  split; [|split].
  - unfold get_average_scores, bind, gets, lift. simpl.
    rewrite Hcum, Hn. reflexivity.
  - unfold final_score, bind, gets, lift, ret, _calculate_weighted_score,
      _generate_feedback. simpl.
    rewrite Hcum, Hn, Hw, Hcfg. destruct (py_div _ _); reflexivity.
  - intros Hdown. rewrite Hdown in Hi. symmetry in Hi.
    apply orb_false_iff in Hi. destruct Hi as [Hself Hal].
    split; [exact Hself|].
    rewrite align_once_eq, Hself in Hal. cbv zeta in Hal.
    destruct (align_audio collab c (world self)) as [[[]|e'] w] eqn:Ea;
      cbn [fst snd is_ok] in Hal; [discriminate|].
    assert (Ha : fst (align_audio collab c (world self)) = Raise e')
      by (rewrite Ea; reflexivity).
    rewrite (chunk_scores_alignment_raises collab c self Hself Ha) in H.
    inversion H; subst. reflexivity.
Qed.

End FailedAndResetCalls.

Section NaNScores.
Variables World Processed Lyrics : Type.
Variable collab : @Collaborators spec_float World Processed Lyrics.
Local Abbreviation Pipeline := (@Pipeline spec_float World Processed Lyrics).

Lemma nan_add_l x : sc_add S754_nan x = S754_nan.
Proof. destruct x; reflexivity. Qed.

Lemma nan_add_r x : sc_add x S754_nan = S754_nan.
Proof. destruct x; reflexivity. Qed.

Lemma nan_mul_l w : sc_mul S754_nan w = S754_nan.
Proof. destruct w; reflexivity. Qed.

Lemma nan_div_count n : sc_div_count S754_nan n = S754_nan.
Proof.
  unfold sc_div_count, Scalar_float, B64.div, fl_div.
  destruct (B64.of_Z (Z.of_nat n)); reflexivity.
Qed.

Lemma weighted_loop_nan_acc (W scores : dict spec_float) :
  fold_left
    (fun weighted_score (item : string * spec_float) =>
       let (score_type, score_value) := item in
       match dict_get W score_type with
       | None => weighted_score
       | Some weight => sc_add weighted_score (sc_mul score_value weight)
       end) scores S754_nan
  = S754_nan.
Proof.
  induction scores as [|[k v] scores IH]; cbn [fold_left]; [reflexivity|].
  destruct (dict_get W k); [rewrite nan_add_l|]; exact IH.
Qed.

(** one weighted NaN entry makes the composite NaN *)
Lemma weighted_score_nan (self : Pipeline) (scores : dict spec_float) name w :
  dict_get (score_weights self) name = Some w ->
  In (name, S754_nan) scores ->
  _calculate_weighted_score self scores = S754_nan.
Proof.
  intros Hw Hin. unfold _calculate_weighted_score.
  generalize (@sc_zero spec_float Scalar_float) as acc.
  induction scores as [|[k v] scores IH]; intros acc; [contradiction|].
  cbn [fold_left]. destruct Hin as [Heq|Hin].
  - inversion Heq; subst. rewrite Hw, nan_mul_l, nan_add_r.
    apply weighted_loop_nan_acc.
  - apply IH. exact Hin.
Qed.

Lemma accumulate_keeps_nan (items : dict spec_float) name :
  forall s : Pipeline,
    dict_get (cumulative_scores s) name = Some S754_nan ->
    dict_get (cumulative_scores (snd (accumulate items s))) name
    = Some S754_nan.
Proof.
  induction items as [|[k v] items IH]; intros s H; [exact H|].
  cbn [accumulate]. unfold bind, gets, lift, modify, dict_getitem.
  destruct (dict_get (cumulative_scores s) k) as [old|] eqn:E;
    cbv beta iota; [|exact H].
  apply IH. cbn [cumulative_scores set_cumulative_scores].
  destruct (string_dec name k) as [->|Hne].
  - rewrite dict_get_setitem_same by (eapply dict_get_In_keys; eauto).
    rewrite E in H. inversion H; subst. rewrite nan_add_l. reflexivity.
  - rewrite dict_get_setitem_other by exact Hne. exact H.
Qed.

Lemma nan_call (c : Buffer) (s : Pipeline) name w :
  dict_get (score_weights s) name = Some w ->
  dict_get (cumulative_scores s) name = Some S754_nan ->
  let r := fst (process_and_score collab c s) in
  let s' := snd (process_and_score collab c s) in
  score_weights s' = score_weights s /\
  dict_get (cumulative_scores s') name = Some S754_nan /\
  match r with
  | Ok (_, average, _) => average = S754_nan
  | Raise _ => True
  end.
Proof.
  intros Hw Hnan. cbv zeta.
  unfold process_and_score, bind.
  destruct (chunk_scores collab c s) as [[scores|e] s1] eqn:E.
  - pose proof (chunk_scores_effect collab c s E)
      as (_ & _ & _ & _ & _ & Hw1 & Hcum & _ & _).
    rewrite aggregate_unfold.
    pose proof (accumulate_keeps_nan scores name s1) as K.
    rewrite Hcum in K. specialize (K Hnan).
    pose proof (accumulate_frame scores s1) as A. simpl in A.
    destruct A as (_ & _ & _ & A1 & _).
    destruct (accumulate scores s1) as [[[]|e] s2]; simpl in *.
    + split; [congruence|]. split; [exact K|].
      match goal with
      | |- context [_calculate_weighted_score ?X ?Y] =>
          rewrite (@weighted_score_nan X Y name w)
      end.
      * exact (nan_div_count (chunk_count s2 + 1)).
      * simpl. congruence.
      * apply dict_get_In_pair. exact K.
    + split; [congruence|]. split; [exact K|exact I].
  - pose proof (chunk_scores_effect collab c s E)
      as (_ & _ & _ & _ & _ & Hw1 & Hcum & _ & _).
    simpl. split; [exact Hw1|]. split; [congruence|exact I].
Qed.

(** X16.  With Python floats a NaN is never lost.  When a call that returns
    was given a ScoreVector with NaN under a name of the cumulative
    statistics, that name's sum is NaN afterwards; and from a state whose
    sum for a weighted name is NaN, every later call that returns reports a
    NaN running average, and so does [final_score]. *)
Theorem nan_score_poisons_the_running_average
    (self : Pipeline) name :
  (forall c scores s1,
      chunk_scores collab c self = (Ok scores, s1) ->
      NoDup (keys scores) ->
      (forall k, In k (keys scores) -> In k (keys (cumulative_scores self))) ->
      dict_get scores name = Some S754_nan ->
      dict_get (cumulative_scores (snd (process_and_score collab c self))) name
      = Some S754_nan)
  /\
  (forall w chunks,
      dict_get (score_weights self) name = Some w ->
      dict_get (cumulative_scores self) name = Some S754_nan ->
      averages_are_nan (fst (session collab chunks self)) /\
      forall average feedback,
        fst (final_score (snd (session collab chunks self)))
        = Ok (average, feedback) ->
        average = S754_nan).
Proof.
  split.
  - intros c scores s1 Hs Hnd Hin Hnan.
    pose proof (chunk_scores_effect collab c self Hs)
      as (_ & _ & _ & _ & _ & _ & Hcum & _ & _).
    assert (Hin1 : forall k, In k (keys scores) ->
                             In k (keys (cumulative_scores s1)))
      by (rewrite Hcum; exact Hin).
    pose proof (accumulate_lookup scores s1 Hnd Hin1 name) as L.
    pose proof (accumulate_ok scores s1 Hin1) as Hok.
    unfold process_and_score, bind. rewrite Hs, aggregate_unfold.
    destruct (accumulate scores s1) as [[[]|e] s2]; simpl in *;
      [|discriminate].
    rewrite L, Hnan.
    destruct (dict_get_Some_of_In (cumulative_scores s1) name) as [total Ht].
    { apply Hin1. eapply dict_get_In_keys; eauto. }
    rewrite Ht. simpl. rewrite nan_add_r. reflexivity.
  - intros w chunks. revert self.
    induction chunks as [|c chunks IH]; intros self Hw Hnan.
    + simpl. split; [constructor|].
      intros average feedback. unfold final_score, bind, gets, lift, ret.
      simpl. destruct (chunk_count self) as [|n]; simpl; [discriminate|].
      intros H. inversion H; subst.
      rewrite (@weighted_score_nan self (cumulative_scores self) name w
                 Hw (dict_get_In_pair _ _ Hnan)).
      exact (nan_div_count (S n)).
    + simpl. pose proof (@nan_call c self name w Hw Hnan) as N. cbv zeta in N.
      destruct (process_and_score collab c self) as [r s'].
      simpl in N. destruct N as (N1 & N2 & N3).
      rewrite <- N1 in Hw.
      destruct (IH s' Hw N2) as [I1 I2].
      destruct (session collab chunks s') as [rs s'']. simpl in *.
      split; [constructor; assumption | exact I2].
Qed.

End NaNScores.

Section ExactMean.
Variables World Processed Lyrics : Type.
Variable collab : @Collaborators Qc World Processed Lyrics.
Local Abbreviation Pipeline := (@Pipeline Qc World Processed Lyrics).

Lemma sum_of_composites_snoc (W : dict Qc) vectors scores :
  sum_of_composites W (vectors ++ [scores])
  = (sum_of_composites W vectors + composite_spec W scores)%Qc.
Proof.
  induction vectors as [|v vectors IH]; simpl.
  - ring.
  - rewrite IH. ring.
Qed.

(** one call, from a state whose weighted sums are the composites so far *)
Lemma mean_step (scores : dict Qc) (total : Qc) n (s s1 : Pipeline) c :
  (forall k, In k (keys scores) -> In k score_names) ->
  keys (cumulative_scores s) = score_names ->
  chunk_count s = n ->
  composite_spec (score_weights s) (cumulative_scores s) = total ->
  chunk_scores collab c s = (Ok scores, s1) ->
  let after := snd (process_and_score collab c s) in
  fst (process_and_score collab c s)
  = Ok (composite_spec (score_weights s) scores,
        ((total + composite_spec (score_weights s) scores)
         / Qc_of_nat (n + 1))%Qc,
        _generate_feedback s scores)
  /\ keys (cumulative_scores after) = score_names
  /\ chunk_count after = n + 1
  /\ score_weights after = score_weights s
  /\ config after = config s
  /\ composite_spec (score_weights s) (cumulative_scores after)
     = (total + composite_spec (score_weights s) scores)%Qc.
Proof.
  intros HS Hkeys Hcount Hsum Hscores.
  pose proof (chunk_scores_effect collab c s Hscores)
    as (_ & _ & _ & Hcfg & _ & Hw & Hcum & Hn & _).
  cbv zeta. unfold process_and_score, bind. rewrite Hscores, aggregate_unfold.
  destruct (accumulate_composite scores s1) as [A1 A2].
  { rewrite Hcum, Hkeys. exact HS. }
  pose proof (accumulate_frame scores s1) as A. simpl in A.
  destruct (accumulate scores s1) as [[[]|e] s2]; simpl in A1, A2, A;
    [|discriminate].
  destruct A as (_ & B0 & _ & B1 & _ & B2 & _ & _ & B3).
  simpl. rewrite !weighted_score_composite_spec. simpl.
  rewrite B1, Hw, A2, Hcum, Hsum, B2, Hn, Hcount.
  unfold _generate_feedback. rewrite Hcfg.
  repeat split; congruence.
Qed.

Lemma mean_session (run : list (Buffer * dict Qc)) :
  forall (vectors : list (dict Qc)) (s : Pipeline) c scores,
    (forall v, In v (map snd run ++ [scores]) ->
               forall k, In k (keys v) -> In k score_names) ->
    keys (cumulative_scores s) = score_names ->
    chunk_count s = List.length vectors ->
    composite_spec (score_weights s) (cumulative_scores s)
    = sum_of_composites (score_weights s) vectors ->
    yields_each collab (run ++ [(c, scores)]) s ->
    let self := snd (session collab (map fst run) s) in
    score_weights self = score_weights s /\
    fst (process_and_score collab c self)
    = Ok (composite_spec (score_weights s) scores,
          (sum_of_composites (score_weights s)
             (vectors ++ map snd run ++ [scores])
           / Qc_of_nat (List.length vectors + List.length run + 1))%Qc,
          _generate_feedback self scores).
Proof.
  induction run as [|[c0 v0] run IH];
    intros vectors s c scores Hnames Hkeys Hcount Hsum Hy;
    cbn [app map fst snd session] in *.
  - inversion Hy as [|? ? ? ? s1 Hc _]; subst.
    assert (HS : forall k, In k (keys scores) -> In k score_names)
      by (apply Hnames; left; reflexivity).
    destruct (@mean_step scores _ _ s s1 c HS Hkeys Hcount Hsum Hc) as (R & _).
    cbn [snd]. split; [reflexivity|]. rewrite R, sum_of_composites_snoc.
    cbn [List.length]. rewrite Nat.add_0_r. reflexivity.
  - inversion Hy as [|? ? ? ? s1 Hc Hrest]; subst.
    assert (HS0 : forall k, In k (keys v0) -> In k score_names)
      by (apply Hnames; left; reflexivity).
    destruct (@mean_step v0 _ _ s s1 c0 HS0 Hkeys Hcount Hsum Hc)
      as (_ & K1 & K2 & K3 & K4 & K5).
    destruct (process_and_score collab c0 s) as [r s'] eqn:Ep.
    cbn [snd] in K1, K2, K3, K4, K5, Hrest.
    assert (Hsum' : composite_spec (score_weights s') (cumulative_scores s')
                    = sum_of_composites (score_weights s') (vectors ++ [v0])).
    { rewrite K3, K5, sum_of_composites_snoc. reflexivity. }
    assert (Hcount' : chunk_count s' = List.length (vectors ++ [v0])).
    { rewrite K2, length_app. reflexivity. }
    specialize (IH (vectors ++ [v0]) s' c scores
                  (fun v Hv => Hnames v (or_intror Hv))
                  K1 Hcount' Hsum' Hrest).
    destruct (session collab (map fst run) s') as [rs s''] eqn:Es.
    cbn [snd] in *. destruct IH as (I1 & I2).
    split; [congruence|]. rewrite I2, K3.
    rewrite <- app_assoc, length_app. cbn [app List.length].
    replace (List.length vectors + 1 + List.length run + 1)
      with (List.length vectors + S (List.length run) + 1) by lia.
    reflexivity.
Qed.

(** X17.  Without rounding, the running average is the mean of the instant
    scores: on a new orchestrator, after chunks that yield ScoreVectors
    with names among the five, the call for the last chunk returns the
    composite of its ScoreVector as instant score and, as running average,
    the sum of the composites of all ScoreVectors so far divided by their
    number. *)
Theorem running_average_is_mean_of_composites_exact
    (w : World) sr0 weights pipes cfg
    (run : list (Buffer * dict Qc)) (c : Buffer) (scores : dict Qc) :
  (forall v, In v (map snd run ++ [scores]) ->
             forall k, In k (keys v) -> In k score_names) ->
  yields_each collab (run ++ [(c, scores)])
    (__init__ Processed Lyrics w sr0 weights pipes cfg) ->
  let self := snd (session collab (map fst run)
                     (__init__ Processed Lyrics w sr0 weights pipes cfg)) in
  fst (process_and_score collab c self)
  = Ok (_calculate_weighted_score self scores,
        (sum_of_composites weights (map snd run ++ [scores])
         / Qc_of_nat (List.length run + 1))%Qc,
        _generate_feedback self scores).
Proof.
  intros Hnames Hy.
  destruct (@constant_so_far_init World Processed Lyrics scores
              w sr0 weights pipes cfg) as (Hk & Hc & Hs).
  assert (Hs0 : composite_spec
                  (score_weights (__init__ Processed Lyrics w sr0 weights pipes cfg))
                  (cumulative_scores
                     (__init__ Processed Lyrics w sr0 weights pipes cfg))
                = sum_of_composites
                    (score_weights
                       (__init__ Processed Lyrics w sr0 weights pipes cfg)) []).
  { rewrite Hs. change (Qc_of_nat 0) with (Q2Qc 0). simpl. ring. }
  destruct (@mean_session run [] _ c scores Hnames Hk Hc Hs0 Hy) as (H1 & H2).
  cbv zeta. rewrite H2, weighted_score_composite_spec, H1. reflexivity.
Qed.

End ExactMean.

(* ================================================================== *)
(** * The further properties on concrete inputs *)

(** X1, witness: four bytes convert to two samples. *)
Lemma conversion_outcome_by_buffer_size_witness :
  exists samples floats,
    _convert_to_numpy_array pcm_segment false = Ok (Int16Array samples) /\
    _convert_to_numpy_array pcm_segment true = Ok (Float32Array floats) /\
    4 = 2 * List.length samples /\
    List.length floats = List.length samples.
Proof.
  apply (proj2 (proj2 (conversion_outcome_by_buffer_size pcm_segment)));
    [reflexivity | discriminate].
Defined.

(** X2, witness: the samples 0, 32767, -32768. *)
Lemma int16_view_round_trip_witness :
  _convert_to_numpy_array (NdArray (Int16Array [0; 32767; -32768]%Z)) false
  = Ok (Int16Array [0; 32767; -32768]%Z).
Proof.
  apply (proj1 int16_view_round_trip).
  repeat constructor; unfold is_int16; lia.
Defined.


(** X4, witness: silence and one full-scale sample become 0.0 and 1.0. *)
Lemma converted_samples_are_bounded_witness :
  exists samples floats,
    frombuffer_int16 (buffer_bytes pcm_segment) = Ok samples /\
    Float32Array [B32.of_Z 0; B32.of_Z 1] = Float32Array floats /\
    floats = (if existsb (fun z => (1 <? Z.abs z)%Z) samples
              then map scale_sample samples
              else map B32.of_Z samples) /\
    Forall (fun x => B32.isfinite x = true /\
                     fl_leb scaled_min x = true /\
                     fl_leb x (B32.of_Z 1) = true) floats /\
    B32.ltb scaled_min (B32.of_Z (-1)) = true.
Proof.
  apply (converted_samples_are_bounded pcm_segment). reflexivity.
Defined.

(** X5, witness: the same chunk passes the sanitizing paragraph unchanged. *)
Lemma converted_chunk_is_not_sanitized_witness :
  sanitize_chunk (Float32Array [B32.of_Z 0; B32.of_Z 1])
    (fresh (pitch_only (B64.of_Z 1)))
  = (Ok (Float32Array [B32.of_Z 0; B32.of_Z 1]),
     fresh (pitch_only (B64.of_Z 1))).
Proof.
  apply (@converted_chunk_is_not_sanitized _ _ _ _ pcm_segment
           (Float32Array [B32.of_Z 0; B32.of_Z 1])
           (fresh (pitch_only (B64.of_Z 1)))).
  reflexivity.
Defined.

(** X6, witness: the scorer answers pitch_score 0.9, then the unknown names
    "a" and "b".  The call raises KeyError for "a", and pitch_score has
    been added all the same. *)
Lemma failed_accumulation_is_not_rolled_back_witness :
  let scores := [("pitch_score", B64.dec 9 10);
                 ("a", B64.of_Z 1); ("b", B64.of_Z 1)] in
  let collab := stub (pcm_segment, pcm_segment) scores in
  let self := fresh (pitch_only (B64.of_Z 1)) in
  let after := snd (accumulate [("pitch_score", B64.dec 9 10)]
                      (snd (chunk_scores collab pcm_segment self))) in
  process_and_score collab pcm_segment self = (Raise (KeyError "a"), after) /\
  chunk_count after = chunk_count self /\
  dict_get (cumulative_scores after) "pitch_score"
  = Some (sc_add B64.zero (B64.dec 9 10)).
Proof.
  cbv zeta.
  destruct (@failed_accumulation_is_not_rolled_back _ _ nat unit unit
              (stub (pcm_segment, pcm_segment)
                 [("pitch_score", B64.dec 9 10);
                  ("a", B64.of_Z 1); ("b", B64.of_Z 1)])
              (fresh (pitch_only (B64.of_Z 1)))
              (snd (chunk_scores
                      (stub (pcm_segment, pcm_segment)
                         [("pitch_score", B64.dec 9 10);
                          ("a", B64.of_Z 1); ("b", B64.of_Z 1)])
                      pcm_segment (fresh (pitch_only (B64.of_Z 1)))))
              pcm_segment
              [("pitch_score", B64.dec 9 10)] [("b", B64.of_Z 1)]
              "a" (B64.of_Z 1))
    as (H1 & H2 & H3).
  - vm_compute. reflexivity.
  - repeat constructor. simpl. tauto.
  - intros k [<-|[]]. simpl. tauto.
  - intros H. vm_compute in H. intuition discriminate.
  - pose proof (H3 "pitch_score" (B64.dec 9 10) B64.zero eq_refl eq_refl)
      as H4.
    exact (conj H1 (conj H2 H4)).
Defined.

(** X7, witness: one chunk scoring 0.9 on pitch_score. *)
Lemma returned_call_adds_each_score_witness :
  let collab := stub (pcm_segment, pcm_segment) (pitch_only (B64.dec 9 10)) in
  let self := fresh (pitch_only (B64.of_Z 1)) in
  let after := snd (process_and_score collab pcm_segment self) in
  chunk_count after = 1 /\
  dict_get (cumulative_scores after) "pitch_score"
  = Some (B64.add B64.zero (B64.dec 9 10)) /\
  dict_get (cumulative_scores after) "rhythm_score" = Some B64.zero.
Proof.
  cbv zeta.
  destruct (@returned_call_adds_each_score _ _ nat unit unit
              (stub (pcm_segment, pcm_segment) (pitch_only (B64.dec 9 10)))
              (fresh (pitch_only (B64.of_Z 1)))
              (snd (chunk_scores
                      (stub (pcm_segment, pcm_segment)
                         (pitch_only (B64.dec 9 10)))
                      pcm_segment (fresh (pitch_only (B64.of_Z 1)))))
              pcm_segment (pitch_only (B64.dec 9 10)))
    as (_ & H2 & H3).
  - vm_compute. reflexivity.
  - repeat constructor. simpl. tauto.
  - intros k [<-|[]]. simpl. tauto.
  - split; [exact H2|]. split.
    + rewrite (H3 "pitch_score"). reflexivity.
    + rewrite (H3 "rhythm_score"). reflexivity.
Defined.

(** X8, witness: after one chunk scoring 0.9 [final_score] reports 0.9. *)
Lemma final_score_repeats_running_average_witness :
  let collab := stub (pcm_segment, pcm_segment) (pitch_only (B64.dec 9 10)) in
  let self := fresh (pitch_only (B64.of_Z 1)) in
  let after := snd (process_and_score collab pcm_segment self) in
  fst (final_score after)
  = Ok (B64.dec 9 10, _generate_feedback after (cumulative_scores after)).
Proof.
  cbv zeta.
  apply (@final_score_repeats_running_average _ _ nat unit unit
           (stub (pcm_segment, pcm_segment) (pitch_only (B64.dec 9 10)))
           (fresh (pitch_only (B64.of_Z 1))) _ pcm_segment
           (B64.dec 9 10) (B64.dec 9 10) (Some "Great pitch!")).
  vm_compute. reflexivity.
Defined.

(** X9, witness: the message returned for pitch_score 0.8 is the "high"
    message of the catalog's pitch_score entry. *)
Lemma feedback_comes_from_a_scored_catalog_entry_witness :
  exists name msgs value,
    In (name, msgs) (FEEDBACK_MESSAGES three_catalog) /\
    dict_get [("rhythm_score", B64.of_Z 1); ("pitch_score", B64.dec 8 10)] name
    = Some value /\
    "Great pitch!" = (if sc_ge_0_8 value then high msgs else low msgs).
Proof.
  apply (proj1 (@feedback_comes_from_a_scored_catalog_entry _ _ nat unit unit
                  (fresh_with three_catalog (pitch_only (B64.of_Z 1)))
                  [("rhythm_score", B64.of_Z 1); ("pitch_score", B64.dec 8 10)])).
  reflexivity.
Defined.

(** X10, witness: the catalog starts with amplitude_score, which the scorer
    never produces; after a chunk scoring 0.9 on pitch_score [final_score]
    answers with the "low" message for amplitude_score. *)
Lemma final_feedback_is_decided_by_cumulative_sums_witness :
  let collab := stub (pcm_segment, pcm_segment) (pitch_only (B64.dec 9 10)) in
  let self := snd (session collab [pcm_segment]
                     (fresh_with three_catalog (pitch_only (B64.of_Z 1)))) in
  exists total average,
    dict_get (cumulative_scores self) "amplitude_score" = Some total /\
    fst (final_score self)
    = Ok (average,
          Some (if sc_ge_0_8 total then "Good volume." else "Sing louder.")).
Proof.
  apply (@final_feedback_is_decided_by_cumulative_sums _ _ nat unit unit
           (stub (pcm_segment, pcm_segment) (pitch_only (B64.dec 9 10)))
           0 44100%Z (pitch_only (B64.of_Z 1)) one_pipeline three_catalog
           [pcm_segment] [] "amplitude_score"
           {| high := "Good volume."; low := "Sing louder." |}
           [("pitch_score", {| high := "Great pitch!"; low := "Watch your pitch." |});
            ("rhythm_score", {| high := "Right on time."; low := "Mind the beat." |})]).
  - reflexivity.
  - intros k [].
  - simpl. tauto.
  - vm_compute. lia.
Defined.

(** X11, witness: under the weights [{"a": 0.5}] the entry "b" can be
    dropped. *)
Lemma composite_ignores_what_is_not_paired_witness :
  _calculate_weighted_score (fresh [("a", B64.dec 1 2)])
    ([("a", B64.of_Z 1)] ++ ("b", B64.nan) :: [])
  = _calculate_weighted_score (fresh [("a", B64.dec 1 2)])
      ([("a", B64.of_Z 1)] ++ []).
Proof.
  apply (proj1 (proj2
           (@composite_ignores_what_is_not_paired _ _ nat unit unit
              (fresh [("a", B64.dec 1 2)]) (fresh [("a", B64.dec 1 2)])
              [] [("a", B64.of_Z 1)] [] "b" B64.nan))).
  reflexivity.
Defined.
(** X13, witness: the first call of a session, on a bytes chunk of two
    samples.  The trace is the alignment, a request for four samples, one
    preprocessing of the chunk, one of the segment, the lyrics, the scorer
    and the log record. *)
Lemma scoring_calls_in_order_witness :
  let scores := pitch_only (B64.dec 9 10) in
  let collab := stub (pcm_segment, pcm_segment) scores in
  let self := fresh (pitch_only (B64.of_Z 1)) in
  let s1 := snd (chunk_scores collab pcm_segment self) in
  let audio := Float32Array [B32.of_Z 0; B32.of_Z 1] in
  events s1
  = [EvCall (AlignAudio pcm_segment) (Ok tt);
     EvCall (GetNextSegment 4) (Ok (pcm_segment, pcm_segment));
     EvCall (PreprocessAudio audio ["normalize"] 44100%Z audio) (Ok tt);
     EvCall (PreprocessAudio audio [] 44100%Z audio) (Ok tt);
     EvCall GetLyrics (Ok tt);
     EvCall (ProcessAudioChunk [("pitch_score", tt)] [("pitch_score", tt)]
               tt 44100%Z) (Ok scores);
     EvLogInfo scores]
  /\ events (snd (process_and_score collab pcm_segment self)) = events s1.
Proof.
  cbv zeta. split; [vm_compute; reflexivity|].
  destruct (@scoring_calls_in_order _ _ nat unit unit
              (stub (pcm_segment, pcm_segment) (pitch_only (B64.dec 9 10)))
              pcm_segment (fresh (pitch_only (B64.of_Z 1)))
              (snd (chunk_scores
                      (stub (pcm_segment, pcm_segment)
                         (pitch_only (B64.dec 9 10)))
                      pcm_segment (fresh (pitch_only (B64.of_Z 1)))))
              (pitch_only (B64.dec 9 10)))
    as (a0 & b1 & b2 & o & r & sc & so & pc & po & lyrics
        & _ & _ & _ & _ & _ & _ & _ & _ & H).
  - vm_compute. reflexivity.
  - exact H.
Defined.

(** X14, witness.  A chunk of one byte on a new orchestrator of the
    counting test double: the call raises ValueError, the chunk has been
    aligned, and the chunks that follow are not.  An empty chunk on the
    strict test double: the alignment raises, and so does the call. *)
Lemma refused_chunk_still_uses_the_alignment_witness :
  (let collab := stub (pcm_segment, pcm_segment) (pitch_only (B64.dec 9 10)) in
   let self := fresh (pitch_only (B64.of_Z 1)) in
   let after := snd (align_once collab (PyBytes [x00]) self) in
   (exists msg,
       process_and_score collab (PyBytes [x00]) self
       = (Raise (ValueError msg), after))
   /\ initialized after = true
   /\ events after
      = events self
        ++ (if initialized self then []
            else [EvCall (AlignAudio (PyBytes [x00])) (Ok tt)])
   /\ cumulative_scores after = cumulative_scores self
   /\ chunk_count after = chunk_count self
   /\ forall chunks,
        align_calls (snd (session collab chunks after)) = align_calls after)
  /\
  (let collab := strict_stub (pcm_segment, pcm_segment)
                   (pitch_only (B64.dec 9 10)) in
   let self := fresh (pitch_only (B64.of_Z 1)) in
   let after := snd (align_once collab (PyBytes []) self) in
   process_and_score collab (PyBytes []) self
   = (Raise (ValueError "empty audio chunk"), after)
   /\ initialized after = false).
Proof.
  split.
  - cbv zeta.
    apply (proj1
             (@refused_chunk_still_uses_the_alignment _ _ nat unit unit
                (stub (pcm_segment, pcm_segment) (pitch_only (B64.dec 9 10)))
                [x00] (fresh (pitch_only (B64.of_Z 1)))
                (or_introl eq_refl))).
    right. reflexivity.
  - cbv zeta.
    destruct (proj2
                (@refused_chunk_still_uses_the_alignment _ _ nat unit unit
                   (strict_stub (pcm_segment, pcm_segment)
                      (pitch_only (B64.dec 9 10)))
                   [] (fresh (pitch_only (B64.of_Z 1)))
                   (or_intror eq_refl))
                eq_refl (ValueError "empty audio chunk") eq_refl)
      as (H1 & H2 & _).
    split; [exact H1|exact H2].
Defined.

(** X15, witness: an orchestrator that has processed one chunk is reset;
    both queries raise again, and the chunk processed afterwards is not
    aligned. *)
Lemma reset_restarts_statistics_only_witness :
  let collab := stub (pcm_segment, pcm_segment) (pitch_only (B64.dec 9 10)) in
  let self :=
    snd (process_and_score collab pcm_segment (fresh (pitch_only (B64.of_Z 1)))) in
  let after := snd (_reset_scores self) in
  chunk_count after = 0 /\
  fst (final_score after) = Raise ZeroDivisionError /\
  align_calls (snd (session collab [pcm_segment] after)) = align_calls self.
Proof.
  cbv zeta.
  pose proof (@reset_restarts_statistics_only _ _ nat unit unit
                (stub (pcm_segment, pcm_segment) (pitch_only (B64.dec 9 10)))
                _
                (snd (process_and_score
                        (stub (pcm_segment, pcm_segment)
                           (pitch_only (B64.dec 9 10)))
                        pcm_segment (fresh (pitch_only (B64.of_Z 1))))))
    as (_ & _ & H1 & _ & _ & _ & H3 & _ & H2).
  split; [exact H1|]. split.
  - apply H3. intros k v _. reflexivity.
  - apply H2. vm_compute. reflexivity.
Defined.

(** X16, witness: the scorer answers NaN on pitch_score.  After the first
    call the sum of pitch_score is NaN, and the running averages of the two
    calls that follow are NaN. *)
Lemma nan_score_poisons_the_running_average_witness :
  let collab := stub (pcm_segment, pcm_segment) (pitch_only B64.nan) in
  let self0 := fresh (pitch_only (B64.of_Z 1)) in
  let self := snd (process_and_score collab pcm_segment self0) in
  dict_get (cumulative_scores self) "pitch_score" = Some S754_nan /\
  averages_are_nan (fst (session collab [pcm_segment; pcm_segment] self)).
Proof.
  cbv zeta.
  assert (H0 : dict_get
                 (cumulative_scores
                    (snd (process_and_score
                            (stub (pcm_segment, pcm_segment) (pitch_only B64.nan))
                            pcm_segment (fresh (pitch_only (B64.of_Z 1))))))
                 "pitch_score" = Some S754_nan).
  { apply (proj1 (@nan_score_poisons_the_running_average nat unit unit
                    (stub (pcm_segment, pcm_segment) (pitch_only B64.nan))
                    (fresh (pitch_only (B64.of_Z 1))) "pitch_score")
             pcm_segment (pitch_only B64.nan)
             (snd (chunk_scores
                     (stub (pcm_segment, pcm_segment) (pitch_only B64.nan))
                     pcm_segment (fresh (pitch_only (B64.of_Z 1)))))).
    - vm_compute. reflexivity.
    - repeat constructor. simpl. tauto.
    - intros k [<-|[]]. simpl. tauto.
    - reflexivity. }
  split; [exact H0|].
  apply (proj2 (@nan_score_poisons_the_running_average nat unit unit
                  (stub (pcm_segment, pcm_segment) (pitch_only B64.nan))
                  (snd (process_and_score
                          (stub (pcm_segment, pcm_segment) (pitch_only B64.nan))
                          pcm_segment (fresh (pitch_only (B64.of_Z 1)))))
                  "pitch_score")
           (B64.of_Z 1) [pcm_segment; pcm_segment]).
  - vm_compute. reflexivity.
  - exact H0.
Defined.

(** X17, witness: three chunks scoring 1/2 and 1 on pitch_score and 1/4 on
    rhythm_score, with the weights 1/2 and 2.  The composites are 1/4, 1/2
    and 1/2, and the third call returns their mean. *)
Lemma running_average_is_mean_of_composites_exact_witness :
  let weights := [("pitch_score", Q2Qc (1 # 2)); ("rhythm_score", Q2Qc 2)] in
  let collab := sequence_stub (pcm_segment, pcm_segment) three_vectors in
  let run := [(pcm_segment, three_vectors 1); (pcm_segment, three_vectors 2)] in
  let self := snd (session collab (map fst run)
                     (__init__ unit unit 0 44100%Z weights
                        one_pipeline pitch_catalog)) in
  fst (process_and_score collab pcm_segment self)
  = Ok (_calculate_weighted_score self (three_vectors 3),
        (sum_of_composites weights (map snd run ++ [three_vectors 3])
         / Qc_of_nat (List.length run + 1))%Qc,
        _generate_feedback self (three_vectors 3)).
Proof.
  cbv zeta.
  apply (@running_average_is_mean_of_composites_exact nat unit unit
           (sequence_stub (pcm_segment, pcm_segment) three_vectors)
           0 44100%Z
           [("pitch_score", Q2Qc (1 # 2)); ("rhythm_score", Q2Qc 2)]
           one_pipeline pitch_catalog
           [(pcm_segment, three_vectors 1); (pcm_segment, three_vectors 2)]
           pcm_segment (three_vectors 3)).
  - intros v [<-|[<-|[<-|[]]]] k [<-|[]]; simpl; tauto.
  - repeat (eapply yields_each_cons; [vm_compute; reflexivity|]).
    apply yields_each_nil.
Defined.

(** X18, witness: the only sub-pipeline has no steps for the role
    "original".  The call raises KeyError for the role after the chunk was
    preprocessed, and the statistics are those of a new orchestrator. *)
Lemma exception_before_accumulation_leaves_statistics_witness :
  let collab := stub (pcm_segment, pcm_segment) (pitch_only (B64.dec 9 10)) in
  let self := __init__ unit unit 0 44100%Z (pitch_only (B64.of_Z 1))
                [("pitch_score", [("chunk", ["normalize"])])] pitch_catalog in
  let s1 := snd (chunk_scores collab pcm_segment self) in
  process_and_score collab pcm_segment self = (Raise (KeyError "original"), s1)
  /\ cumulative_scores s1 = cumulative_scores self
  /\ chunk_count s1 = chunk_count self.
Proof.
  cbv zeta.
  destruct (@exception_before_accumulation_leaves_statistics
              _ _ nat unit unit
              (stub (pcm_segment, pcm_segment) (pitch_only (B64.dec 9 10)))
              pcm_segment
              (__init__ unit unit 0 44100%Z (pitch_only (B64.of_Z 1))
                 [("pitch_score", [("chunk", ["normalize"])])] pitch_catalog)
              (snd (chunk_scores
                      (stub (pcm_segment, pcm_segment)
                         (pitch_only (B64.dec 9 10)))
                      pcm_segment
                      (__init__ unit unit 0 44100%Z (pitch_only (B64.of_Z 1))
                         [("pitch_score", [("chunk", ["normalize"])])]
                         pitch_catalog)))
              (KeyError "original"))
    as (H1 & H2 & H3 & _).
  - vm_compute. reflexivity.
  - exact (conj H1 (conj H2 H3)).
Defined.
